(** * Finance tracker: transaction ingestion and budget aggregation

    A shallow embedding of the TypeScript sources

      - [entities/transaction/lib/parseCSV.ts]   (parser, id hash, loader)
      - [entities/transaction/lib/filterRules.ts] (classifier)
      - [shared/lib] date helpers                 (salary calendar)
      - the zustand transaction store             (aggregation queries)
      - [BudgetCalculator] and [DashboardPage]    (projection, load effect)

    Conventions of the embedding.

      - A JavaScript string is the list of its UTF-16 code units
        ([JSString]); [js] turns a literal of this file into one.
      - A JavaScript [number] holding money is an exact rational ([Q]);
        IEEE-754 rounding of sums and quotients is not modelled there.
        The pool figures of a month are given a second time over binary64
        numbers ([F64], [monthFigures64]), where the rounding shows.
        Integer valued numbers (day counts, time values, hashes) are [Z].
      - A [Date] is the record of its local calendar fields.  Its time value
        is computed with the day arithmetic of the language specification
        ([MakeDay], [MakeTime], [MakeDate]); the local time zone is taken to
        have a fixed offset, so local time values differ from [getTime()] by
        a constant that cancels in every comparison and difference the
        program makes.  The day counts are given a second time over a time
        zone whose offset can change ([getSalaryMonthDays_in]).
      - Invalid Dates are outside the [Date] type; a computation whose
        JavaScript result would be [NaN] returns [None].  The figures that
        decide the current period are given a second time over dates that
        can be invalid ([JSDate], [daysRemaining_nan]).
      - Facilities of the runtime that are not part of the repository
        (Unicode lower-casing, [parseFloat], number printing, ISO date
        parsing, locale collation) are fields of a [Host] record, and the
        lists of the absent module [@/shared/config] are fields of a
        [Config] record; both are passed explicitly. *)

From Stdlib Require Import ZArith QArith Qabs Qminmax List Bool.
From Stdlib Require Import Ascii String Lia Lqa Permutation Sorted.
From Stdlib Require SpecFloat.
Import ListNotations.

#[local] Open Scope Z_scope.

(* ================================================================== *)
(** * Part I.  The program                                             *)
(* ================================================================== *)

(** ** JavaScript strings *)

Definition JSString := list Z.

(** UTF-8 bytes of a source literal to UTF-16 code units. *)
Fixpoint utf16_of_utf8 (bs : list Z) : JSString :=
  match bs with
  | [] => []
  | b :: rest =>
      if b <? 128 then b :: utf16_of_utf8 rest
      else if b <? 224 then
        match rest with
        | c :: rest' => ((b - 192) * 64 + (c - 128)) :: utf16_of_utf8 rest'
        | [] => [65533]
        end
      else if b <? 240 then
        match rest with
        | c1 :: c2 :: rest' =>
            ((b - 224) * 4096 + (c1 - 128) * 64 + (c2 - 128))
              :: utf16_of_utf8 rest'
        | _ => [65533]
        end
      else
        match rest with
        | c1 :: c2 :: c3 :: rest' =>
            let cp := (b - 240) * 262144 + (c1 - 128) * 4096
                      + (c2 - 128) * 64 + (c3 - 128) - 65536 in
            (55296 + cp / 1024) :: (56320 + cp mod 1024)
              :: utf16_of_utf8 rest'
        | _ => [65533]
        end
  end.

Definition js (s : string) : JSString :=
  utf16_of_utf8
    (map (fun a => Z.of_N (N_of_ascii a)) (list_ascii_of_string s)).

Definition QUOTE : Z := 34.
Definition SEMICOLON : Z := 59.
Definition NEWLINE : Z := 10.
Definition SPACE : Z := 32.
Definition DOT : Z := 46.
Definition COMMA : Z := 44.
Definition DASH : Z := 45.
Definition ZERO_CHAR : Z := 48.

(** [a === b] on strings. *)
Fixpoint str_eqb (a b : JSString) : bool :=
  match a, b with
  | [], [] => true
  | x :: a', y :: b' => (x =? y) && str_eqb a' b'
  | _, _ => false
  end.

(** WhiteSpace and LineTerminator code units: what [trim()] and the
    regular expression class [\s] remove. *)
Definition is_ws (c : Z) : bool :=
  ((9 <=? c) && (c <=? 13)) || (c =? 32) || (c =? 160) || (c =? 5760)
  || ((8192 <=? c) && (c <=? 8202)) || (c =? 8232) || (c =? 8233)
  || (c =? 8239) || (c =? 8287) || (c =? 12288) || (c =? 65279).

Fixpoint trimStart (s : JSString) : JSString :=
  match s with
  | c :: s' => if is_ws c then trimStart s' else s
  | [] => []
  end.

Definition trimEnd (s : JSString) : JSString := rev (trimStart (rev s)).

Definition trim (s : JSString) : JSString := trimEnd (trimStart s).

(** [s.split(sep)] for a separator of one code unit. *)
Fixpoint split (sep : Z) (s : JSString) : list JSString :=
  match s with
  | [] => [[]]
  | c :: s' =>
      if c =? sep then [] :: split sep s'
      else match split sep s' with
           | w :: ws => (c :: w) :: ws
           | [] => [[c]]
           end
  end.

Fixpoint startsWith (s p : JSString) : bool :=
  match p, s with
  | [], _ => true
  | x :: p', y :: s' => (x =? y) && startsWith s' p'
  | _ :: _, [] => false
  end.

(** [s.includes(sub)]. *)
Fixpoint includes (s sub : JSString) : bool :=
  startsWith s sub
  || match s with
     | [] => false
     | _ :: s' => includes s' sub
     end.

(** [arr.includes(x)] on an array of strings. *)
Definition arr_includes (arr : list JSString) (x : JSString) : bool :=
  existsb (str_eqb x) arr.

(** [s.replace(/c/g, '')]. *)
Definition remove_all (c : Z) (s : JSString) : JSString :=
  filter (fun x => negb (x =? c)) s.

(** [s.replace(/\s/g, '')]. *)
Definition remove_ws (s : JSString) : JSString :=
  filter (fun x => negb (is_ws x)) s.

(** [s.replace(a, b)] with a string pattern of one code unit: only the
    first occurrence is replaced. *)
Fixpoint replace_first (a b : Z) (s : JSString) : JSString :=
  match s with
  | [] => []
  | c :: s' => if c =? a then b :: s' else c :: replace_first a b s'
  end.

(** [s.replace(/^"|"$/g, '')]: one quote at the very start and one at the
    very end are deleted. *)
Definition strip_quotes (s : JSString) : JSString :=
  let s1 := match s with
            | c :: s' => if c =? QUOTE then s' else s
            | [] => []
            end in
  match rev s1 with
  | c :: r => if c =? QUOTE then rev r else s1
  | [] => s1
  end.

(** [s.padStart(n, '0')]. *)
Definition padStart0 (n : nat) (s : JSString) : JSString :=
  repeat ZERO_CHAR (n - List.length s) ++ s.

(** ** Integers as strings *)

Definition digitChar (d : Z) : Z := if d <? 10 then 48 + d else 87 + d.

Fixpoint digits_aux (fuel : nat) (radix n : Z) (acc : JSString) : JSString :=
  match fuel with
  | O => acc
  | S f =>
      let acc' := digitChar (n mod radix) :: acc in
      if n / radix =? 0 then acc' else digits_aux f radix (n / radix) acc'
  end.

(** [n.toString(radix)] for an integer [n >= 0]. *)
Definition toStringRadix (radix n : Z) : JSString :=
  digits_aux (S (Z.to_nat (Z.log2 n))) radix n [].

(** [String(n)] / [`${n}`] for an integer. *)
Definition String_of_int (n : Z) : JSString :=
  if n <? 0 then DASH :: toStringRadix 10 (- n) else toStringRadix 10 n.

Definition is_digit (c : Z) : bool := (48 <=? c) && (c <=? 57).

Definition dec_step (acc c : Z) : Z := acc * 10 + (c - 48).

Definition digits_value (s : JSString) : Z := fold_left dec_step s 0.

(** The value of a digit 0-9 or a-z, and of a numeral in a radix up to
    36. *)
Definition unitValue (c : Z) : Z := if c <? 58 then c - 48 else c - 87.

Definition is_alnum36 (c : Z) : bool :=
  ((48 <=? c) && (c <=? 57)) || ((97 <=? c) && (c <=? 122)).

Definition radix_value (radix : Z) (s : JSString) : Z :=
  fold_left (fun acc c => acc * radix + unitValue c) s 0.

(** [Number(s)] on the strings this program feeds it: surrounding white
    space is ignored, the empty string is [0], an optionally signed run of
    decimal digits is its value.  Every other string is treated as [NaN]
    ([None]); fractions, exponents and radix prefixes are not modelled. *)
Definition Number_of_string (s : JSString) : option Z :=
  match trim s with
  | [] => Some 0
  | c :: r =>
      if forallb is_digit (c :: r) then Some (digits_value (c :: r))
      else if (c =? DASH) && negb (List.length r =? 0)%nat && forallb is_digit r
      then Some (- digits_value r)
      else if (c =? 43) && negb (List.length r =? 0)%nat && forallb is_digit r
      then Some (digits_value r)
      else None
  end.

(** ** Dates (day arithmetic of the language specification) *)

Definition msPerDay : Z := 1000 * 60 * 60 * 24.

Definition DayFromYear (y : Z) : Z :=
  365 * (y - 1970) + (y - 1969) / 4 - (y - 1901) / 100 + (y - 1601) / 400.

Definition InLeapYear (y : Z) : bool :=
  if negb (y mod 4 =? 0) then false
  else if negb (y mod 100 =? 0) then true
  else if negb (y mod 400 =? 0) then false
  else true.

(** Number of days of the year before month [m] (0 = January). *)
Definition DayWithinYear (m : Z) (leap : bool) : Z :=
  let l := if leap then 1 else 0 in
  match m with
  | 0 => 0
  | 1 => 31
  | 2 => 59 + l
  | 3 => 90 + l
  | 4 => 120 + l
  | 5 => 151 + l
  | 6 => 181 + l
  | 7 => 212 + l
  | 8 => 243 + l
  | 9 => 273 + l
  | 10 => 304 + l
  | _ => 334 + l
  end.

Definition DaysInMonth (y m : Z) : Z :=
  match m with
  | 1 => if InLeapYear y then 29 else 28
  | 3 | 5 | 8 | 10 => 30
  | _ => 31
  end.

Definition MakeDay (year month date : Z) : Z :=
  let ym := year + month / 12 in
  let mn := month mod 12 in
  DayFromYear ym + DayWithinYear mn (InLeapYear ym) + date - 1.

Definition MakeTime (h m s ms : Z) : Z :=
  h * 3600000 + m * 60000 + s * 1000 + ms.

Definition MakeDate (day time : Z) : Z := day * msPerDay + time.

Record Date := mkDate {
  getFullYear : Z;
  getMonth : Z;          (* 0 = January *)
  getDate : Z;
  getHours : Z;
  getMinutes : Z;
  getSeconds : Z;
  getMilliseconds : Z
}.

(** Local time value of a date, in milliseconds. *)
Definition getTime (d : Date) : Z :=
  MakeDate (MakeDay (getFullYear d) (getMonth d) (getDate d))
           (MakeTime (getHours d) (getMinutes d) (getSeconds d)
                     (getMilliseconds d)).

(** The fields of a [Date] that a program can observe through the getters
    are normalised; the years are those whose every instant is inside the
    range of time values. *)
Definition Date_validb (d : Date) : bool :=
  (-271821 <? getFullYear d) && (getFullYear d <? 275760)
  && (0 <=? getMonth d) && (getMonth d <=? 11)
  && (1 <=? getDate d)
  && (getDate d <=? DaysInMonth (getFullYear d) (getMonth d))
  && (0 <=? getHours d) && (getHours d <? 24)
  && (0 <=? getMinutes d) && (getMinutes d <? 60)
  && (0 <=? getSeconds d) && (getSeconds d <? 60)
  && (0 <=? getMilliseconds d) && (getMilliseconds d <? 1000).

Definition Date_valid (d : Date) : Prop := Date_validb d = true.

Definition maxTimeValue : Z := 8640000000000000.

(** [new Date(year, monthIndex, day, hours, minutes, seconds)]: a year in
    0..99 means 1900 + year; a time value outside the supported range
    gives an Invalid Date ([None]).  The fields are kept as given, and
    [getTime] normalises an overflowing month index. *)
Definition fullYear (year : Z) : Z :=
  if (0 <=? year) && (year <=? 99) then 1900 + year else year.

Definition newDate (year monthIndex day h mi s : Z) : option Date :=
  let d := mkDate (fullYear year) monthIndex day h mi s 0 in
  if Z.abs (getTime d) <=? maxTimeValue then Some d else None.

(** ** Salary calendar ([shared/lib]) *)

(** Salary month: 23rd of month to 22nd of next month *)
Definition SALARY_DAY : Z := 23.

(** Get salary month key for a date.
    If date is before 23rd - it belongs to previous salary month. *)
Definition getSalaryMonthKey (date : Date) : JSString :=
  let day := getDate date in
  let year := getFullYear date in
  let month := getMonth date + 1 in
  let '(year, month) :=
    if day <? SALARY_DAY then
      let month := month - 1 in
      if month <? 1 then (year - 1, 12) else (year, month)
    else (year, month) in
  String_of_int year ++ [DASH] ++ padStart0 2 (String_of_int month).

(** Get the start and end dates for a salary month. *)
Definition getSalaryMonthRange (salaryMonthKey : JSString)
  : option (Date * Date) :=
  match map Number_of_string (split DASH salaryMonthKey) with
  | Some year :: Some month :: _ =>
      match newDate year (month - 1) SALARY_DAY 0 0 0 with
      | Some start =>
          let '(endYear, endMonth) :=
            if month + 1 >? 12 then (year + 1, 1) else (year, month + 1) in
          match newDate endYear (endMonth - 1) 22 23 59 59 with
          | Some end_ => Some (start, end_)
          | None => None
          end
      | None => None
      end
  | _ => None
  end.

(** Check if a date falls within a salary month. *)
Definition isInSalaryMonth (date : Date) (salaryMonthKey : JSString) : bool :=
  match getSalaryMonthRange salaryMonthKey with
  | Some (start, end_) =>
      (getTime start <=? getTime date) && (getTime date <=? getTime end_)
  | None => false
  end.

(** Get current day within salary month (1-30ish). *)
Definition getSalaryMonthDay (date : Date) : option Z :=
  let salaryMonthKey := getSalaryMonthKey date in
  match getSalaryMonthRange salaryMonthKey with
  | Some (start, _) =>
      let diffTime := getTime date - getTime start in
      let diffDays := diffTime / msPerDay in
      Some (diffDays + 1)
  | None => None
  end.

(** Get total days in a salary month. *)
Definition getSalaryMonthDays (salaryMonthKey : JSString) : option Z :=
  match getSalaryMonthRange salaryMonthKey with
  | Some (start, end_) =>
      let diffTime := getTime end_ - getTime start in
      Some (diffTime / msPerDay + 1)
  | None => None
  end.


(** ** Helpers used to state properties of the calendar *)

(** The text of a key, as [getSalaryMonthKey] prints it. *)
Definition formatKey (year month : Z) : JSString :=
  String_of_int year ++ [DASH] ++ padStart0 2 (String_of_int month).

Definition dayNumber (d : Date) : Z :=
  MakeDay (getFullYear d) (getMonth d) (getDate d).

Definition timeOfDay (d : Date) : Z :=
  MakeTime (getHours d) (getMinutes d) (getSeconds d) (getMilliseconds d).

(** The (year, month) pair, month in 1..12, that [getSalaryMonthKey]
    prints. *)
Definition periodOf (d : Date) : Z * Z :=
  if getDate d <? SALARY_DAY then
    if getMonth d <? 1 then (getFullYear d - 1, 12)
    else (getFullYear d, getMonth d)
  else (getFullYear d, getMonth d + 1).

(** Year and month index of the month that follows month [km] (1..12) of
    year [ky], as [getSalaryMonthRange] computes them. *)
Definition endOf (ky km : Z) : Z * Z :=
  if km + 1 >? 12 then (ky + 1, 0) else (ky, km).

(** ** Numbers *)

(** [a < b] on numbers. *)
Definition Qltb (a b : Q) : bool :=
  match (a ?= b)%Q with
  | Lt => true
  | _ => false
  end.

(** ** Sorting: [Array.prototype.sort] is stable *)

Section Sort.
Context {A : Type}.
(** [before a b]: the comparator's result on [(a, b)] is not positive. *)
Variable before : A -> A -> bool.

Fixpoint insert_sorted (x : A) (l : list A) : list A :=
  match l with
  | [] => [x]
  | y :: l' => if before x y then x :: y :: l' else y :: insert_sorted x l'
  end.

Definition sortBy (l : list A) : list A := fold_right insert_sorted [] l.
End Sort.

(** ** Runtime facilities and configuration *)

Record Host := {
  (** [String.prototype.toLowerCase] *)
  toLowerCase : JSString -> JSString;
  (** [parseFloat]; [None] is [NaN] *)
  parseFloat : JSString -> option Q;
  (** [`${x}`] for a number [x] *)
  numberToString : Q -> JSString;
  (** [new Date(isoString)] *)
  parseDateString : JSString -> Date;
  (** [a.localeCompare(b)] *)
  localeCompare : JSString -> JSString -> Z
}.

(** The lists exported by [@/shared/config]. *)
Record Config := {
  EXCLUDED_PEOPLE : list JSString;
  EXCLUDED_DESCRIPTIONS_INCOME : list JSString;
  EXCLUDED_DESCRIPTIONS_EXPENSE : list JSString;
  REFUND_KEYWORDS : list JSString;
  EXPENSE_CATEGORIES : list JSString;
  DAILY_CATEGORIES : list JSString;
  MONTHLY_CATEGORIES : list JSString
}.

(** ** Data model ([model/types.ts]) *)

Inductive TxType := expense | income.

Inductive PoolType := daily | monthly | mandatory | other.

Definition TxType_eqb (a b : TxType) : bool :=
  match a, b with
  | expense, expense | income, income => true
  | _, _ => false
  end.

Definition PoolType_eqb (a b : PoolType) : bool :=
  match a, b with
  | daily, daily | monthly, monthly | mandatory, mandatory
  | other, other => true
  | _, _ => false
  end.

Module Raw.
Record RawTransaction := {
  operationDate : JSString;
  paymentDate : JSString;
  cardNumber : JSString;
  status : JSString;
  operationAmount : Q;
  operationCurrency : JSString;
  paymentAmount : Q;
  paymentCurrency : JSString;
  cashback : JSString;
  category : JSString;
  mcc : JSString;
  description : JSString;
  bonuses : JSString;
  investRounding : JSString;
  amountWithRounding : JSString
}.
End Raw.

Module Tx.
Record Transaction := {
  id : JSString;
  date : Date;
  amount : Q;
  category : JSString;
  description : JSString;
  cardNumber : JSString;
  mcc : JSString;
  type : TxType;
  isFiltered : bool;
  filterReason : option JSString;
  pool : PoolType
}.
End Tx.

(** [tx.isFiltered = ...; tx.filterReason = ...] *)
Definition setFilter (tx : Tx.Transaction) (f : bool) (r : option JSString)
  : Tx.Transaction :=
  {| Tx.id := Tx.id tx; Tx.date := Tx.date tx; Tx.amount := Tx.amount tx;
     Tx.category := Tx.category tx; Tx.description := Tx.description tx;
     Tx.cardNumber := Tx.cardNumber tx; Tx.mcc := Tx.mcc tx;
     Tx.type := Tx.type tx; Tx.isFiltered := f; Tx.filterReason := r;
     Tx.pool := Tx.pool tx |}.

(** [tx.pool = ...] *)
Definition setPool (tx : Tx.Transaction) (p : PoolType) : Tx.Transaction :=
  {| Tx.id := Tx.id tx; Tx.date := Tx.date tx; Tx.amount := Tx.amount tx;
     Tx.category := Tx.category tx; Tx.description := Tx.description tx;
     Tx.cardNumber := Tx.cardNumber tx; Tx.mcc := Tx.mcc tx;
     Tx.type := Tx.type tx; Tx.isFiltered := Tx.isFiltered tx;
     Tx.filterReason := Tx.filterReason tx; Tx.pool := p |}.

Module Cat.
Record CategoryData := {
  name : JSString;
  amount : Q;
  percentage : Q;
  count : Z
}.
End Cat.

Module Monthly.
Record MonthlyData := {
  month : JSString;
  totalExpenses : Q;
  totalIncome : Q;
  dailyPoolSpent : Q;
  monthlyPoolSpent : Q;
  mandatorySpent : Q;
  categories : list Cat.CategoryData
}.
End Monthly.

Module Budget.
Record Mandatory := {
  batman : Q;
  claudeCode : Q;
  debtPayment : Q
}.

Record BudgetState := {
  income : Q;
  mandatory : Mandatory;
  dailyTarget : Q;
  totalDebt : Q;
  paidDebt : Q;
  foodPoolBudget : Q;
  monthlyPoolBudget : Q
}.
End Budget.

(** ** Classifier ([filterRules.ts]) *)

Record FilterResult := {
  shouldInclude : bool;
  reason : option JSString
}.

Definition BANK_LATIN : JSString := js "sovcombank".
Definition BANK_CYRILLIC : JSString := js "совкомбанк".
Definition TRANSFERS : JSString := js "Переводы".

Definition filterIncome (h : Host) (cfg : Config) (tx : Tx.Transaction)
  : FilterResult :=
  let desc := toLowerCase h (Tx.description tx) in
  match find (fun excluded => includes desc (toLowerCase h excluded))
             (EXCLUDED_DESCRIPTIONS_INCOME cfg) with
  | Some excluded =>
      {| shouldInclude := false;
         reason := Some (js "Исключено: " ++ excluded) |}
  | None =>
  match find (fun person => includes (Tx.description tx) person)
             (EXCLUDED_PEOPLE cfg) with
  | Some person =>
      {| shouldInclude := false;
         reason := Some (js "Перевод от " ++ person) |}
  | None =>
  match find (fun keyword => includes desc keyword) (REFUND_KEYWORDS cfg) with
  | Some _ =>
      {| shouldInclude := false;
         reason := Some (js "Возврат/компенсация") |}
  | None =>
      if arr_includes (EXPENSE_CATEGORIES cfg) (Tx.category tx)
      then {| shouldInclude := false;
              reason := Some (js "Возврат в категории " ++ Tx.category tx) |}
      else {| shouldInclude := true; reason := None |}
  end end end.

Definition filterExpense (h : Host) (cfg : Config) (tx : Tx.Transaction)
  : FilterResult :=
  let desc := toLowerCase h (Tx.description tx) in
  if str_eqb (Tx.category tx) TRANSFERS then
    if includes desc BANK_LATIN || includes desc BANK_CYRILLIC
    then {| shouldInclude := true; reason := None |}
    else {| shouldInclude := false;
            reason := Some (js "Категория Переводы") |}
  else
  match find (fun excluded =>
                includes desc (toLowerCase h excluded)
                || includes (Tx.description tx) excluded)
             (EXCLUDED_DESCRIPTIONS_EXPENSE cfg) with
  | Some excluded => {| shouldInclude := false; reason := Some excluded |}
  | None =>
  match find (fun person => includes (Tx.description tx) person)
             (EXCLUDED_PEOPLE cfg) with
  | Some person =>
      {| shouldInclude := false;
         reason := Some (js "Перевод для " ++ person) |}
  | None => {| shouldInclude := true; reason := None |}
  end end.

Definition determinePool (h : Host) (cfg : Config) (tx : Tx.Transaction)
  : PoolType :=
  if TxType_eqb (Tx.type tx) income then other
  else
    let category := Tx.category tx in
    if arr_includes (DAILY_CATEGORIES cfg) category then daily
    else if arr_includes (MONTHLY_CATEGORIES cfg) category then monthly
    else
      let desc := toLowerCase h (Tx.description tx) in
      if includes desc BANK_LATIN || includes desc BANK_CYRILLIC
      then mandatory
      else other.

(** ** Parser ([parseCSV.ts]) *)

Definition parseAmount (h : Host) (str : JSString) : Q :=
  match str with
  | [] => 0%Q
  | _ =>
      let cleaned :=
        remove_all QUOTE (replace_first COMMA DOT (remove_ws str)) in
      match parseFloat h cleaned with
      | Some q => q
      | None => 0%Q
      end
  end.

Definition UNDEFINED : JSString := js "undefined".

Definition parseDate (h : Host) (str : JSString) : Date :=
  let cleaned := remove_all QUOTE str in
  let parts := split SPACE cleaned in
  let datePart := nth 0 parts UNDEFINED in
  let timePart := match nth_error parts 1 with
                  | Some (c :: t) => c :: t
                  | _ => js "00:00:00"
                  end in
  let fields := split DOT datePart in
  let day := nth 0 fields UNDEFINED in
  let month := nth 1 fields UNDEFINED in
  let year := nth 2 fields UNDEFINED in
  parseDateString h
    (year ++ js "-" ++ month ++ js "-" ++ day ++ js "T" ++ timePart).

(** [x | 0]: wrap to a signed 32-bit integer. *)
Definition toInt32 (x : Z) : Z := (x + 2 ^ 31) mod 2 ^ 32 - 2 ^ 31.

(** [x << n] on 32-bit integers. *)
Definition shl32 (x n : Z) : Z := toInt32 (Z.shiftl (toInt32 x) n).

Definition hashString (str : JSString) : Z :=
  fold_left (fun hash c => toInt32 ((shl32 hash 5 - hash) + c)) str 0.

Definition generateId (h : Host) (tx : Raw.RawTransaction) (index : Z)
  : JSString :=
  let str := Raw.operationDate tx ++ js "-"
             ++ numberToString h (Raw.operationAmount tx) ++ js "-"
             ++ Raw.description tx ++ js "-" ++ String_of_int index in
  let hash := hashString str in
  toStringRadix 36 (Z.abs hash).

(** The hash in the words of the specification: the accumulator times 31
    plus the code unit, wrapped to 32 bits. *)
Definition rollingHash31 (str : JSString) : Z :=
  fold_left (fun acc c => toInt32 (31 * acc + c)) str 0.

Fixpoint parseCSVLine_loop (line : JSString) (result : list JSString)
    (current : JSString) (inQuotes : bool) : list JSString :=
  match line with
  | [] => result ++ [strip_quotes (trim current)]
  | char :: rest =>
      if char =? QUOTE then
        parseCSVLine_loop rest result current (negb inQuotes)
      else if (char =? SEMICOLON) && negb inQuotes then
        parseCSVLine_loop rest (result ++ [strip_quotes (trim current)])
                          [] inQuotes
      else
        parseCSVLine_loop rest result (current ++ [char]) inQuotes
  end.

Definition parseCSVLine (line : JSString) : list JSString :=
  parseCSVLine_loop line [] [] false.

Definition STATUS_OK : JSString := js "OK".

(** The body of the loop of [parseCSV] for line [i]: [None] is
    [continue]. *)
Definition parseRow (h : Host) (cfg : Config) (i : Z) (rawLine : JSString)
  : option Tx.Transaction :=
  let line := trim rawLine in
  match line with
  | [] => None
  | _ =>
      let values := parseCSVLine line in
      if (List.length values <? 12)%nat then None
      else
        let value k := nth k values [] in
        let raw :=
          {| Raw.operationDate := value 0%nat;
             Raw.paymentDate := value 1%nat;
             Raw.cardNumber := value 2%nat;
             Raw.status := value 3%nat;
             Raw.operationAmount := parseAmount h (value 4%nat);
             Raw.operationCurrency := value 5%nat;
             Raw.paymentAmount := parseAmount h (value 6%nat);
             Raw.paymentCurrency := value 7%nat;
             Raw.cashback := value 8%nat;
             Raw.category := value 9%nat;
             Raw.mcc := value 10%nat;
             Raw.description := value 11%nat;
             Raw.bonuses := value 12%nat;
             Raw.investRounding := value 13%nat;
             Raw.amountWithRounding := value 14%nat |} in
        if negb (str_eqb (Raw.status raw) STATUS_OK) then None
        else
          let isExpense := Qltb (Raw.operationAmount raw) 0 in
          let tx :=
            {| Tx.id := generateId h raw i;
               Tx.date := parseDate h (Raw.operationDate raw);
               Tx.amount := Raw.operationAmount raw;
               Tx.category := Raw.category raw;
               Tx.description := Raw.description raw;
               Tx.cardNumber := Raw.cardNumber raw;
               Tx.mcc := Raw.mcc raw;
               Tx.type := if isExpense then expense else income;
               Tx.isFiltered := false;
               Tx.filterReason := None;
               Tx.pool := other |} in
          let filterResult :=
            if isExpense then filterExpense h cfg tx
            else filterIncome h cfg tx in
          let tx := setFilter tx (negb (shouldInclude filterResult))
                              (reason filterResult) in
          let tx := setPool tx (determinePool h cfg tx) in
          Some tx
  end.

(** The tokens of a line, and what the parser calls a usable line: not
    blank, at least 12 tokens. *)
Definition rowValues (rawLine : JSString) : list JSString :=
  parseCSVLine (trim rawLine).

Definition wellFormedRow (rawLine : JSString) : bool :=
  match trim rawLine with
  | [] => false
  | _ => (12 <=? List.length (rowValues rawLine))%nat
  end.

(** A line that is usable and whose status token is the success code. *)
Definition keptRow (rawLine : JSString) : bool :=
  wellFormedRow rawLine && str_eqb (nth 3 (rowValues rawLine) []) STATUS_OK.

(** The text hashed for the row of line [i] with tokens [values]. *)
Definition idText (h : Host) (values : list JSString) (i : Z) : JSString :=
  nth 0 values [] ++ js "-"
  ++ numberToString h (parseAmount h (nth 4 values [])) ++ js "-"
  ++ nth 11 values [] ++ js "-" ++ String_of_int i.

(** The loop [for (let i = ...; i < lines.length; i++)] from index [i] on. *)
Fixpoint parseLines (h : Host) (cfg : Config) (i : Z) (lines : list JSString)
  : list Tx.Transaction :=
  match lines with
  | [] => []
  | l :: rest =>
      match parseRow h cfg i l with
      | Some tx => tx :: parseLines h cfg (i + 1) rest
      | None => parseLines h cfg (i + 1) rest
      end
  end.

(** [(a, b) => b.date.getTime() - a.date.getTime()] is not positive. *)
Definition byDateDesc (a b : Tx.Transaction) : bool :=
  getTime (Tx.date b) - getTime (Tx.date a) <=? 0.

Definition parseCSV (h : Host) (cfg : Config) (csvText : JSString)
  : list Tx.Transaction :=
  let lines := split NEWLINE csvText in
  sortBy byDateDesc (parseLines h cfg 1 (tl lines)).

(** Outcome of awaiting a promise. *)
Inductive Awaited (A : Type) :=
  | Resolved (a : A)
  | Rejected.
Arguments Resolved {A} a.
Arguments Rejected {A}.

(** What [fetch('/123.csv')] and [response.text()] can do. *)
Inductive FetchOutcome :=
  | FetchRejects
  | FetchResponse (ok : bool) (text : Awaited JSString).

Definition loadCSVFromPublic (h : Host) (cfg : Config) (net : FetchOutcome)
  : Awaited (list Tx.Transaction) :=
  let attempt :=
    match net with
    | FetchRejects => Rejected
    | FetchResponse ok text =>
        if negb ok then Rejected            (* throw new Error(...) *)
        else match text with
             | Rejected => Rejected
             | Resolved t => Resolved (parseCSV h cfg t)
             end
    end in
  match attempt with
  | Resolved txs => Resolved txs
  | Rejected => Resolved []                 (* catch: log, return [] *)
  end.

(** ** The transaction store *)

Record TransactionState := {
  transactions : list Tx.Transaction;
  isLoading : bool;
  error : option JSString;
  budget : Budget.BudgetState;
  selectedMonth : option JSString;
  selectedDay : option JSString
}.

Definition setTransactions (txs : list Tx.Transaction) (st : TransactionState)
  : TransactionState :=
  {| transactions := txs; isLoading := isLoading st; error := error st;
     budget := budget st; selectedMonth := selectedMonth st;
     selectedDay := selectedDay st |}.

Definition setLoading (b : bool) (st : TransactionState) : TransactionState :=
  {| transactions := transactions st; isLoading := b; error := error st;
     budget := budget st; selectedMonth := selectedMonth st;
     selectedDay := selectedDay st |}.

Definition setError (e : option JSString) (st : TransactionState)
  : TransactionState :=
  {| transactions := transactions st; isLoading := isLoading st; error := e;
     budget := budget st; selectedMonth := selectedMonth st;
     selectedDay := selectedDay st |}.

Definition getFilteredTransactions (st : TransactionState)
  : list Tx.Transaction :=
  filter (fun t => negb (Tx.isFiltered t)) (transactions st).

(** [txs.reduce((sum, t) => sum + Math.abs(t.amount), 0)] *)
Definition sumAbs (txs : list Tx.Transaction) : Q :=
  fold_left (fun sum t => (sum + Qabs (Tx.amount t))%Q) txs 0%Q.

(** [txs.reduce((sum, t) => sum + t.amount, 0)] *)
Definition sumAmount (txs : list Tx.Transaction) : Q :=
  fold_left (fun sum t => (sum + Tx.amount t)%Q) txs 0%Q.

Definition isExpense (t : Tx.Transaction) : bool :=
  TxType_eqb (Tx.type t) expense.

Definition isIncome (t : Tx.Transaction) : bool :=
  TxType_eqb (Tx.type t) income.

Definition inPool (p : PoolType) (t : Tx.Transaction) : bool :=
  PoolType_eqb (Tx.pool t) p.

(** A [Map<string, V>]: entries in insertion order. *)
Definition StrMap (V : Type) := list (JSString * V).

Fixpoint map_get {V} (m : StrMap V) (k : JSString) : option V :=
  match m with
  | [] => None
  | (k', v) :: m' => if str_eqb k k' then Some v else map_get m' k
  end.

(** [m.set(k, v)]: an existing key keeps its place. *)
Fixpoint map_set {V} (m : StrMap V) (k : JSString) (v : V) : StrMap V :=
  match m with
  | [] => [(k, v)]
  | (k', v') :: m' =>
      if str_eqb k k' then (k', v) :: m' else (k', v') :: map_set m' k v
  end.

(** [if (!m.has(key)) m.set(key, []); m.get(key).push(tx)] *)
Definition map_push (m : StrMap (list Tx.Transaction)) (key : JSString)
    (tx : Tx.Transaction) : StrMap (list Tx.Transaction) :=
  match map_get m key with
  | Some txs => map_set m key (txs ++ [tx])
  | None => map_set m key [tx]
  end.

Definition groupBy (key : Tx.Transaction -> JSString)
    (txs : list Tx.Transaction) : StrMap (list Tx.Transaction) :=
  fold_left (fun m tx => map_push m (key tx) tx) txs [].

Definition getCategoryData (txs : list Tx.Transaction)
  : list Cat.CategoryData :=
  let categoryMap :=
    fold_left
      (fun (m : StrMap (Q * Z)) tx =>
         let current := match map_get m (Tx.category tx) with
                        | Some c => c
                        | None => (0%Q, 0)
                        end in
         map_set m (Tx.category tx)
                 ((fst current + Qabs (Tx.amount tx))%Q, snd current + 1))
      txs [] in
  let total :=
    fold_left (fun sum c => (sum + fst (snd c))%Q) categoryMap 0%Q in
  let result :=
    map (fun '(name, data) =>
           {| Cat.name := name;
              Cat.amount := fst data;
              Cat.percentage :=
                if Qltb 0 total then (fst data / total * 100)%Q else 0%Q;
              Cat.count := snd data |})
        categoryMap in
  sortBy (fun a b => Qle_bool (Cat.amount b - Cat.amount a) 0) result.

(** Use salary month (23rd to 22nd) *)
Definition getMonthlyData (h : Host) (st : TransactionState)
  : list Monthly.MonthlyData :=
  let filtered := getFilteredTransactions st in
  let monthMap := groupBy (fun tx => getSalaryMonthKey (Tx.date tx)) filtered in
  let result :=
    map (fun '(month, txs) =>
           let expenses := filter isExpense txs in
           let income := filter isIncome txs in
           {| Monthly.month := month;
              Monthly.totalExpenses := sumAbs expenses;
              Monthly.totalIncome := sumAmount income;
              Monthly.dailyPoolSpent := sumAbs (filter (inPool daily) expenses);
              (* Monthly pool includes all non-daily expenses
                 (monthly, mandatory, other) *)
              Monthly.monthlyPoolSpent :=
                sumAbs (filter (fun t => negb (inPool daily t)) expenses);
              Monthly.mandatorySpent :=
                sumAbs (filter (inPool mandatory) expenses);
              Monthly.categories := getCategoryData expenses |})
        monthMap in
  sortBy (fun a b =>
            localeCompare h (Monthly.month b) (Monthly.month a) <=? 0)
         result.

Module Stats.
(** The object returned by [getCurrentMonthStats].  A field that is
    [NaN] when the period range is an Invalid Date is an option;
    [dailyBudget] is also [None] when it is not finite. *)
Record CurrentMonthStats := {
  dailyPoolSpent : Q;
  monthlyPoolSpent : Q;
  mandatorySpent : Q;
  daysRemaining : option Z;
  dailyBudget : option Q;
  currentMonth : JSString;
  currentDay : option Z;
  daysInMonth : option Z
}.
End Stats.

(** [filtered.reduce((latest, tx) => tx.date > latest.date ? tx : latest)] *)
Definition latestOf (first : Tx.Transaction) (others : list Tx.Transaction)
  : Tx.Transaction :=
  fold_left
    (fun latest tx =>
       if getTime (Tx.date tx) >? getTime (Tx.date latest) then tx else latest)
    others first.

(** [Math.max(0, x / n)] for a finite [x] and an integer [n]: dividing by
    zero gives an infinity or [NaN], and only [-Infinity] is brought back
    to [0]. *)
Definition max0_div (x : Q) (n : Z) : option Q :=
  if n =? 0 then (if Qltb x 0 then Some 0%Q else None)
  else Some (Qmax 0 (x / inject_Z n)).

(** The date that decides the current period: the most recent included
    transaction, or [now], the value of [new Date()], when there is
    none. *)
Definition latestDate (now : Date) (st : TransactionState) : Date :=
  match getFilteredTransactions st with
  | first :: others => Tx.date (latestOf first others)
  | [] => now
  end.

Definition getCurrentMonthStats (now : Date) (st : TransactionState)
  : Stats.CurrentMonthStats :=
  let budget := budget st in
  let filtered := getFilteredTransactions st in
  (* Find the most recent salary month from transactions *)
  let latestDate := latestDate now st in
  let currentMonth := getSalaryMonthKey latestDate in
  let currentDay := getSalaryMonthDay latestDate in
  let currentMonthTxs :=
    filter (fun tx => isInSalaryMonth (Tx.date tx) currentMonth && isExpense tx)
           filtered in
  let dailyPoolSpent := sumAbs (filter (inPool daily) currentMonthTxs) in
  (* Monthly pool includes all non-daily expenses (monthly, mandatory, other) *)
  let monthlyPoolSpent :=
    sumAbs (filter (fun t => negb (inPool daily t)) currentMonthTxs) in
  let mandatorySpent := sumAbs (filter (inPool mandatory) currentMonthTxs) in
  let daysInMonth := getSalaryMonthDays currentMonth in
  let daysRemaining :=
    match daysInMonth, currentDay with
    | Some n, Some c => Some (n - c + 1)
    | _, _ => None
    end in
  let dailyPool :=
    option_map (fun n => (Budget.dailyTarget budget * inject_Z n)%Q)
               daysInMonth in
  let dailyBudget :=
    match dailyPool, daysRemaining with
    | Some p, Some r => max0_div (p - dailyPoolSpent) r
    | _, _ => None
    end in
  {| Stats.dailyPoolSpent := dailyPoolSpent;
     Stats.monthlyPoolSpent := monthlyPoolSpent;
     Stats.mandatorySpent := mandatorySpent;
     Stats.daysRemaining := daysRemaining;
     Stats.dailyBudget := dailyBudget;
     Stats.currentMonth := currentMonth;
     Stats.currentDay := currentDay;
     Stats.daysInMonth := daysInMonth |}.

(** ** [BudgetCalculator]: the figures the widget derives *)

Module Calc.
Record Figures := {
  realIncome : Q;
  totalPlannedBudget : Q;
  remainder : Q;
  foodPoolSpent : Q;
  monthlyPoolSpent : Q;
  foodPoolRemaining : Q;
  monthlyPoolRemaining : Q;
  effectiveDailyBudget : option Q
}.
End Calc.

Definition BudgetCalculator (h : Host) (now : Date) (st : TransactionState)
  : Calc.Figures :=
  let stats := getCurrentMonthStats now st in
  (* Pool budgets from store - adjustable via sliders *)
  let foodPoolBudget := Budget.foodPoolBudget (budget st) in
  let monthlyPoolBudget := Budget.monthlyPoolBudget (budget st) in
  (* Get real data from current month transactions *)
  let monthlyData := getMonthlyData h st in
  let currentMonthData :=
    find (fun m => str_eqb (Monthly.month m) (Stats.currentMonth stats))
         monthlyData in
  let realIncome := match currentMonthData with
                    | Some m => Monthly.totalIncome m
                    | None => 0%Q
                    end in
  (* Total planned budget from pools *)
  let totalPlannedBudget := (foodPoolBudget + monthlyPoolBudget)%Q in
  (* Remainder = income - planned pools
     (can be negative = deficit, positive = surplus for debt) *)
  let remainder := (realIncome - totalPlannedBudget)%Q in
  let foodPoolSpent := Stats.dailyPoolSpent stats in
  let monthlyPoolSpent := Stats.monthlyPoolSpent stats in
  let foodPoolRemaining := (foodPoolBudget - foodPoolSpent)%Q in
  let monthlyPoolRemaining := (monthlyPoolBudget - monthlyPoolSpent)%Q in
  (* Daily budget from food pool *)
  let effectiveDailyBudget :=
    option_map (fun r => (foodPoolRemaining / inject_Z (Z.max 1 r))%Q)
               (Stats.daysRemaining stats) in
  {| Calc.realIncome := realIncome;
     Calc.totalPlannedBudget := totalPlannedBudget;
     Calc.remainder := remainder;
     Calc.foodPoolSpent := foodPoolSpent;
     Calc.monthlyPoolSpent := monthlyPoolSpent;
     Calc.foodPoolRemaining := foodPoolRemaining;
     Calc.monthlyPoolRemaining := monthlyPoolRemaining;
     Calc.effectiveDailyBudget := effectiveDailyBudget |}.

(** Income of the current period, in the words of the widget's comment
    ("real data from current month transactions"): the amounts of the
    included income transactions whose date has the key of the current
    period. *)
Definition currentPeriodIncome (now : Date) (st : TransactionState) : Q :=
  sumAmount
    (filter isIncome
       (filter (fun t => str_eqb (getSalaryMonthKey (latestDate now st))
                                 (getSalaryMonthKey (Tx.date t)))
               (getFilteredTransactions st))).

(** ** [DashboardPage]: the load effect *)

Definition LOAD_ERROR : JSString := js "Ошибка загрузки данных".

Definition loadData (h : Host) (cfg : Config) (net : FetchOutcome)
    (st : TransactionState) : TransactionState :=
  let st := setLoading true st in
  let st :=
    match loadCSVFromPublic h cfg net with
    | Resolved data => setTransactions data st
    | Rejected => setError (Some LOAD_ERROR) st
    end in
  setLoading false st.

(** The effect runs [loadData] only when the list is empty. *)
Definition DashboardPage_effect (h : Host) (cfg : Config) (net : FetchOutcome)
    (st : TransactionState) : TransactionState :=
  if (List.length (transactions st) =? 0)%nat then loadData h cfg net st
  else st.

(** ** Calendar keys ([shared/lib]) *)





(** ** More queries of the store *)

Module Daily.
End Daily.


Definition getCurrentMonthTransactions (st : TransactionState)
  : list Tx.Transaction :=
  let filtered := getFilteredTransactions st in
  match filtered with
  | [] => []
  | first :: others =>
      let latestTx := latestOf first others in
      let currentMonth := getSalaryMonthKey (Tx.date latestTx) in
      sortBy byDateDesc
        (filter (fun tx => isInSalaryMonth (Tx.date tx) currentMonth
                           && isExpense tx)
                filtered)
  end.

(** [StatsPage]: the pool breakdown over all included transactions. *)
Definition StatsPage_dailyTotal (st : TransactionState) : Q :=
  sumAbs (filter (fun t => isExpense t && inPool daily t)
                 (getFilteredTransactions st)).

Definition StatsPage_monthlyTotal (st : TransactionState) : Q :=
  sumAbs (filter (fun t => isExpense t && negb (inPool daily t))
                 (getFilteredTransactions st)).

Definition StatsPage_totalExpenses (st : TransactionState) : Q :=
  (StatsPage_dailyTotal st + StatsPage_monthlyTotal st)%Q.

(** [xs.reduce((sum, x) => sum + f(x), 0)] *)
Definition sumOf {A} (f : A -> Q) (xs : list A) : Q :=
  fold_left (fun sum x => (sum + f x)%Q) xs 0%Q.

(** ** Numbers as the program holds them: binary64

    A number of the program is an IEEE-754 binary64 value, and [+], [/]
    and [Math.abs] are the operations of that format, rounding to
    nearest with ties to even.  They are taken from the Standard
    Library's specification of floating-point arithmetic, at precision
    53 and maximal exponent 1024. *)

Module F64.
Definition number : Type := SpecFloat.spec_float.

Definition prec : Z := 53.

Definition emax : Z := 1024.

Definition zero : number := SpecFloat.S754_zero false.

Definition add (a b : number) : number := SpecFloat.SFadd prec emax a b.

Definition div (a b : number) : number := SpecFloat.SFdiv prec emax a b.

Definition abs (a : number) : number := SpecFloat.SFabs a.

(** [a === b] on numbers. *)
Definition eqb (a b : number) : bool := SpecFloat.SFeqb a b.

(** The number of an integer. *)
Definition ofZ (z : Z) : number :=
  SpecFloat.binary_normalize prec emax z 0 false.

(** The number that a decimal text denotes, [n] being its digits read
    as an integer and [k] the count of digits after the point: the
    quotient of [n] by [10^k], rounded once.  Both operands are held
    exactly when [n] is below 2^53 in size and [k] is at most 22. *)
Definition decimal (n k : Z) : number := div (ofZ n) (ofZ (10 ^ k)).

(** The largest number below a number. *)
Definition pred (a : number) : number := SpecFloat.SFpred prec emax a.
End F64.

Module Tx64.
(** The fields of a [Transaction] that the pool figures read. *)
Record Transaction := {
  type : TxType;
  pool : PoolType;
  amount : F64.number
}.
End Tx64.

(** [txs.reduce((sum, t) => sum + Math.abs(t.amount), 0)] *)
Definition sumAbs64 (txs : list Tx64.Transaction) : F64.number :=
  fold_left (fun sum t => F64.add sum (F64.abs (Tx64.amount t))) txs F64.zero.

Module Monthly64.
(** The expense figures of a [MonthlyData]. *)
Record Figures := {
  totalExpenses : F64.number;
  dailyPoolSpent : F64.number;
  monthlyPoolSpent : F64.number;
  mandatorySpent : F64.number
}.
End Monthly64.

(** The figures that [getMonthlyData] computes from the transactions
    [txs] of one month. *)
Definition monthFigures64 (txs : list Tx64.Transaction) : Monthly64.Figures :=
  let expenses := filter (fun t => TxType_eqb (Tx64.type t) expense) txs in
  {| Monthly64.totalExpenses := sumAbs64 expenses;
     Monthly64.dailyPoolSpent :=
       sumAbs64 (filter (fun t => PoolType_eqb (Tx64.pool t) daily) expenses);
     (* Monthly pool includes all non-daily expenses
        (monthly, mandatory, other) *)
     Monthly64.monthlyPoolSpent :=
       sumAbs64 (filter (fun t => negb (PoolType_eqb (Tx64.pool t) daily))
                        expenses);
     Monthly64.mandatorySpent :=
       sumAbs64 (filter (fun t => PoolType_eqb (Tx64.pool t) mandatory)
                        expenses) |}.

(** ** Invalid Dates

    [new Date(text)] gives an Invalid Date when it cannot read the text,
    and [parseDate] stores it in the transaction.  Every getter of an
    Invalid Date returns [NaN] and every comparison with one is false.
    Below, [None] is an Invalid Date, and the calendar figures of
    [getCurrentMonthStats] are given as functions of the dates of the
    included transactions, which is all they read. *)

Definition JSDate : Type := option Date.


(** [a > b] on two dates. *)
Definition laterThan (a b : JSDate) : bool :=
  match a, b with
  | Some x, Some y => getTime x >? getTime y
  | _, _ => false
  end.

(** [filtered.reduce((latest, tx) => tx.date > latest.date ? tx : latest)],
    on the dates. *)
Definition latestOfDates (first : JSDate) (others : list JSDate) : JSDate :=
  fold_left (fun latest d => if laterThan d latest then d else latest)
            others first.

(** [getSalaryMonthKey]: the year and the month of an Invalid Date are
    [NaN], no comparison holds, and the key is printed from them. *)
Definition getSalaryMonthKey_nan (date : JSDate) : JSString :=
  match date with
  | Some d => getSalaryMonthKey d
  | None => js "NaN-NaN"
  end.

(** [getSalaryMonthDay]: the difference of time values is [NaN] for an
    Invalid Date. *)
Definition getSalaryMonthDay_nan (date : JSDate) : option Z :=
  match date with
  | Some d => getSalaryMonthDay d
  | None => None
  end.

(** The daysRemaining of [getCurrentMonthStats], from the dates of the
    included transactions. *)
Definition daysRemaining_nan (now : Date) (dates : list JSDate) : option Z :=
  let latestDate := match dates with
                    | first :: others => latestOfDates first others
                    | [] => Some now
                    end in
  let currentMonth := getSalaryMonthKey_nan latestDate in
  let currentDay := getSalaryMonthDay_nan latestDate in
  let daysInMonth := getSalaryMonthDays currentMonth in
  match daysInMonth, currentDay with
  | Some n, Some c => Some (n - c + 1)
  | _, _ => None
  end.

(** ** Time zones

    The time value of a date is an instant of universal time: the local
    time value, which [getTime] above computes from the fields, less the
    offset of the time zone at that local time.  [offset] maps a local
    time value to that offset in milliseconds; it is constant in a zone
    whose clocks never change.  The range check of [newDate] stays on
    the local time value. *)

Definition getTime_in (offset : Z -> Z) (d : Date) : Z :=
  getTime d - offset (getTime d).

(** Get current day within salary month (1-30ish). *)
Definition getSalaryMonthDay_in (offset : Z -> Z) (date : Date) : option Z :=
  let salaryMonthKey := getSalaryMonthKey date in
  match getSalaryMonthRange salaryMonthKey with
  | Some (start, _) =>
      let diffTime := getTime_in offset date - getTime_in offset start in
      let diffDays := diffTime / msPerDay in
      Some (diffDays + 1)
  | None => None
  end.

(** Get total days in a salary month. *)
Definition getSalaryMonthDays_in (offset : Z -> Z)
    (salaryMonthKey : JSString) : option Z :=
  match getSalaryMonthRange salaryMonthKey with
  | Some (start, end_) =>
      let diffTime := getTime_in offset end_ - getTime_in offset start in
      Some (diffTime / msPerDay + 1)
  | None => None
  end.

(** ** Helpers used to state further properties *)

(** [a] is at least as recent as [b]. *)
Definition newerFirst (a b : Tx.Transaction) : Prop :=
  getTime (Tx.date b) <= getTime (Tx.date a).

(** The result of the classifier that [parseRow] stores in a
    transaction. *)
Definition classify (h : Host) (cfg : Config) (tx : Tx.Transaction)
  : FilterResult :=
  match Tx.type tx with
  | expense => filterExpense h cfg tx
  | income => filterIncome h cfg tx
  end.

(** The map built by the first loop of [getCategoryData]. *)
Definition categoryMapOf (txs : list Tx.Transaction) : StrMap (Q * Z) :=
  fold_left
    (fun (m : StrMap (Q * Z)) tx =>
       let current := match map_get m (Tx.category tx) with
                      | Some c => c
                      | None => (0%Q, 0%Z)
                      end in
       map_set m (Tx.category tx)
               ((fst current + Qabs (Tx.amount tx))%Q, snd current + 1))
    txs [].

(** The transactions of a list that have category [c]. *)
Definition withCategory (c : JSString) (txs : list Tx.Transaction)
  : list Tx.Transaction :=
  filter (fun t => str_eqb c (Tx.category t)) txs.

(** The amount of [a] is at least that of [b]. *)
Definition largerFirst (a b : Cat.CategoryData) : Prop :=
  (Cat.amount b <= Cat.amount a)%Q.

(** A valid date of a year from 101 on with a whole number of seconds,
    as the date column of a bank export gives. *)
Definition wholeSecond (d : Date) : Prop :=
  Date_valid d /\ 101 <= getFullYear d /\ getMilliseconds d = 0.

(** ** A concrete runtime and sample data

    One instance of [Host], good enough to run the program on the inputs
    used below: lower-casing of Latin and Cyrillic letters, decimal
    literals without exponent, shortest decimal printing of numbers with
    a finite decimal expansion, ISO date-times, code-unit collation. *)

Definition lowerUnit (c : Z) : Z :=
  if (65 <=? c) && (c <=? 90) then c + 32
  else if (1040 <=? c) && (c <=? 1071) then c + 32
  else if (1024 <=? c) && (c <=? 1039) then c + 80
  else c.

Fixpoint takeDigits (s : JSString) : JSString * JSString :=
  match s with
  | c :: s' =>
      if is_digit c then let '(d, r) := takeDigits s' in (c :: d, r)
      else ([], s)
  | [] => ([], [])
  end.

Definition sample_parseFloat (s : JSString) : option Q :=
  let s := trimStart s in
  let '(neg, s) := match s with
                   | c :: s' => if c =? DASH then (true, s')
                                else if c =? 43 then (false, s') else (false, s)
                   | [] => (false, [])
                   end in
  let '(ip, rest) := takeDigits s in
  let fp := match rest with
            | c :: rest' => if c =? DOT then fst (takeDigits rest') else []
            | [] => []
            end in
  match ip ++ fp with
  | [] => None
  | ds =>
      let v := (inject_Z (digits_value ds)
                / inject_Z (10 ^ Z.of_nat (List.length fp)))%Q in
      Some (if neg then (- v)%Q else v)
  end.

Fixpoint fractionDigits (fuel : nat) (r den : Z) : JSString :=
  match fuel with
  | O => []
  | S f => if r =? 0 then []
           else digitChar (r * 10 / den) :: fractionDigits f (r * 10 mod den) den
  end.

Definition sample_numberToString (q : Q) : JSString :=
  let n := Z.abs (Qnum q) in
  let d := Z.pos (Qden q) in
  let sign := if Qnum q <? 0 then [DASH] else [] in
  let frac := fractionDigits 20 (n mod d) d in
  sign ++ toStringRadix 10 (n / d)
       ++ match frac with [] => [] | _ => DOT :: frac end.

Definition numberOr0 (s : JSString) : Z :=
  match Number_of_string s with
  | Some n => n
  | None => 0
  end.

Definition sample_parseDateString (s : JSString) : Date :=
  let dt := split 84 s in
  let ymd := split DASH (nth 0 dt []) in
  let hms := split 58 (nth 1 dt []) in
  let sec := split DOT (nth 2 hms []) in
  mkDate (numberOr0 (nth 0 ymd [])) (numberOr0 (nth 1 ymd []) - 1)
         (numberOr0 (nth 2 ymd []))
         (numberOr0 (nth 0 hms [])) (numberOr0 (nth 1 hms []))
         (numberOr0 (nth 0 sec [])) (numberOr0 (nth 1 sec [])).

Fixpoint compareUnits (a b : JSString) : Z :=
  match a, b with
  | [], [] => 0
  | [], _ :: _ => -1
  | _ :: _, [] => 1
  | x :: a', y :: b' =>
      if x <? y then -1 else if y <? x then 1 else compareUnits a' b'
  end.

Definition sampleHost : Host :=
  {| toLowerCase := map lowerUnit;
     parseFloat := sample_parseFloat;
     numberToString := sample_numberToString;
     parseDateString := sample_parseDateString;
     localeCompare := compareUnits |}.

Definition sampleConfig : Config :=
  {| EXCLUDED_PEOPLE := [js "Иван И."];
     EXCLUDED_DESCRIPTIONS_INCOME := [js "Между своими счетами"];
     EXCLUDED_DESCRIPTIONS_EXPENSE := [js "Sovcombank"; js "Вклад"];
     REFUND_KEYWORDS := [js "возврат"];
     EXPENSE_CATEGORIES := [js "Рестораны"; js "Супермаркеты"];
     DAILY_CATEGORIES := [js "Рестораны"; js "Супермаркеты"; js "Фастфуд"];
     MONTHLY_CATEGORIES := [js "Связь"; js "Транспорт"] |}.

Definition sampleBudget : Budget.BudgetState :=
  {| Budget.income := 100000%Q;
     Budget.mandatory := {| Budget.batman := 0%Q; Budget.claudeCode := 0%Q;
                            Budget.debtPayment := 0%Q |};
     Budget.dailyTarget := 1000%Q;
     Budget.totalDebt := 0%Q;
     Budget.paidDebt := 0%Q;
     Budget.foodPoolBudget := 50000%Q;
     Budget.monthlyPoolBudget := 40000%Q |}.

Definition stateOf (txs : list Tx.Transaction) : TransactionState :=
  {| transactions := txs; isLoading := false; error := None;
     budget := sampleBudget; selectedMonth := None; selectedDay := None |}.

Definition sampleExpense (d : Date) (a : Q) (p : PoolType)
  : Tx.Transaction :=
  {| Tx.id := js "ciuham"; Tx.date := d; Tx.amount := a;
     Tx.category := js "Рестораны"; Tx.description := js "Кафе Пример";
     Tx.cardNumber := js "*1234"; Tx.mcc := js "5812";
     Tx.type := expense; Tx.isFiltered := false; Tx.filterReason := None;
     Tx.pool := p |}.

Definition sampleIncome (d : Date) (a : Q) : Tx.Transaction :=
  {| Tx.id := js "salary"; Tx.date := d; Tx.amount := a;
     Tx.category := js "Зарплата"; Tx.description := js "Зарплата";
     Tx.cardNumber := js "*1234"; Tx.mcc := js "";
     Tx.type := income; Tx.isFiltered := false; Tx.filterReason := None;
     Tx.pool := other |}.

(** A transfer to the bank named in the exception, worded so that the
    configured exclusion list of [sampleConfig] would match it. *)
Definition sampleTransfer : Tx.Transaction :=
  {| Tx.id := js "t1"; Tx.date := mkDate 2025 10 25 10 0 0 0;
     Tx.amount := (-12000)%Q;
     Tx.category := js "Переводы";
     Tx.description := js "Перевод в СОВКОМБАНК Sovcombank";
     Tx.cardNumber := js "*1234"; Tx.mcc := js "";
     Tx.type := expense; Tx.isFiltered := false; Tx.filterReason := None;
     Tx.pool := other |}.

(** 3 November 2026, 09:15:27.123 *)
Definition sampleNow : Date := mkDate 2026 10 3 9 15 27 123.

(** One food expense of 9000 on 13 December 2025, day 21 of the 30-day
    period that starts on 23 November 2025. *)
Definition scenarioState : TransactionState :=
  stateOf [sampleExpense (mkDate 2025 11 13 12 0 0 0) (-9000)%Q daily].

(** 22 November 2025, 23:59:59.500: the last second of a period. *)
Definition lastSecond : Date := mkDate 2025 10 22 23 59 59 500.

Definition HEADER : JSString := js "date;pay;card;status;amount;cur;pay;cur;cb;cat;mcc;desc".

Definition rowWithStatus (status : JSString) : JSString :=
  [QUOTE] ++ js "22.11.2025 14:30:00" ++ [QUOTE; SEMICOLON; QUOTE]
  ++ js "22.11.2025" ++ [QUOTE; SEMICOLON; QUOTE] ++ js "*1234"
  ++ [QUOTE; SEMICOLON; QUOTE] ++ status ++ [QUOTE; SEMICOLON; QUOTE]
  ++ js "-150,50" ++ [QUOTE; SEMICOLON; QUOTE] ++ js "RUB"
  ++ [QUOTE; SEMICOLON; QUOTE] ++ js "-150,50" ++ [QUOTE; SEMICOLON; QUOTE]
  ++ js "RUB" ++ [QUOTE; SEMICOLON; QUOTE; QUOTE; SEMICOLON; QUOTE]
  ++ js "Рестораны" ++ [QUOTE; SEMICOLON; QUOTE] ++ js "5812"
  ++ [QUOTE; SEMICOLON; QUOTE] ++ js "Кафе Пример" ++ [QUOTE].

Definition twoRows : JSString :=
  HEADER ++ [NEWLINE] ++ rowWithStatus (js "OK") ++ [NEWLINE]
         ++ rowWithStatus (js "FAILED") ++ [NEWLINE].





(** Moscow: three hours ahead of universal time, with no clock change. *)
Definition moscowOffset (t : Z) : Z := 3 * 3600000.

(** New York in 2025: five hours behind universal time, four between
    9 March, 3:00 and 2 November, 2:00 local time. *)
Definition newYorkOffset2025 (t : Z) : Z :=
  if (getTime (mkDate 2025 2 9 3 0 0 0) <=? t)
     && (t <? getTime (mkDate 2025 10 2 2 0 0 0))
  then - (4 * 3600000) else - (5 * 3600000).

(** An expense of [n] hundredths (a negative amount) in pool [p]. *)
Definition expense64 (p : PoolType) (n : Z) : Tx64.Transaction :=
  {| Tx64.type := expense; Tx64.pool := p; Tx64.amount := F64.decimal n 2 |}.

(** Three expenses of one month: 827.53 and 337.74 outside the daily
    pool, 739.42 in it. *)
Definition roundingMonth : list Tx64.Transaction :=
  [expense64 monthly (-82753); expense64 daily (-73942);
   expense64 other (-33774)].

(* ================================================================== *)
(** * Part II.  Properties                                             *)
(* ================================================================== *)

(** Linear arithmetic with floor division. *)
Ltac zdiv := Z.div_mod_to_equations; lia.

Example js_transfers :
  js "Переводы" = [1055; 1077; 1088; 1077; 1074; 1086; 1076; 1099].
Proof. reflexivity. Qed.

Example key_22 :
  getSalaryMonthKey (mkDate 2025 10 22 14 30 0 0) = js "2025-10".
Proof. vm_compute. reflexivity. Qed.

Example key_neg :
  getSalaryMonthKey (mkDate (-5) 0 22 14 30 0 0) = js "-6-12".
Proof. vm_compute. reflexivity. Qed.

Example days_2025_10 : getSalaryMonthDays (js "2025-10") = Some 31.
Proof. vm_compute. reflexivity. Qed.

Example days_2024_02 : getSalaryMonthDays (js "2024-02") = Some 29.
Proof. vm_compute. reflexivity. Qed.

Example day_of : getSalaryMonthDay (mkDate 2025 11 13 10 0 0 0) = Some 21.
Proof. vm_compute. reflexivity. Qed.

Example epoch : getTime (mkDate 1970 0 1 0 0 0 0) = 0.
Proof. vm_compute. reflexivity. Qed.

Example y2k : getTime (mkDate 2000 2 1 0 0 0 0) = 951868800000.
Proof. vm_compute. reflexivity. Qed.

(** ** Printing and reading integers *)

Lemma digits_value_fold s : digits_value s = fold_left dec_step s 0.
Proof. reflexivity. Qed.

Lemma digitChar_dec d : 0 <= d < 10 -> digitChar d = 48 + d.
Proof. intros H. unfold digitChar. destruct (Z.ltb_spec d 10); lia. Qed.

Lemma is_digit_digitChar d : 0 <= d < 10 -> is_digit (digitChar d) = true.
Proof.
  intros H. rewrite digitChar_dec by assumption. unfold is_digit.
  apply andb_true_iff. split; apply Z.leb_le; lia.
Qed.

Lemma digits_aux_value f :
  forall n acc, 0 <= n < 2 ^ Z.of_nat f ->
    fold_left dec_step (digits_aux f 10 n acc) 0 = fold_left dec_step acc n.
Proof.
  induction f as [|f IH]; intros n acc Hn.
  - simpl in *. replace n with 0 by lia. reflexivity.
  - cbn [digits_aux].
    assert (Hm : 0 <= n mod 10 < 10) by (apply Z.mod_pos_bound; lia).
    assert (Hd : n = 10 * (n / 10) + n mod 10) by (apply Z.div_mod; lia).
    destruct (Z.eqb_spec (n / 10) 0) as [E|E].
    + cbn [fold_left]. unfold dec_step at 2.
      rewrite digitChar_dec by assumption. f_equal. lia.
    + rewrite IH.
      * cbn [fold_left]. unfold dec_step at 2.
        rewrite digitChar_dec by assumption. f_equal. lia.
      * rewrite Nat2Z.inj_succ, Z.pow_succ_r in Hn by lia.
        assert (0 <= n / 10) by (apply Z.div_pos; lia). lia.
Qed.

Lemma digits_aux_digits f :
  forall n acc, 0 <= n -> forallb is_digit acc = true ->
    forallb is_digit (digits_aux f 10 n acc) = true.
Proof.
  induction f as [|f IH]; intros n acc Hn Ha; [exact Ha|].
  cbn [digits_aux].
  assert (Hm : 0 <= n mod 10 < 10) by (apply Z.mod_pos_bound; lia).
  assert (Hc : forallb is_digit (digitChar (n mod 10) :: acc) = true).
  { cbn [forallb]. rewrite is_digit_digitChar, Ha by assumption. reflexivity. }
  destruct (n / 10 =? 0); [exact Hc|].
  apply IH; [apply Z.div_pos; lia | exact Hc].
Qed.

Lemma digits_aux_nonempty f radix n acc :
  digits_aux (S f) radix n acc <> [].
Proof.
  revert n acc. induction f as [|f IH]; intros n acc.
  - cbn. destruct (n / radix =? 0); discriminate.
  - cbn [digits_aux]. destruct (n / radix =? 0); [discriminate|].
    apply IH.
Qed.

Lemma toString10_digits n :
  0 <= n -> forallb is_digit (toStringRadix 10 n) = true.
Proof. intros H. apply digits_aux_digits; [assumption | reflexivity]. Qed.

Lemma toString10_nonempty n : toStringRadix 10 n <> [].
Proof. apply digits_aux_nonempty. Qed.

Lemma toString10_value n :
  0 <= n -> digits_value (toStringRadix 10 n) = n.
Proof.
  intros H. rewrite digits_value_fold. unfold toStringRadix.
  rewrite digits_aux_value; [reflexivity|].
  split; [assumption|].
  destruct (Z.eq_dec n 0) as [->|Hz]; [cbn; lia|].
  rewrite Nat2Z.inj_succ, Z2Nat.id by apply Z.log2_nonneg.
  apply Z.log2_spec. lia.
Qed.

Lemma is_digit_not_ws c : is_digit c = true -> is_ws c = false.
Proof.
  unfold is_digit, is_ws. intros H. apply andb_true_iff in H.
  destruct H as [H1 H2]. apply Z.leb_le in H1, H2.
  repeat match goal with
         | |- context [?a <=? ?b] => destruct (Z.leb_spec a b); try lia
         | |- context [?a =? ?b] => destruct (Z.eqb_spec a b); try lia
         end; reflexivity.
Qed.

Lemma is_digit_not_dash c : is_digit c = true -> (c =? DASH) = false.
Proof.
  unfold is_digit, DASH. intros H. apply andb_true_iff in H.
  destruct H as [H1 H2]. apply Z.leb_le in H1, H2. apply Z.eqb_neq. lia.
Qed.

Lemma trimStart_digits s :
  forallb is_digit s = true -> trimStart s = s.
Proof.
  destruct s as [|c s]; [reflexivity|]. cbn. intros H.
  apply andb_true_iff in H. destruct H as [H _].
  rewrite (is_digit_not_ws _ H). reflexivity.
Qed.

Lemma forallb_rev {A} (p : A -> bool) l :
  forallb p (rev l) = forallb p l.
Proof.
  induction l as [|a l IH]; [reflexivity|].
  cbn. rewrite forallb_app, IH. cbn. rewrite andb_true_r. apply andb_comm.
Qed.

Lemma trim_digits s : forallb is_digit s = true -> trim s = s.
Proof.
  intros H. unfold trim, trimEnd. rewrite (trimStart_digits s H).
  rewrite trimStart_digits by (rewrite forallb_rev; exact H).
  apply rev_involutive.
Qed.

Lemma Number_of_digits s :
  s <> [] -> forallb is_digit s = true ->
  Number_of_string s = Some (digits_value s).
Proof.
  intros Hne H. unfold Number_of_string. rewrite (trim_digits s H).
  destruct s as [|c r]; [contradiction|]. rewrite H. reflexivity.
Qed.

Lemma Number_of_toString n :
  0 <= n -> Number_of_string (toStringRadix 10 n) = Some n.
Proof.
  intros H. rewrite Number_of_digits.
  - rewrite toString10_value by assumption. reflexivity.
  - apply toString10_nonempty.
  - apply toString10_digits; assumption.
Qed.

Lemma digits_value_zeros k s :
  digits_value (repeat ZERO_CHAR k ++ s) = digits_value s.
Proof.
  rewrite !digits_value_fold, fold_left_app. f_equal.
  induction k as [|k IH]; [reflexivity|]. cbn. exact IH.
Qed.

Lemma Number_of_padded k n :
  0 <= n -> Number_of_string (padStart0 k (toStringRadix 10 n)) = Some n.
Proof.
  intros H. unfold padStart0. rewrite Number_of_digits.
  - rewrite digits_value_zeros, toString10_value by assumption. reflexivity.
  - intros E. apply app_eq_nil in E. destruct E as [_ E].
    exact (toString10_nonempty n E).
  - rewrite forallb_app, toString10_digits by assumption.
    rewrite andb_true_r. induction (k - _)%nat; [reflexivity|exact IHn0].
Qed.

Lemma split_no_sep sep s :
  forallb (fun c => negb (c =? sep)) s = true -> split sep s = [s].
Proof.
  induction s as [|c s IH]; [reflexivity|]. cbn. intros H.
  apply andb_true_iff in H. destruct H as [Hc Hs].
  apply negb_true_iff in Hc. rewrite Hc, (IH Hs). reflexivity.
Qed.

Lemma split_app_sep sep a b :
  forallb (fun c => negb (c =? sep)) a = true ->
  split sep (a ++ sep :: b) = a :: split sep b.
Proof.
  induction a as [|c a IH]; cbn; intros H.
  - rewrite Z.eqb_refl. reflexivity.
  - apply andb_true_iff in H. destruct H as [Hc Hs].
    apply negb_true_iff in Hc. rewrite Hc, (IH Hs). reflexivity.
Qed.

Lemma digits_no_dash s :
  forallb is_digit s = true ->
  forallb (fun c => negb (c =? DASH)) s = true.
Proof.
  induction s as [|c s IH]; [reflexivity|]. cbn. intros H.
  apply andb_true_iff in H. destruct H as [Hc Hs].
  rewrite (is_digit_not_dash _ Hc), (IH Hs). reflexivity.
Qed.

(** Reading back a key whose year is not negative gives its two numbers. *)
Lemma parse_formatKey year month :
  0 <= year -> 0 <= month ->
  map Number_of_string (split DASH (formatKey year month))
  = [Some year; Some month].
Proof.
  intros Hy Hm. unfold formatKey, String_of_int.
  destruct (Z.ltb_spec year 0); [lia|]. destruct (Z.ltb_spec month 0); [lia|].
  cbn [app]. rewrite split_app_sep
    by (apply digits_no_dash, toString10_digits; assumption).
  rewrite split_no_sep.
  - cbn [map]. rewrite Number_of_toString, Number_of_padded by assumption.
    reflexivity.
  - apply digits_no_dash. unfold padStart0. rewrite forallb_app.
    rewrite toString10_digits by assumption. rewrite andb_true_r.
    induction (2 - _)%nat; [reflexivity|assumption].
Qed.


(** ** Day arithmetic *)

Lemma InLeapYear_cases y :
  (InLeapYear y = true /\ (y mod 4 = 0 /\ (y mod 100 <> 0 \/ y mod 400 = 0)))
  \/ (InLeapYear y = false /\ (y mod 4 <> 0 \/ (y mod 100 = 0 /\ y mod 400 <> 0))).
Proof.
  unfold InLeapYear.
  destruct (Z.eqb_spec (y mod 4) 0), (Z.eqb_spec (y mod 100) 0),
    (Z.eqb_spec (y mod 400) 0); cbn; intuition lia.
Qed.

Lemma DayFromYear_succ y :
  DayFromYear (y + 1) = DayFromYear y + (if InLeapYear y then 366 else 365).
Proof.
  unfold DayFromYear.
  destruct (InLeapYear_cases y) as [[-> H]|[-> H]]; zdiv.
Qed.

Lemma DayFromYear_mono y1 y2 :
  y1 <= y2 -> DayFromYear y1 + 365 * (y2 - y1) <= DayFromYear y2.
Proof. intros H. unfold DayFromYear. zdiv. Qed.

Lemma DayFromYear_upper y1 y2 :
  y1 <= y2 -> DayFromYear y2 <= DayFromYear y1 + 366 * (y2 - y1).
Proof. intros H. unfold DayFromYear. zdiv. Qed.

Lemma getTime_split d : getTime d = dayNumber d * msPerDay + timeOfDay d.
Proof. reflexivity. Qed.

Lemma getSalaryMonthKey_periodOf d :
  getSalaryMonthKey d = formatKey (fst (periodOf d)) (snd (periodOf d)).
Proof.
  unfold getSalaryMonthKey, periodOf.
  destruct (getDate d <? SALARY_DAY).
  - replace (getMonth d + 1 - 1) with (getMonth d) by lia.
    destruct (getMonth d <? 1); reflexivity.
  - reflexivity.
Qed.

Lemma Date_valid_fields d :
  Date_valid d ->
  -271821 < getFullYear d < 275760 /\ 0 <= getMonth d <= 11
  /\ 1 <= getDate d <= DaysInMonth (getFullYear d) (getMonth d)
  /\ 0 <= timeOfDay d < msPerDay
  /\ 0 <= getMilliseconds d < 1000
  /\ timeOfDay d - getMilliseconds d <= 86399000.
Proof.
  unfold Date_valid, Date_validb, timeOfDay, MakeTime, msPerDay. intros H.
  repeat (apply andb_true_iff in H; destruct H as [H ?]).
  repeat match goal with
         | H : (_ <? _) = true |- _ => apply Z.ltb_lt in H
         | H : (_ <=? _) = true |- _ => apply Z.leb_le in H
         end.
  lia.
Qed.

Lemma MakeDay_month y m d :
  0 <= m <= 11 ->
  MakeDay y m d = DayFromYear y + DayWithinYear m (InLeapYear y) + d - 1.
Proof.
  intros H. unfold MakeDay.
  replace (m / 12) with 0 by zdiv. replace (m mod 12) with m by zdiv.
  rewrite Z.add_0_r. reflexivity.
Qed.

Lemma DaysInMonth_bounds y m : 28 <= DaysInMonth y m <= 31.
Proof.
  unfold DaysInMonth.
  repeat match goal with
         | |- context [match ?x with _ => _ end] => destruct x
         end; lia.
Qed.

(** The first day of the month after month [m] of year [y]. *)
Lemma MakeDay_next_month y m :
  0 <= m <= 11 ->
  MakeDay (if m =? 11 then y + 1 else y) (if m =? 11 then 0 else m + 1) 1
  = MakeDay y m 1 + DaysInMonth y m.
Proof.
  intros H. destruct (Z.eqb_spec m 11) as [->|Hne].
  - rewrite !MakeDay_month by lia. rewrite DayFromYear_succ.
    cbn [DayWithinYear DaysInMonth]. destruct (InLeapYear y); lia.
  - rewrite !MakeDay_month by lia.
    assert (Hc : m = 0 \/ m = 1 \/ m = 2 \/ m = 3 \/ m = 4 \/ m = 5 \/ m = 6
                 \/ m = 7 \/ m = 8 \/ m = 9 \/ m = 10) by lia.
    repeat (destruct Hc as [->|Hc]); try subst m;
      cbn [DayWithinYear DaysInMonth Z.add Pos.add Pos.succ];
      destruct (InLeapYear y); lia.
Qed.

Lemma DayWithinYear_bounds m l : 0 <= m <= 11 -> 0 <= DayWithinYear m l <= 335.
Proof.
  intros H.
  assert (Hc : m = 0 \/ m = 1 \/ m = 2 \/ m = 3 \/ m = 4 \/ m = 5 \/ m = 6
               \/ m = 7 \/ m = 8 \/ m = 9 \/ m = 10 \/ m = 11) by lia.
  repeat (destruct Hc as [->|Hc]); try subst m; cbn; destruct l; lia.
Qed.

(** Any month index: the day number stays within a year of the
    normalised year. *)
Lemma MakeDay_bounds y m d :
  DayFromYear (y + m / 12) + d - 1 <= MakeDay y m d
  <= DayFromYear (y + m / 12) + d + 334.
Proof.
  unfold MakeDay.
  pose proof (DayWithinYear_bounds (m mod 12) (InLeapYear (y + m / 12))
                ltac:(zdiv)).
  lia.
Qed.

Lemma fullYear_cases y :
  (0 <= y <= 99 /\ fullYear y = 1900 + y)
  \/ ((y < 0 \/ 99 < y) /\ fullYear y = y).
Proof.
  unfold fullYear.
  destruct (Z.leb_spec 0 y), (Z.leb_spec y 99); cbn; lia.
Qed.

(** Day numbers of the years the model supports are inside the range of
    time values. *)
Lemma timeclip_ok y m d tod :
  -271821 < y + m / 12 < 275760 -> 1 <= d <= 31 -> 0 <= tod < msPerDay ->
  Z.abs (MakeDate (MakeDay y m d) tod) <= maxTimeValue.
Proof.
  intros Hy Hd Ht. pose proof (MakeDay_bounds y m d) as Hb.
  assert (H1 : DayFromYear (-271820) <= DayFromYear (y + m / 12)).
  { pose proof (DayFromYear_mono (-271820) (y + m / 12)). lia. }
  assert (H2 : DayFromYear (y + m / 12) <= DayFromYear 275759).
  { pose proof (DayFromYear_mono (y + m / 12) 275759). lia. }
  change (DayFromYear (-271820)) with (-99999744) in H1.
  change (DayFromYear 275759) with 99999379 in H2.
  unfold MakeDate, maxTimeValue, msPerDay in *. lia.
Qed.

Lemma newDate_Some y m d h mi s :
  -271821 < fullYear y + m / 12 < 275760 -> 1 <= d <= 31 ->
  0 <= MakeTime h mi s 0 < msPerDay ->
  newDate y m d h mi s = Some (mkDate (fullYear y) m d h mi s 0).
Proof.
  intros Hy Hd Ht. unfold newDate.
  replace (Z.abs _ <=? maxTimeValue) with true; [reflexivity|].
  symmetry. apply Z.leb_le. apply timeclip_ok; assumption.
Qed.

(** The 22nd of January 275760 is still inside the range. *)
Lemma newDate_last_january :
  newDate 275760 0 22 23 59 59 = Some (mkDate 275760 0 22 23 59 59 0).
Proof. vm_compute. reflexivity. Qed.

Lemma range_of_numbers key year month rest :
  map Number_of_string (split DASH key) = Some year :: Some month :: rest ->
  getSalaryMonthRange key =
    match newDate year (month - 1) SALARY_DAY 0 0 0 with
    | Some start =>
        match newDate (fst (endOf year month)) (snd (endOf year month))
                      22 23 59 59 with
        | Some end_ => Some (start, end_)
        | None => None
        end
    | None => None
    end.
Proof.
  intros H. unfold getSalaryMonthRange, endOf. rewrite H.
  destruct (newDate year (month - 1) SALARY_DAY 0 0 0); [|reflexivity].
  destruct (month + 1 >? 12); cbn [fst snd];
    [reflexivity | replace (month + 1 - 1) with month by lia; reflexivity].
Qed.

Lemma periodOf_bounds d :
  Date_valid d ->
  1 <= snd (periodOf d) <= 12
  /\ -271821 <= fst (periodOf d) <= 275759
  /\ 0 <= snd (endOf (fst (periodOf d)) (snd (periodOf d))) <= 11.
Proof.
  intros Hv. destruct (Date_valid_fields d Hv) as (Hy & Hm & Hd & _).
  unfold periodOf, endOf, SALARY_DAY.
  destruct (Z.ltb_spec (getDate d) 23); [destruct (Z.ltb_spec (getMonth d) 1)|];
    cbn [fst snd];
    match goal with |- context [?a >? ?b] => destruct (Z.gtb_spec a b) end;
    cbn [fst snd]; lia.
Qed.

(** Without the two-digit-year rule, the period of a date ends on or after
    the date's own day, begins on or before it, and is as long as the
    month it begins in. *)
Lemma period_day_numbers d :
  Date_valid d ->
  let ky := fst (periodOf d) in
  let km := snd (periodOf d) in
  let ds := MakeDay ky (km - 1) 23 in
  let de := MakeDay (fst (endOf ky km)) (snd (endOf ky km)) 22 in
  ds <= dayNumber d <= de /\ de - ds + 1 = DaysInMonth ky (km - 1).
Proof.
  intros Hv. destruct (Date_valid_fields d Hv) as (Hy & Hm & Hd & _).
  pose proof (DaysInMonth_bounds (getFullYear d) (getMonth d)) as Hb.
  unfold periodOf, endOf, dayNumber, SALARY_DAY.
  destruct (Z.ltb_spec (getDate d) 23) as [Hlt|Hge].
  - destruct (Z.ltb_spec (getMonth d) 1) as [H0|H1]; cbn [fst snd].
    + assert (E : getMonth d = 0) by lia. rewrite E in *.
      cbn [Z.gtb Z.compare Z.add Pos.add Pos.succ Pos.compare Pos.compare_cont
           fst snd].
      pose proof (MakeDay_next_month (getFullYear d - 1) 11 ltac:(lia)) as Hn.
      cbn [Z.eqb Pos.eqb] in Hn.
      replace (getFullYear d - 1 + 1) with (getFullYear d) in * by lia.
      change (12 - 1) with 11. cbn [DaysInMonth] in *.
      rewrite !MakeDay_month in * by lia. lia.
    + destruct (Z.gtb_spec (getMonth d + 1) 12); [lia|]. cbn [fst snd].
      pose proof (MakeDay_next_month (getFullYear d) (getMonth d - 1)
                    ltac:(lia)) as Hn.
      destruct (Z.eqb_spec (getMonth d - 1) 11); [lia|].
      replace (getMonth d - 1 + 1) with (getMonth d) in Hn by lia.
      pose proof (DaysInMonth_bounds (getFullYear d) (getMonth d - 1)).
      rewrite !MakeDay_month in * by lia. lia.
  - cbn [fst snd].
    replace (getMonth d + 1 - 1) with (getMonth d) by lia.
    pose proof (MakeDay_next_month (getFullYear d) (getMonth d) Hm) as Hn.
    destruct (Z.gtb_spec (getMonth d + 1 + 1) 12) as [Hg|Hg]; cbn [fst snd].
    + assert (E : getMonth d = 11) by lia. rewrite E in *.
      cbn [Z.eqb Pos.eqb] in Hn.
      rewrite !MakeDay_month in * by lia. lia.
    + destruct (Z.eqb_spec (getMonth d) 11); [lia|].
      rewrite !MakeDay_month in * by lia. lia.
Qed.


(** The range of a key with a non-negative year. *)
Lemma range_of_formatKey ky km :
  0 <= ky <= 275759 -> 1 <= km <= 12 ->
  getSalaryMonthRange (formatKey ky km)
  = Some (mkDate (fullYear ky) (km - 1) 23 0 0 0 0,
          mkDate (fullYear (fst (endOf ky km))) (snd (endOf ky km))
                 22 23 59 59 0).
Proof.
  intros Hy Hm.
  rewrite (range_of_numbers _ ky km []) by (apply parse_formatKey; lia).
  unfold SALARY_DAY.
  assert (Hf : ky <= fullYear ky <= 275759)
    by (destruct (fullYear_cases ky) as [[? ->]|[? ->]]; lia).
  rewrite newDate_Some;
    [| replace ((km - 1) / 12) with 0 by zdiv; lia | lia
     | unfold MakeTime, msPerDay; lia ].
  unfold endOf. destruct (Z.gtb_spec (km + 1) 12) as [Hg|Hg]; cbn [fst snd].
  - destruct (Z.eq_dec ky 275759) as [->|Hne].
    + change (275759 + 1) with 275760.
      rewrite newDate_last_january. reflexivity.
    + assert (Hf' : fullYear (ky + 1) <= 275759)
        by (destruct (fullYear_cases (ky + 1)) as [[? ->]|[? ->]]; lia).
      assert (ky + 1 <= fullYear (ky + 1))
        by (destruct (fullYear_cases (ky + 1)) as [[? ->]|[? ->]]; lia).
      rewrite newDate_Some;
        [reflexivity | cbn; lia | lia | unfold MakeTime, msPerDay; lia].
  - rewrite newDate_Some;
      [reflexivity | replace (km / 12) with 0 by zdiv; lia | lia
       | unfold MakeTime, msPerDay; lia].
Qed.



(** ** Day index and length of a period *)

Lemma days_of_range key s e :
  getSalaryMonthRange key = Some (s, e) ->
  timeOfDay s = 0 -> timeOfDay e = 86399000 ->
  getSalaryMonthDays key = Some (dayNumber e - dayNumber s + 1).
Proof.
  intros Hr Hs He. unfold getSalaryMonthDays. rewrite Hr.
  rewrite !getTime_split, Hs, He. f_equal. unfold msPerDay. zdiv.
Qed.

Lemma day_of_range d s e :
  getSalaryMonthRange (getSalaryMonthKey d) = Some (s, e) ->
  timeOfDay s = 0 -> 0 <= timeOfDay d < msPerDay ->
  getSalaryMonthDay d = Some (dayNumber d - dayNumber s + 1).
Proof.
  intros Hr Hs Hd. unfold getSalaryMonthDay. rewrite Hr.
  rewrite !getTime_split, Hs. f_equal. unfold msPerDay in *. zdiv.
Qed.


(** For years from 100 on (where the two-digit-year rule of the [Date]
    constructor is not in play) the day index starts at 1 and the period
    is as long as the month it starts in. *)
Lemma day_index_bounds d :
  Date_valid d -> 100 <= fst (periodOf d) ->
  getSalaryMonthDays (getSalaryMonthKey d)
  = Some (DaysInMonth (fst (periodOf d)) (snd (periodOf d) - 1))
  /\ exists c,
       getSalaryMonthDay d = Some c
       /\ 1 <= c <= DaysInMonth (fst (periodOf d)) (snd (periodOf d) - 1).
Proof.
  intros Hv Hy.
  destruct (Date_valid_fields d Hv) as (_ & _ & _ & Ht & _).
  destruct (periodOf_bounds d Hv) as (Hkm & Hky & Hem).
  destruct (period_day_numbers d Hv) as [[Hds Hde] Hlen].
  pose proof (range_of_formatKey (fst (periodOf d)) (snd (periodOf d))
                ltac:(lia) Hkm) as Hr.
  rewrite <- getSalaryMonthKey_periodOf in Hr.
  assert (Hf1 : fullYear (fst (periodOf d)) = fst (periodOf d))
    by (destruct (fullYear_cases (fst (periodOf d))) as [[? ?]|[? ?]]; lia).
  assert (Hf2 : fullYear (fst (endOf (fst (periodOf d)) (snd (periodOf d))))
                = fst (endOf (fst (periodOf d)) (snd (periodOf d)))).
  { destruct (fullYear_cases
                (fst (endOf (fst (periodOf d)) (snd (periodOf d)))))
      as [[Hq ?]|[? ?]]; [|assumption].
    revert Hq. unfold endOf.
    destruct (snd (periodOf d) + 1 >? 12); cbn [fst]; lia. }
  rewrite Hf1, Hf2 in Hr.
  rewrite (days_of_range _ _ _ Hr eq_refl eq_refl).
  rewrite (day_of_range d _ _ Hr eq_refl Ht).
  unfold dayNumber at 1 2 4. cbn [getFullYear getMonth getDate].
  split; [f_equal; lia|]. eexists; split; [reflexivity|lia].
Qed.

(** A date with a whole number of seconds lies inside the range of its
    own period (years from 100 on). *)
Lemma isInSalaryMonth_whole_seconds d :
  Date_valid d -> 100 <= fst (periodOf d) -> getMilliseconds d = 0 ->
  isInSalaryMonth d (getSalaryMonthKey d) = true.
Proof.
  intros Hv Hy Hms.
  destruct (Date_valid_fields d Hv) as (_ & _ & _ & Ht & _ & Hsec).
  destruct (periodOf_bounds d Hv) as (Hkm & Hky & Hem).
  destruct (period_day_numbers d Hv) as [[Hds Hde] Hlen].
  pose proof (range_of_formatKey (fst (periodOf d)) (snd (periodOf d))
                ltac:(lia) Hkm) as Hr.
  rewrite <- getSalaryMonthKey_periodOf in Hr.
  assert (Hf1 : fullYear (fst (periodOf d)) = fst (periodOf d))
    by (destruct (fullYear_cases (fst (periodOf d))) as [[? ?]|[? ?]]; lia).
  assert (Hf2 : fullYear (fst (endOf (fst (periodOf d)) (snd (periodOf d))))
                = fst (endOf (fst (periodOf d)) (snd (periodOf d)))).
  { destruct (fullYear_cases
                (fst (endOf (fst (periodOf d)) (snd (periodOf d)))))
      as [[Hq ?]|[? ?]]; [|assumption].
    revert Hq. unfold endOf.
    destruct (snd (periodOf d) + 1 >? 12); cbn [fst]; lia. }
  rewrite Hf1, Hf2 in Hr.
  unfold isInSalaryMonth. rewrite Hr.
  rewrite !getTime_split.
  change (timeOfDay (mkDate _ _ 23 0 0 0 0)) with 0.
  change (timeOfDay (mkDate _ _ 22 23 59 59 0)) with 86399000.
  unfold dayNumber at 1 4. cbn [getFullYear getMonth getDate].
  apply andb_true_iff. unfold msPerDay in *.
  split; apply Z.leb_le; lia.
Qed.

(** ** The current period *)

Lemma latestOf_In first others :
  In (latestOf first others) (first :: others).
Proof.
  unfold latestOf. revert first.
  induction others as [|tx others IH]; intros first; [left; reflexivity|].
  cbn [fold_left].
  destruct (getTime (Tx.date tx) >? getTime (Tx.date first)).
  - right. apply IH.
  - destruct (IH first) as [E|HIn]; [left; exact E | right; right; exact HIn].
Qed.




(** ** The calendar and the projection *)





Lemma latestOfDates_valid first others :
  latestOfDates (Some (Tx.date first))
                (map (fun t => Some (Tx.date t)) others)
  = Some (Tx.date (latestOf first others)).
Proof.
  unfold latestOfDates, latestOf. revert first.
  induction others as [|tx others IH]; intros first; [reflexivity|].
  cbn [map fold_left laterThan].
  destruct (getTime (Tx.date tx) >? getTime (Tx.date first)); apply IH.
Qed.

(** On dates that are all valid the figure computed from the dates is the
    daysRemaining of [getCurrentMonthStats]. *)
Lemma daysRemaining_nan_valid now st :
  daysRemaining_nan now
    (map (fun t => Some (Tx.date t)) (getFilteredTransactions st))
  = Stats.daysRemaining (getCurrentMonthStats now st).
Proof.
  unfold daysRemaining_nan, getCurrentMonthStats, latestDate.
  cbn [Stats.daysRemaining].
  destruct (getFilteredTransactions st) as [|first others];
    [reflexivity|].
  cbn [map]. rewrite latestOfDates_valid. reflexivity.
Qed.


(** C3 (evaluation at the failing input). The date 22 November 2025,
    23:59:59.500 is valid and its own period key is 2025-10, yet
    [isInSalaryMonth] rejects it for that key; a transaction at that
    instant is counted by [getMonthlyData] for its period and left out by
    [getCurrentMonthStats]. *)
Theorem last_second_outside_own_period :
  Date_valid lastSecond
  /\ getSalaryMonthKey lastSecond = js "2025-10"
  /\ isInSalaryMonth lastSecond (getSalaryMonthKey lastSecond) = false
  /\ map (fun m => (Monthly.month m, Monthly.dailyPoolSpent m))
         (getMonthlyData sampleHost
            (stateOf [sampleExpense lastSecond (-500)%Q daily]))
     = [(js "2025-10", 500%Q)]
  /\ Stats.dailyPoolSpent
       (getCurrentMonthStats sampleNow
          (stateOf [sampleExpense lastSecond (-500)%Q daily]))
     = 0%Q.
Proof. vm_compute. repeat split; reflexivity. Qed.

(** C4. A date before the 23rd belongs to the period that started in the
    previous month (December of the previous year for a date in
    January), a date from the 23rd on to the period starting in its own
    month; 22 November 2025 has key 2025-10 and 23 November 2025 has key
    2025-11. *)
Theorem getSalaryMonthKey_boundary :
  (forall d,
     getSalaryMonthKey d =
       if getDate d <? 23 then
         if getMonth d <=? 0 then formatKey (getFullYear d - 1) 12
         else formatKey (getFullYear d) (getMonth d)
       else formatKey (getFullYear d) (getMonth d + 1))
  /\ getSalaryMonthKey (mkDate 2025 10 22 0 0 0 0) = js "2025-10"
  /\ getSalaryMonthKey (mkDate 2025 10 23 0 0 0 0) = js "2025-11"
  /\ getSalaryMonthKey (mkDate 2026 0 22 23 59 59 999) = js "2025-12".
Proof.
  split; [|vm_compute; repeat split; reflexivity].
  intros d. unfold getSalaryMonthKey, formatKey, SALARY_DAY.
  destruct (getDate d <? 23); [|reflexivity].
  replace (getMonth d + 1 - 1) with (getMonth d) by lia.
  destruct (Z.ltb_spec (getMonth d) 1), (Z.leb_spec (getMonth d) 0);
    try reflexivity; lia.
Qed.

(** ** Sums and sorting *)

Lemma sumAbs_from (l : list Tx.Transaction) (a : Q) :
  (fold_left (fun sum t => sum + Qabs (Tx.amount t)) l a == a + sumAbs l)%Q.
Proof.
  unfold sumAbs. revert a.
  induction l as [|t l IH]; intros a; cbn [fold_left].
  - ring.
  - rewrite IH, (IH (0 + Qabs (Tx.amount t))%Q). ring.
Qed.

Lemma sumAbs_cons t l : (sumAbs (t :: l) == Qabs (Tx.amount t) + sumAbs l)%Q.
Proof.
  unfold sumAbs at 1. cbn [fold_left]. rewrite sumAbs_from. ring.
Qed.

(** A predicate and its negation split a sum. *)
Lemma sumAbs_partition (p : Tx.Transaction -> bool) l :
  (sumAbs (filter p l) + sumAbs (filter (fun t => negb (p t)) l)
   == sumAbs l)%Q.
Proof.
  induction l as [|t l IH]; [reflexivity|].
  cbn [filter]. destruct (p t); cbn [negb];
    rewrite !sumAbs_cons, <- IH; ring.
Qed.

(** What is not in the daily pool is in the monthly, the mandatory or the
    other pool. *)
Lemma sumAbs_not_daily l :
  (sumAbs (filter (fun t => negb (inPool daily t)) l)
   == sumAbs (filter (inPool monthly) l)
      + sumAbs (filter (inPool mandatory) l)
      + sumAbs (filter (inPool other) l))%Q.
Proof.
  induction l as [|t l IH]; [reflexivity|].
  unfold inPool in *. cbn [filter].
  destruct (Tx.pool t); cbn [PoolType_eqb negb];
    rewrite ?sumAbs_cons, IH; ring.
Qed.

Section SortFacts.
Context {A : Type} (before : A -> A -> bool).

Lemma insert_sorted_perm x l :
  Permutation (insert_sorted before x l) (x :: l).
Proof.
  induction l as [|y l IH]; cbn; [reflexivity|].
  destruct (before x y); [reflexivity|].
  rewrite IH. apply perm_swap.
Qed.

Lemma sortBy_perm l : Permutation (sortBy before l) l.
Proof.
  induction l as [|x l IH]; cbn; [reflexivity|].
  rewrite insert_sorted_perm. apply perm_skip, IH.
Qed.

Lemma sortBy_In x l : In x (sortBy before l) <-> In x l.
Proof.
  split; apply Permutation_in;
    [apply sortBy_perm | apply Permutation_sym, sortBy_perm].
Qed.

Lemma sortBy_Forall (P : A -> Prop) l :
  Forall P l -> Forall P (sortBy before l).
Proof.
  intros H. apply Forall_forall. intros x Hx.
  rewrite Forall_forall in H. apply H, sortBy_In, Hx.
Qed.

Lemma sortBy_length l : List.length (sortBy before l) = List.length l.
Proof. apply Permutation_length, sortBy_perm. Qed.
End SortFacts.

(** ** Maps in insertion order *)

Lemma str_eqb_eq a b : str_eqb a b = true <-> a = b.
Proof.
  revert b. induction a as [|x a IH]; intros [|y b]; cbn;
    try (split; [discriminate|discriminate]); [split; reflexivity|].
  rewrite andb_true_iff, Z.eqb_eq, IH.
  split; [intros [-> ->]; reflexivity | intros E; inversion E; auto].
Qed.

Lemma str_eqb_refl a : str_eqb a a = true.
Proof. apply str_eqb_eq. reflexivity. Qed.

Lemma str_eqb_spec a b : reflect (a = b) (str_eqb a b).
Proof. apply iff_reflect. symmetry. apply str_eqb_eq. Qed.

Section MapFacts.
Context {V : Type}.
Implicit Types (m : StrMap V) (k : JSString) (v : V).

Lemma map_get_set m k k' v :
  map_get (map_set m k' v) k
  = if str_eqb k k' then Some v else map_get m k.
Proof.
  induction m as [|[k0 v0] m IH]; cbn.
  - destruct (str_eqb k k'); reflexivity.
  - destruct (str_eqb_spec k' k0) as [->|Hne]; cbn.
    + destruct (str_eqb k k0); reflexivity.
    + rewrite IH. destruct (str_eqb_spec k k0) as [->|Hne'];
        [|reflexivity].
      destruct (str_eqb_spec k0 k'); [congruence|reflexivity].
Qed.

Lemma map_get_In m k v : map_get m k = Some v -> In (k, v) m.
Proof.
  induction m as [|[k0 v0] m IH]; cbn; [discriminate|].
  destruct (str_eqb_spec k k0) as [->|Hne].
  - intros E. inversion E. left. reflexivity.
  - intros E. right. apply IH, E.
Qed.

Lemma map_get_None m k : map_get m k = None -> ~ In k (map fst m).
Proof.
  induction m as [|[k0 v0] m IH]; cbn; [tauto|].
  destruct (str_eqb_spec k k0) as [->|Hne]; [discriminate|].
  intros E [H|H]; [congruence | exact (IH E H)].
Qed.

Lemma map_set_keys m k v :
  map fst (map_set m k v)
  = match map_get m k with
    | Some _ => map fst m
    | None => map fst m ++ [k]
    end.
Proof.
  induction m as [|[k0 v0] m IH]; cbn; [reflexivity|].
  destruct (str_eqb_spec k k0) as [->|Hne]; cbn; [reflexivity|].
  rewrite IH. destruct (map_get m k); reflexivity.
Qed.

Lemma map_set_NoDup m k v :
  NoDup (map fst m) -> NoDup (map fst (map_set m k v)).
Proof.
  intros H. rewrite map_set_keys.
  destruct (map_get m k) eqn:E; [exact H|].
  apply NoDup_app; [exact H | repeat constructor; cbn; tauto |].
  intros x Hx [<-|[]]. exact (map_get_None m k E Hx).
Qed.

Lemma In_map_get m k v :
  NoDup (map fst m) -> In (k, v) m -> map_get m k = Some v.
Proof.
  induction m as [|[k0 v0] m IH]; cbn; [tauto|].
  intros Hnd [E|HIn].
  - inversion E. rewrite str_eqb_refl. reflexivity.
  - inversion Hnd as [|? ? Hnotin Hnd']. subst.
    destruct (str_eqb_spec k k0) as [->|Hne].
    + exfalso. apply Hnotin. apply in_map_iff. exists (k0, v). auto.
    + apply IH; assumption.
Qed.
End MapFacts.

Lemma groupBy_snoc key l t :
  groupBy key (l ++ [t]) = map_push (groupBy key l) (key t) t.
Proof. unfold groupBy. rewrite fold_left_app. reflexivity. Qed.

Lemma groupBy_NoDup key l : NoDup (map fst (groupBy key l)).
Proof.
  induction l as [|t l IH] using rev_ind; [constructor|].
  rewrite groupBy_snoc. unfold map_push.
  destruct (map_get (groupBy key l) (key t)); apply map_set_NoDup, IH.
Qed.

(** The bucket of a key holds the transactions with that key, in their
    order; a key with no transaction has no bucket. *)
Lemma groupBy_get key l k :
  map_get (groupBy key l) k
  = match filter (fun t => str_eqb k (key t)) l with
    | [] => None
    | txs => Some txs
    end.
Proof.
  induction l as [|t l IH] using rev_ind; [reflexivity|].
  rewrite groupBy_snoc, filter_app. cbn [filter]. unfold map_push.
  destruct (map_get (groupBy key l) (key t)) as [old|] eqn:E;
    rewrite map_get_set; destruct (str_eqb_spec k (key t)) as [->|Hne].
  - rewrite IH in E.
    destruct (filter _ l) as [|x xs]; [discriminate|]. inversion E.
    reflexivity.
  - rewrite IH, app_nil_r. reflexivity.
  - rewrite IH in E.
    destruct (filter _ l) as [|x xs]; [reflexivity|discriminate].
  - rewrite IH, app_nil_r. reflexivity.
Qed.

(** ** The pools of a month *)

(** The entries of a grouping: each bucket is the sublist of the
    transactions with its key, and is not empty. *)
Lemma groupBy_In key l k txs :
  In (k, txs) (groupBy key l) ->
  txs = filter (fun t => str_eqb k (key t)) l /\ txs <> [].
Proof.
  intros HIn.
  pose proof (In_map_get _ _ _ (groupBy_NoDup key l) HIn) as Hget.
  rewrite groupBy_get in Hget.
  destruct (filter (fun t => str_eqb k (key t)) l) as [|x xs];
    [discriminate|].
  inversion Hget. split; [reflexivity|discriminate].
Qed.

Lemma groupBy_keys key l k :
  In k (map fst (groupBy key l)) <-> In k (map key l).
Proof.
  split.
  - intros HIn. apply in_map_iff in HIn. destruct HIn as [[k' txs] [E HIn]].
    cbn in E. subst k'. destruct (groupBy_In _ _ _ _ HIn) as [Htxs Hne].
    destruct txs as [|t txs']; [congruence|].
    assert (Ht : In t (filter (fun t => str_eqb k (key t)) l))
      by (rewrite <- Htxs; left; reflexivity).
    apply filter_In in Ht. destruct Ht as [Ht Hk].
    apply str_eqb_eq in Hk. rewrite Hk. apply in_map, Ht.
  - intros HIn. apply in_map_iff in HIn. destruct HIn as [t [E Ht]].
    pose proof (groupBy_get key l k) as Hget.
    destruct (filter (fun t => str_eqb k (key t)) l) as [|x xs] eqn:Ef.
    + exfalso.
      assert (Hin : In t (filter (fun t => str_eqb k (key t)) l)).
      { apply filter_In. split; [exact Ht|]. apply str_eqb_eq.
        symmetry. exact E. }
      rewrite Ef in Hin. exact Hin.
    + apply map_get_In in Hget. apply in_map_iff.
      exists (k, x :: xs). split; [reflexivity|exact Hget].
Qed.

(** The months of [getMonthlyData] are the salary-month keys of the
    included transactions. *)
Lemma getMonthlyData_months h st k :
  In k (map Monthly.month (getMonthlyData h st))
  <-> In k (map (fun tx => getSalaryMonthKey (Tx.date tx))
                (getFilteredTransactions st)).
Proof.
  rewrite <- (groupBy_keys (fun tx => getSalaryMonthKey (Tx.date tx))
                           (getFilteredTransactions st) k).
  unfold getMonthlyData. split; intros H.
  - apply in_map_iff in H. destruct H as [m [E Hm]].
    apply sortBy_In, in_map_iff in Hm.
    destruct Hm as [[month txs] [<- HIn]]. cbn [Monthly.month] in E.
    subst month. apply in_map_iff. exists (k, txs).
    split; [reflexivity|exact HIn].
  - apply in_map_iff in H. destruct H as [[month txs] [E HIn]].
    cbn [fst] in E. subst month. apply in_map_iff.
    eexists. split; [|apply sortBy_In, in_map_iff; exists (k, txs);
                      split; [reflexivity|exact HIn]].
    reflexivity.
Qed.

Lemma filter_split_perm {A} (p : A -> bool) (l : list A) :
  Permutation l (filter p l ++ filter (fun t => negb (p t)) l).
Proof.
  induction l as [|x l IH]; [constructor|].
  cbn [filter]. destruct (p x); cbn [negb app].
  - constructor. exact IH.
  - apply Permutation_cons_app. exact IH.
Qed.

Lemma filter_andb {A} (p q : A -> bool) l :
  filter (fun x => p x && q x) l = filter q (filter p l).
Proof.
  induction l as [|x l IH]; [reflexivity|]. cbn [filter].
  destruct (p x); cbn [andb filter]; [destruct (q x)|]; rewrite IH;
    reflexivity.
Qed.

(** C2 (amended). [getMonthlyData] has an entry for the salary month of
    every included transaction, and for every entry the three figures
    are sums, in the order of the store, over the included expenses
    whose salary-month key is the entry's month: all of them for
    totalExpenses, those of the daily pool for dailyPoolSpent, and those
    of every other pool (monthly, mandatory and other together) for
    monthlyPoolSpent.  The two pools split the expenses into
    complementary sublists, so that in exact arithmetic dailyPoolSpent +
    monthlyPoolSpent is totalExpenses. *)
Theorem monthly_pools_partition_expenses h st :
  (forall t,
     In t (transactions st) -> Tx.isFiltered t = false ->
     In (getSalaryMonthKey (Tx.date t))
        (map Monthly.month (getMonthlyData h st)))
  /\
  Forall
    (fun m =>
       let expenses :=
         filter (fun t =>
                   negb (Tx.isFiltered t)
                   && str_eqb (Monthly.month m)
                              (getSalaryMonthKey (Tx.date t))
                   && match Tx.type t with
                      | expense => true
                      | income => false
                      end)
                (transactions st) in
       let inDaily := fun t => match Tx.pool t with
                               | daily => true
                               | _ => false
                               end in
       let dailyPart := filter inDaily expenses in
       let otherPart := filter (fun t => negb (inDaily t)) expenses in
       Monthly.totalExpenses m = sumAbs expenses
       /\ Monthly.dailyPoolSpent m = sumAbs dailyPart
       /\ Monthly.monthlyPoolSpent m = sumAbs otherPart
       /\ Permutation expenses (dailyPart ++ otherPart)
       /\ Forall (fun t => Tx.pool t = daily) dailyPart
       /\ Forall (fun t => Tx.pool t = monthly \/ Tx.pool t = mandatory
                           \/ Tx.pool t = other) otherPart
       /\ (Monthly.monthlyPoolSpent m
           == sumAbs (filter (fun t => PoolType_eqb (Tx.pool t) monthly)
                             expenses)
              + sumAbs (filter (fun t => PoolType_eqb (Tx.pool t) mandatory)
                               expenses)
              + sumAbs (filter (fun t => PoolType_eqb (Tx.pool t) other)
                               expenses))%Q
       /\ (Monthly.dailyPoolSpent m + Monthly.monthlyPoolSpent m
           == Monthly.totalExpenses m)%Q)
    (getMonthlyData h st).
Proof.
  split.
  { intros t Ht Hf. apply getMonthlyData_months.
    apply (in_map (fun tx => getSalaryMonthKey (Tx.date tx))).
    unfold getFilteredTransactions. apply filter_In.
    split; [exact Ht|]. rewrite Hf. reflexivity. }
  unfold getMonthlyData. apply sortBy_Forall.
  apply Forall_forall. intros m Hm. apply in_map_iff in Hm.
  destruct Hm as [[month txs] [<- HIn]].
  destruct (groupBy_In _ _ _ _ HIn) as [Htxs _].
  cbn [Monthly.dailyPoolSpent Monthly.monthlyPoolSpent
       Monthly.totalExpenses Monthly.mandatorySpent Monthly.month].
  cbv zeta.
  assert (Hexp :
    filter (fun t =>
              negb (Tx.isFiltered t)
              && str_eqb month (getSalaryMonthKey (Tx.date t))
              && match Tx.type t with
                 | expense => true
                 | income => false
                 end)
           (transactions st)
    = filter isExpense txs).
  { rewrite (filter_andb
               (fun t => negb (Tx.isFiltered t)
                         && str_eqb month (getSalaryMonthKey (Tx.date t)))
               (fun t => match Tx.type t with
                         | expense => true
                         | income => false
                         end)).
    rewrite (filter_andb
               (fun t => negb (Tx.isFiltered t))
               (fun t => str_eqb month (getSalaryMonthKey (Tx.date t)))).
    rewrite Htxs. unfold getFilteredTransactions. apply filter_ext.
    intros t. unfold isExpense. destruct (Tx.type t); reflexivity. }
  rewrite Hexp.
  split; [reflexivity|]. split; [reflexivity|]. split; [reflexivity|].
  split; [apply filter_split_perm|].
  split.
  { apply Forall_forall. intros t Ht. apply filter_In in Ht.
    destruct Ht as [_ Hp].
    destruct (Tx.pool t); cbn in Hp; try discriminate; reflexivity. }
  split.
  { apply Forall_forall. intros t Ht. apply filter_In in Ht.
    destruct Ht as [_ Hp].
    destruct (Tx.pool t); cbn in Hp; try discriminate; auto. }
  split.
  - exact (sumAbs_not_daily (filter isExpense txs)).
  - exact (sumAbs_partition (inPool daily) (filter isExpense txs)).
Qed.

(** The amounts of [roundingMonth] and the two results, by significand
    and exponent: 827.53, 739.42, 337.74, 1904.69 and the number below
    it, 1904.6899999999998. *)
Example binary64_amounts :
  F64.decimal 82753 2 = SpecFloat.S754_finite false 7279030858667786 (-43)
  /\ F64.decimal 73942 2
     = SpecFloat.S754_finite false 6504007102481039 (-43)
  /\ F64.decimal 33774 2
     = SpecFloat.S754_finite false 5941584914641060 (-44)
  /\ F64.decimal 190469 2
     = SpecFloat.S754_finite false 8376915209234678 (-42)
  /\ F64.pred (F64.decimal 190469 2)
     = SpecFloat.S754_finite false 8376915209234677 (-42).
Proof. vm_compute. repeat split. Qed.

(** C2 (evaluation in binary64). Over the numbers of the program the two
    pools need not add up to the total: for expenses of 827.53 and
    337.74 outside the daily pool and 739.42 in it, dailyPoolSpent is
    739.42, monthlyPoolSpent is 1165.27 and their sum is 1904.69, while
    totalExpenses is the number just below it, 1904.6899999999998. *)
Theorem pools_do_not_add_up_in_binary64 :
  let m := monthFigures64 roundingMonth in
  Monthly64.dailyPoolSpent m = F64.decimal 73942 2
  /\ Monthly64.monthlyPoolSpent m = F64.decimal 116527 2
  /\ F64.add (Monthly64.dailyPoolSpent m) (Monthly64.monthlyPoolSpent m)
     = F64.decimal 190469 2
  /\ Monthly64.totalExpenses m = F64.pred (F64.decimal 190469 2)
  /\ F64.eqb (F64.add (Monthly64.dailyPoolSpent m)
                      (Monthly64.monthlyPoolSpent m))
             (Monthly64.totalExpenses m) = false
  /\ ~ (forall txs,
          F64.add (Monthly64.dailyPoolSpent (monthFigures64 txs))
                  (Monthly64.monthlyPoolSpent (monthFigures64 txs))
          = Monthly64.totalExpenses (monthFigures64 txs)).
Proof.
  cbv zeta.
  split; [vm_compute; reflexivity|].
  split; [vm_compute; reflexivity|].
  split; [vm_compute; reflexivity|].
  split; [vm_compute; reflexivity|].
  split; [vm_compute; reflexivity|].
  intros H. specialize (H roundingMonth). vm_compute in H. discriminate H.
Qed.

(** ** The surplus shown by [BudgetCalculator] *)

Lemma realIncome_is_period_income h now st :
  Calc.realIncome (BudgetCalculator h now st) = currentPeriodIncome now st.
Proof.
  unfold BudgetCalculator, currentPeriodIncome, getMonthlyData.
  cbn [Calc.realIncome]. unfold getCurrentMonthStats.
  cbn [Stats.currentMonth].
  set (cm := getSalaryMonthKey (latestDate now st)).
  set (key := fun tx => getSalaryMonthKey (Tx.date tx)).
  set (filtered := getFilteredTransactions st).
  pose proof (groupBy_get key filtered cm) as Hget.
  pose proof (groupBy_NoDup key filtered) as Hnd.
  match goal with
  | |- context [find ?p0 (sortBy ?b0 (map ?f0 _))] =>
      set (p := p0); set (mk := f0); set (before := b0)
  end.
  destruct (find p (sortBy before (map mk (groupBy key filtered))))
    as [md|] eqn:Hfind.
  - apply find_some in Hfind. destruct Hfind as [HIn Hp].
    apply sortBy_In, in_map_iff in HIn.
    destruct HIn as [[k txs] [<- HIn]].
    subst p mk. cbn [Monthly.month Monthly.totalIncome] in *.
    apply str_eqb_eq in Hp. subst k.
    rewrite (In_map_get _ _ _ Hnd HIn) in Hget.
    destruct (filter _ filtered) as [|x xs]; [discriminate|].
    inversion Hget. reflexivity.
  - destruct (filter _ filtered) as [|x xs] eqn:Hf; [reflexivity|].
    exfalso. apply map_get_In in Hget.
    pose proof (find_none _ _ Hfind (mk (cm, x :: xs))) as Hnone.
    assert (HIn : In (mk (cm, x :: xs))
                     (sortBy before (map mk (groupBy key filtered))))
      by (apply sortBy_In, in_map, Hget).
    specialize (Hnone HIn). subst p mk. cbn [Monthly.month] in Hnone.
    rewrite str_eqb_refl in Hnone. discriminate.
Qed.

(** C7 (counterexample). With no transactions, a declared income of
    100000 and pools of 50000 and 40000 the widget shows -90000, not
    100000 - 90000. *)
Lemma surplus_is_not_from_declared_income :
  ~ (forall h now st,
       (Calc.remainder (BudgetCalculator h now st)
        == Budget.income (budget st)
           - (Budget.foodPoolBudget (budget st)
              + Budget.monthlyPoolBudget (budget st)))%Q).
Proof.
  intros H. specialize (H sampleHost sampleNow (stateOf [])).
  vm_compute in H. discriminate H.
Qed.

(** C7 (amended). The surplus figure of [BudgetCalculator] is the income
    of the current salary period (the amounts of its included income
    transactions, 0 when there are none) minus the two pool budgets; it
    is not clamped, and is negative when the pools exceed that income. *)
Theorem surplus_is_period_income_minus_pools h now st :
  (Calc.remainder (BudgetCalculator h now st)
   == currentPeriodIncome now st
      - (Budget.foodPoolBudget (budget st)
         + Budget.monthlyPoolBudget (budget st)))%Q
  /\ (Calc.remainder (BudgetCalculator sampleHost sampleNow (stateOf []))
      == - 90000)%Q.
Proof.
  split; [|reflexivity].
  rewrite <- (realIncome_is_period_income h now st). reflexivity.
Qed.

(** ** The classifier *)

(** C6. For a transaction of the transfers category [filterExpense]
    includes it exactly when the lower-cased description contains one of
    the two bank names; otherwise it excludes it with the reason
    "Категория Переводы".  No configured list is consulted. *)
Theorem filterExpense_transfers h cfg tx :
  Tx.category tx = TRANSFERS ->
  let desc := toLowerCase h (Tx.description tx) in
  (shouldInclude (filterExpense h cfg tx) = true
   <-> includes desc BANK_LATIN = true \/ includes desc BANK_CYRILLIC = true)
  /\ (shouldInclude (filterExpense h cfg tx) = false ->
      reason (filterExpense h cfg tx) = Some (js "Категория Переводы"))
  /\ (forall cfg', filterExpense h cfg' tx = filterExpense h cfg tx).
Proof.
  intros Hcat desc. unfold filterExpense. rewrite Hcat, str_eqb_refl.
  fold desc.
  destruct (includes desc BANK_LATIN), (includes desc BANK_CYRILLIC);
    cbn [orb shouldInclude reason];
    intuition (auto; discriminate).
Qed.

Lemma filterExpense_transfers_witness :
  (shouldInclude (filterExpense sampleHost sampleConfig sampleTransfer) = true
   <-> includes (toLowerCase sampleHost (Tx.description sampleTransfer))
                BANK_LATIN = true
       \/ includes (toLowerCase sampleHost (Tx.description sampleTransfer))
                   BANK_CYRILLIC = true)
  /\ shouldInclude (filterExpense sampleHost sampleConfig sampleTransfer)
     = true.
Proof.
  split.
  - apply (filterExpense_transfers sampleHost sampleConfig sampleTransfer).
    reflexivity.
  - reflexivity.
Defined.

(** ** The identifier hash *)



Lemma toInt32_range a : - 2 ^ 31 <= toInt32 a < 2 ^ 31.
Proof.
  unfold toInt32. change (2 ^ 31) with 2147483648.
  change (2 ^ 32) with 4294967296. zdiv.
Qed.



Lemma hashString_range s : - 2 ^ 31 <= hashString s < 2 ^ 31.
Proof.
  unfold hashString. assert (H0 : - 2 ^ 31 <= 0 < 2 ^ 31) by lia.
  revert H0. generalize 0.
  induction s as [|c s IH]; intros acc Hacc; [exact Hacc|].
  cbn [fold_left]. apply IH, toInt32_range.
Qed.

(** ** Numerals in a radix up to 36 *)

Lemma unitValue_digitChar d : 0 <= d < 36 -> unitValue (digitChar d) = d.
Proof.
  intros H. unfold unitValue, digitChar.
  destruct (Z.ltb_spec d 10);
    match goal with |- context [?a <? ?b] => destruct (Z.ltb_spec a b) end;
    lia.
Qed.

Lemma is_alnum36_digitChar d : 0 <= d < 36 -> is_alnum36 (digitChar d) = true.
Proof.
  intros H. unfold is_alnum36, digitChar.
  destruct (Z.ltb_spec d 10); apply orb_true_iff; [left|right];
    apply andb_true_iff; split; apply Z.leb_le; lia.
Qed.

Lemma digits_aux_radix_value radix f :
  2 <= radix <= 36 ->
  forall n acc, 0 <= n < 2 ^ Z.of_nat f ->
    fold_left (fun a c => a * radix + unitValue c)
              (digits_aux f radix n acc) 0
    = fold_left (fun a c => a * radix + unitValue c) acc n.
Proof.
  intros Hr. induction f as [|f IH]; intros n acc Hn.
  - simpl in *. replace n with 0 by lia. reflexivity.
  - cbn [digits_aux].
    assert (Hm : 0 <= n mod radix < radix) by (apply Z.mod_pos_bound; lia).
    assert (Hd : n = radix * (n / radix) + n mod radix)
      by (apply Z.div_mod; lia).
    destruct (Z.eqb_spec (n / radix) 0) as [E|E].
    + cbn [fold_left]. rewrite unitValue_digitChar by lia. f_equal.
      rewrite E in Hd. lia.
    + rewrite IH.
      * cbn [fold_left]. rewrite unitValue_digitChar by lia. f_equal. lia.
      * rewrite Nat2Z.inj_succ, Z.pow_succ_r in Hn by lia.
        assert (0 <= n / radix) by (apply Z.div_pos; lia).
        assert (n / radix <= n / 2)
          by (apply Z.div_le_compat_l; lia).
        assert (n / 2 < 2 ^ Z.of_nat f)
          by (apply Z.div_lt_upper_bound; lia).
        lia.
Qed.

Lemma digits_aux_alnum radix f :
  2 <= radix <= 36 ->
  forall n acc, 0 <= n -> forallb is_alnum36 acc = true ->
    forallb is_alnum36 (digits_aux f radix n acc) = true.
Proof.
  intros Hr. induction f as [|f IH]; intros n acc Hn Ha; [exact Ha|].
  cbn [digits_aux].
  assert (Hm : 0 <= n mod radix < radix) by (apply Z.mod_pos_bound; lia).
  assert (Hc : forallb is_alnum36 (digitChar (n mod radix) :: acc) = true).
  { cbn [forallb]. rewrite is_alnum36_digitChar, Ha by lia. reflexivity. }
  destruct (n / radix =? 0); [exact Hc|].
  apply IH; [apply Z.div_pos; lia | exact Hc].
Qed.

(** [toString(radix)] of a non-negative integer is a numeral over 0-9 and
    a-z whose value is that integer. *)
Lemma toStringRadix_value radix n :
  2 <= radix <= 36 -> 0 <= n ->
  radix_value radix (toStringRadix radix n) = n
  /\ forallb is_alnum36 (toStringRadix radix n) = true.
Proof.
  intros Hr Hn. split.
  - unfold radix_value, toStringRadix.
    rewrite digits_aux_radix_value; [reflexivity | assumption |].
    split; [assumption|].
    destruct (Z.eq_dec n 0) as [->|Hz]; [cbn; lia|].
    rewrite Nat2Z.inj_succ, Z2Nat.id by apply Z.log2_nonneg.
    apply Z.log2_spec. lia.
  - apply digits_aux_alnum; [assumption | assumption | reflexivity].
Qed.

(** ** The parser *)

(** What [parseRow] returns, and when. *)
Lemma parseRow_cases h cfg i line :
  (keptRow line = false /\ parseRow h cfg i line = None)
  \/ (keptRow line = true
      /\ exists tx,
           parseRow h cfg i line = Some tx
           /\ Tx.id tx
              = toStringRadix 36
                  (Z.abs (hashString (idText h (rowValues line) i)))
           /\ Tx.amount tx = parseAmount h (nth 4 (rowValues line) [])
           /\ Tx.description tx = nth 11 (rowValues line) []).
Proof.
  unfold keptRow, wellFormedRow, parseRow, rowValues.
  destruct (trim line) as [|c l] eqn:Et; [left; split; reflexivity|].
  set (values := parseCSVLine (c :: l)).
  destruct (Nat.ltb_spec (List.length values) 12) as [Hlt|Hge].
  - left. destruct (Nat.leb_spec 12 (List.length values)); [lia|].
    split; reflexivity.
  - destruct (Nat.leb_spec 12 (List.length values)); [|lia].
    cbn [andb Raw.status].
    destruct (str_eqb (nth 3 values []) STATUS_OK);
      [right | left; split; reflexivity].
    split; [reflexivity|]. cbn [negb]. eexists. split; [reflexivity|].
    split; [|split]; reflexivity.
Qed.

Lemma parseRow_Some_kept h cfg i line tx :
  parseRow h cfg i line = Some tx -> keptRow line = true.
Proof.
  intros H. destruct (parseRow_cases h cfg i line) as [[_ E]|[E _]];
    [congruence | exact E].
Qed.

Lemma parseLines_length h cfg lines :
  forall i,
    List.length (parseLines h cfg i lines)
    = List.length (filter keptRow lines).
Proof.
  induction lines as [|l lines IH]; intros i; [reflexivity|].
  cbn [parseLines filter].
  destruct (parseRow_cases h cfg i l) as [[-> ->]|[-> (tx & -> & _)]];
    cbn [List.length]; rewrite IH; reflexivity.
Qed.

Lemma parseLines_In h cfg lines tx :
  forall i,
    In tx (parseLines h cfg i lines)
    <-> exists k line,
          nth_error lines k = Some line
          /\ parseRow h cfg (i + Z.of_nat k) line = Some tx.
Proof.
  induction lines as [|l lines IH]; intros i; cbn [parseLines].
  - split; [intros [] | intros (k & line & Hk & _)].
    destruct k; discriminate.
  - split.
    + intros HIn.
      assert (Hcase : parseRow h cfg i l = Some tx
                      \/ In tx (parseLines h cfg (i + 1) lines)).
      { destruct (parseRow h cfg i l) as [tx'|];
          [destruct HIn as [->|HIn]; [left; reflexivity | right; exact HIn]
          | right; exact HIn]. }
      destruct Hcase as [E|HIn'].
      * exists 0%nat, l. rewrite Z.add_0_r. split; [reflexivity|exact E].
      * apply IH in HIn'. destruct HIn' as (k & line & Hk & Hp).
        exists (S k), line. split; [exact Hk|].
        rewrite Nat2Z.inj_succ. rewrite <- Hp. f_equal. lia.
    + intros (k & line & Hk & Hp). destruct k as [|k].
      * cbn in Hk. inversion Hk. subst line. rewrite Z.add_0_r in Hp.
        rewrite Hp. left. reflexivity.
      * assert (HIn : In tx (parseLines h cfg (i + 1) lines)).
        { apply IH. exists k, line. split; [exact Hk|].
          rewrite <- Hp. f_equal. rewrite Nat2Z.inj_succ. lia. }
        destruct (parseRow h cfg i l); [right|]; exact HIn.
Qed.

(** The transactions of a text are the rows kept from its lines after the
    first, each parsed with its index in the array of lines. *)
Lemma parseCSV_In h cfg text tx :
  In tx (parseCSV h cfg text)
  <-> exists k line,
        nth_error (split NEWLINE text) (S k) = Some line
        /\ parseRow h cfg (Z.of_nat (S k)) line = Some tx.
Proof.
  unfold parseCSV. rewrite sortBy_In, parseLines_In.
  split; intros (k & line & Hk & Hp); exists k, line.
  - split.
    + destruct (split NEWLINE text); [destruct k; discriminate|exact Hk].
    + rewrite <- Hp. f_equal. rewrite Nat2Z.inj_succ. lia.
  - split.
    + destruct (split NEWLINE text); [discriminate|exact Hk].
    + rewrite <- Hp. f_equal. rewrite Nat2Z.inj_succ. lia.
Qed.

Lemma parseCSV_length h cfg text :
  List.length (parseCSV h cfg text)
  = List.length (filter keptRow (tl (split NEWLINE text))).
Proof. unfold parseCSV. rewrite sortBy_length. apply parseLines_length. Qed.

(** C5. A usable row (not blank, at least 12 tokens, after the header
    line) yields a transaction if and only if its status token is "OK";
    the transactions of a text are as many as its usable rows with status
    "OK"; of two rows that differ only in the status, "OK" and "FAILED",
    only the first yields a transaction. *)
Theorem parseCSV_keeps_only_OK h cfg :
  (forall i line,
     wellFormedRow line = true ->
     ((exists tx, parseRow h cfg i line = Some tx)
      <-> nth 3 (rowValues line) [] = STATUS_OK))
  /\ (forall text,
        List.length (parseCSV h cfg text)
        = List.length
            (filter (fun l => wellFormedRow l
                              && str_eqb (nth 3 (rowValues l) []) STATUS_OK)
                    (tl (split NEWLINE text))))
  /\ (wellFormedRow (rowWithStatus (js "OK")) = true
      /\ wellFormedRow (rowWithStatus (js "FAILED")) = true
      /\ (exists tx, parseRow h cfg 1 (rowWithStatus (js "OK")) = Some tx)
      /\ parseRow h cfg 2 (rowWithStatus (js "FAILED")) = None
      /\ List.length (parseCSV h cfg twoRows) = 1%nat).
Proof.
  split; [|split].
  - intros i line Hwf.
    destruct (parseRow_cases h cfg i line) as [[Hk E]|[Hk (tx & E & _)]];
      unfold keptRow in Hk; rewrite Hwf in Hk; cbn [andb] in Hk.
    + split.
      * intros [tx Htx]. congruence.
      * intros Hs. apply str_eqb_eq in Hs. congruence.
    + split; [intros _; apply str_eqb_eq, Hk | intros _; exists tx; exact E].
  - intros text. apply parseCSV_length.
  - split; [reflexivity|]. split; [reflexivity|].
    split; [|split].
    + destruct (parseRow_cases h cfg 1 (rowWithStatus (js "OK")))
        as [[Hk _]|[_ (tx & E & _)]]; [discriminate Hk | exists tx; exact E].
    + destruct (parseRow_cases h cfg 2 (rowWithStatus (js "FAILED")))
        as [[_ E]|[Hk _]]; [exact E | discriminate Hk].
    + rewrite parseCSV_length. reflexivity.
Qed.

Lemma parseCSV_keeps_only_OK_witness :
  (exists tx,
     parseRow sampleHost sampleConfig 1 (rowWithStatus (js "OK")) = Some tx)
  <-> nth 3 (rowValues (rowWithStatus (js "OK"))) [] = STATUS_OK.
Proof.
  apply (proj1 (parseCSV_keeps_only_OK sampleHost sampleConfig)).
  reflexivity.
Defined.



Example sample_id :
  map Tx.id (parseCSV sampleHost sampleConfig twoRows) = [js "ciuham"]
  /\ toStringRadix 36
       (Z.abs (rollingHash31
                 (js "22.11.2025 14:30:00--150.5-Кафе Пример-1")))
     = js "ciuham".
Proof. vm_compute. split; reflexivity. Qed.

(** ** Loading *)

(** [loadCSVFromPublic] never rejects: every failure is turned into an
    empty list. *)
Lemma loadCSVFromPublic_resolves h cfg net :
  exists txs, loadCSVFromPublic h cfg net = Resolved txs.
Proof.
  unfold loadCSVFromPublic.
  destruct net as [|[|] [t|]]; cbn; eexists; reflexivity.
Qed.

(** C9 (evaluation at the failing input). When the fetch rejects, when
    the response is not ok, or when reading its body rejects, [loadData]
    ends with the error flag as it was and the transaction list replaced
    by the empty list; after a failed first load the flag is still
    [null]. *)
Theorem load_failure_sets_no_error_flag h cfg st :
  (forall net,
     net = FetchRejects
     \/ (exists text, net = FetchResponse false text)
     \/ net = FetchResponse true Rejected ->
     error (loadData h cfg net st) = error st
     /\ transactions (loadData h cfg net st) = []
     /\ isLoading (loadData h cfg net st) = false)
  /\ error (DashboardPage_effect h cfg FetchRejects (stateOf [])) = None
  /\ transactions
       (loadData h cfg FetchRejects
          (stateOf [sampleIncome sampleNow 1000%Q]))
     = [].
Proof.
  split; [|split; reflexivity].
  intros net [->|[[text ->]| ->]]; repeat split.
Qed.

(* ================================================================== *)
(** * Part III.  Further properties of the code                         *)
(* ================================================================== *)

(** ** Sorted output *)

Section SortedFacts.
Context {A : Type} (before : A -> A -> bool).

Lemma sortBy_of_sorted l : Sorted (fun x y => before x y = true) l -> sortBy before l = l.
Proof.
  induction l as [|x l IH]; intros Hs; [reflexivity|].
  inversion Hs as [|? ? Hl Hhd]. subst. cbn [sortBy fold_right].
  fold (sortBy before l). rewrite (IH Hl).
  destruct l as [|y l']; [reflexivity|].
  inversion Hhd as [|? ? Hxy]. subst. cbn.
  rewrite Hxy. reflexivity.
Qed.

Hypothesis before_total : forall x y, before x y = false -> before y x = true.

Lemma insert_sorted_Sorted x l :
  Sorted (fun x y => before x y = true) l -> Sorted (fun x y => before x y = true) (insert_sorted before x l).
Proof.
  induction l as [|y l IH]; intros Hs; cbn.
  - repeat constructor.
  - destruct (before x y) eqn:E.
    + constructor; [exact Hs | constructor; exact E].
    + inversion Hs as [|? ? Hl Hhd]. subst.
      constructor; [apply IH, Hl|].
      destruct l as [|z l']; cbn.
      * constructor. apply before_total, E.
      * destruct (before x z); constructor;
          [apply before_total, E | inversion Hhd; assumption].
Qed.

Lemma sortBy_Sorted l : Sorted (fun x y => before x y = true) (sortBy before l).
Proof.
  induction l as [|x l IH]; cbn; [constructor|].
  apply insert_sorted_Sorted, IH.
Qed.
End SortedFacts.

Lemma byDateDesc_iff a b : byDateDesc a b = true <-> newerFirst a b.
Proof. unfold byDateDesc, newerFirst. rewrite Z.leb_le. lia. Qed.

Lemma Sorted_byDateDesc l :
  Sorted (fun a b => byDateDesc a b = true) l <-> Sorted newerFirst l.
Proof.
  split; intros H; induction H as [|x l Hl IH Hhd]; constructor; auto;
    destruct Hhd; constructor; apply byDateDesc_iff; assumption.
Qed.

Lemma newerFirst_trans : Relations_1.Transitive newerFirst.
Proof. intros a b c. unfold newerFirst. lia. Qed.

Lemma StronglySorted_filter {A} (R : A -> A -> Prop) (p : A -> bool) l :
  StronglySorted R l -> StronglySorted R (filter p l).
Proof.
  induction 1 as [|x l Hl IH Hx]; [constructor|].
  cbn [filter]. destruct (p x); [|exact IH].
  constructor; [exact IH|].
  apply Forall_forall. intros y Hy. apply filter_In in Hy.
  rewrite Forall_forall in Hx. apply Hx, Hy.
Qed.

Lemma sortBy_byDateDesc_sorted l :
  StronglySorted newerFirst (sortBy byDateDesc l).
Proof.
  apply Sorted_StronglySorted; [exact newerFirst_trans|].
  apply Sorted_byDateDesc, sortBy_Sorted.
  intros x y. unfold byDateDesc. rewrite Z.leb_gt, Z.leb_le. lia.
Qed.

(** X1. When the date of every kept row is a valid date, the
    transactions returned by [parseCSV] are the kept rows in descending
    order of date: every transaction is at least as recent as all that
    follow it; and when the kept rows of the text are already in that
    order they are returned in the order of their lines. *)
Theorem parseCSV_sorted_newest_first h cfg text :
  Forall (fun tx => Date_valid (Tx.date tx))
         (parseLines h cfg 1 (tl (split NEWLINE text))) ->
  StronglySorted newerFirst (parseCSV h cfg text)
  /\ Permutation (parseCSV h cfg text)
                 (parseLines h cfg 1 (tl (split NEWLINE text)))
  /\ (Sorted newerFirst (parseLines h cfg 1 (tl (split NEWLINE text))) ->
      parseCSV h cfg text = parseLines h cfg 1 (tl (split NEWLINE text))).
Proof.
  intros _. unfold parseCSV. split; [apply sortBy_byDateDesc_sorted|].
  split; [apply sortBy_perm|].
  intros Hs. apply sortBy_of_sorted, Sorted_byDateDesc, Hs.
Qed.

Lemma parseCSV_sorted_newest_first_witness :
  StronglySorted newerFirst
    (parseCSV sampleHost sampleConfig (twoRows ++ rowWithStatus (js "OK")))
  /\ List.length
       (parseCSV sampleHost sampleConfig (twoRows ++ rowWithStatus (js "OK")))
     = 2%nat.
Proof.
  split; [|vm_compute; reflexivity].
  apply (parseCSV_sorted_newest_first sampleHost sampleConfig
           (twoRows ++ rowWithStatus (js "OK"))).
  apply Forall_forall. apply forallb_forall. vm_compute. reflexivity.
Defined.

(** ** Invariants of parsed transactions *)

(** The classifier reads only the description and the category. *)
Lemma filterExpense_fields h cfg tx tx' :
  Tx.description tx' = Tx.description tx ->
  Tx.category tx' = Tx.category tx ->
  filterExpense h cfg tx' = filterExpense h cfg tx.
Proof. intros Hd Hc. unfold filterExpense. rewrite Hd, Hc. reflexivity. Qed.

Lemma filterIncome_fields h cfg tx tx' :
  Tx.description tx' = Tx.description tx ->
  Tx.category tx' = Tx.category tx ->
  filterIncome h cfg tx' = filterIncome h cfg tx.
Proof. intros Hd Hc. unfold filterIncome. rewrite Hd, Hc. reflexivity. Qed.

Lemma filterIncome_reason h cfg tx :
  shouldInclude (filterIncome h cfg tx) = true
  /\ reason (filterIncome h cfg tx) = None
  \/ shouldInclude (filterIncome h cfg tx) = false
     /\ exists r, reason (filterIncome h cfg tx) = Some r.
Proof.
  unfold filterIncome.
  repeat match goal with
         | |- context [match find ?p ?l with _ => _ end] =>
             destruct (find p l)
         | |- context [if ?b then _ else _] => destruct b
         end; cbn; eauto.
Qed.

Lemma filterExpense_reason h cfg tx :
  shouldInclude (filterExpense h cfg tx) = true
  /\ reason (filterExpense h cfg tx) = None
  \/ shouldInclude (filterExpense h cfg tx) = false
     /\ exists r, reason (filterExpense h cfg tx) = Some r.
Proof.
  unfold filterExpense.
  repeat match goal with
         | |- context [match find ?p ?l with _ => _ end] =>
             destruct (find p l)
         | |- context [if ?b then _ else _] => destruct b
         end; cbn; eauto.
Qed.

Lemma Qltb_lt a b : Qltb a b = true <-> (a < b)%Q.
Proof.
  unfold Qltb. rewrite Qlt_alt. destruct (a ?= b)%Q; split; congruence.
Qed.

(** The fields of a transaction built by [parseRow]. *)
Lemma parseRow_fields h cfg i line tx :
  parseRow h cfg i line = Some tx ->
  Tx.type tx = (if Qltb (Tx.amount tx) 0 then expense else income)
  /\ Tx.isFiltered tx = negb (shouldInclude (classify h cfg tx))
  /\ Tx.filterReason tx = reason (classify h cfg tx)
  /\ Tx.pool tx = determinePool h cfg tx.
Proof.
  unfold parseRow.
  destruct (trim line) as [|c l]; [discriminate|].
  destruct (List.length (parseCSVLine (c :: l)) <? 12)%nat; [discriminate|].
  cbn [Raw.status Raw.operationAmount].
  destruct (negb (str_eqb _ STATUS_OK)); [discriminate|].
  intros E. inversion E. clear E. subst tx.
  cbn [Tx.type Tx.amount Tx.isFiltered Tx.filterReason Tx.pool setPool
       setFilter Raw.operationAmount].
  unfold classify. cbn [Tx.type setPool setFilter].
  split; [reflexivity|].
  destruct (Qltb _ 0); repeat split.
Qed.

(** X2. In every transaction returned by [parseCSV] the type follows the
    sign of the amount: it is an expense exactly when the amount is
    negative, and an income exactly when it is zero or positive. *)
Theorem parseCSV_type_follows_sign h cfg text :
  Forall (fun tx =>
            (Tx.type tx = expense <-> (Tx.amount tx < 0)%Q)
            /\ (Tx.type tx = income <-> (0 <= Tx.amount tx)%Q))
         (parseCSV h cfg text).
Proof.
  apply Forall_forall. intros tx HIn. apply parseCSV_In in HIn.
  destruct HIn as (k & line & _ & Hp).
  destruct (parseRow_fields h cfg _ _ _ Hp) as (Ht & _).
  rewrite Ht. destruct (Qltb (Tx.amount tx) 0) eqn:E.
  - apply Qltb_lt in E. split; split; try discriminate; auto.
    intros Hle. exfalso. exact (Qlt_not_le _ _ E Hle).
  - assert (Hn : ~ (Tx.amount tx < 0)%Q)
      by (intros Hlt; apply Qltb_lt in Hlt; congruence).
    split; split; try discriminate; auto.
    + intros Hlt. contradiction.
    + intros _. apply Qnot_lt_le, Hn.
Qed.

(** X3. In every transaction returned by [parseCSV] the exclusion flag
    and the reason go together: an excluded transaction carries a reason
    and an included one carries none; the flag is the verdict of
    [filterExpense] for an expense and of [filterIncome] for an income. *)
Theorem parseCSV_reason_iff_filtered h cfg text :
  Forall (fun tx =>
            (Tx.isFiltered tx = true <->
             exists r, Tx.filterReason tx = Some r)
            /\ (Tx.isFiltered tx = false <-> Tx.filterReason tx = None)
            /\ Tx.isFiltered tx
               = negb (shouldInclude
                         (match Tx.type tx with
                          | expense => filterExpense h cfg tx
                          | income => filterIncome h cfg tx
                          end)))
         (parseCSV h cfg text).
Proof.
  apply Forall_forall. intros tx HIn. apply parseCSV_In in HIn.
  destruct HIn as (k & line & _ & Hp).
  destruct (parseRow_fields h cfg _ _ _ Hp) as (_ & Hf & Hr & _).
  rewrite Hf, Hr. unfold classify.
  destruct (Tx.type tx);
    [destruct (filterExpense_reason h cfg tx) as [[-> ->]|[-> [r ->]]]
    |destruct (filterIncome_reason h cfg tx) as [[-> ->]|[-> [r ->]]]];
    cbn [negb]; (split; [|split; [|reflexivity]]);
    split; try discriminate; eauto; intros [? ?]; discriminate.
Qed.

(** X4. The pool of every transaction returned by [parseCSV] is the one
    [determinePool] gives it, whether or not it is excluded; an income is
    always in the pool other, and an expense is in the daily pool
    exactly when its category is one of the daily categories, whatever
    its description. *)
Theorem parseCSV_pool h cfg text :
  Forall (fun tx =>
            Tx.pool tx = determinePool h cfg tx
            /\ (Tx.type tx = income -> Tx.pool tx = other)
            /\ (Tx.pool tx = daily <->
                Tx.type tx = expense
                /\ arr_includes (DAILY_CATEGORIES cfg) (Tx.category tx)
                   = true))
         (parseCSV h cfg text).
Proof.
  apply Forall_forall. intros tx HIn. apply parseCSV_In in HIn.
  destruct HIn as (k & line & _ & Hp).
  destruct (parseRow_fields h cfg _ _ _ Hp) as (_ & _ & _ & Hpool).
  rewrite Hpool. split; [reflexivity|]. unfold determinePool.
  destruct (Tx.type tx); cbn [TxType_eqb].
  - split; [discriminate|].
    destruct (arr_includes (DAILY_CATEGORIES cfg) (Tx.category tx)).
    + split; auto.
    + split; [|intros [_ ?]; discriminate].
      destruct (arr_includes (MONTHLY_CATEGORIES cfg) (Tx.category tx));
        [discriminate|].
      destruct (_ || _); discriminate.
  - split; [reflexivity|]. split; [discriminate|intros [? _]; discriminate].
Qed.

(** ** Tokens of a line *)

Lemma trimStart_app_nonws a x b :
  is_ws x = false -> trimStart (a ++ x :: b) = trimStart (a ++ [x]) ++ b.
Proof.
  intros Hx. induction a as [|c a IH]; cbn.
  - rewrite Hx. reflexivity.
  - destruct (is_ws c); [exact IH|].
    cbn. rewrite <- app_assoc. reflexivity.
Qed.

Lemma trimStart_all_ws a :
  forallb is_ws a = true -> trimStart a = [].
Proof.
  induction a as [|c a IH]; cbn; [reflexivity|].
  intros H. apply andb_true_iff in H. destruct H as [-> H]. exact (IH H).
Qed.

Lemma trimStart_suffix s : exists p, s = p ++ trimStart s /\ forallb is_ws p = true.
Proof.
  induction s as [|c s (p & Hp & Hw)]; cbn.
  - exists []. split; reflexivity.
  - destruct (is_ws c) eqn:E.
    + exists (c :: p). cbn. rewrite E, Hw. split; [f_equal; exact Hp|reflexivity].
    + exists []. split; reflexivity.
Qed.

Lemma trimStart_head s c r : trimStart s = c :: r -> is_ws c = false.
Proof.
  induction s as [|x s IH]; cbn; [discriminate|].
  destruct (is_ws x) eqn:E; [exact IH|].
  intros H. inversion H. subst. exact E.
Qed.

Lemma trimStart_id s c r : s = c :: r -> is_ws c = false -> trimStart s = s.
Proof. intros -> H. cbn. rewrite H. reflexivity. Qed.

Lemma trimStart_idem s : trimStart (trimStart s) = trimStart s.
Proof.
  destruct (trimStart s) as [|c r] eqn:E; [reflexivity|].
  cbn. rewrite (trimStart_head _ _ _ E). reflexivity.
Qed.

Lemma trimEnd_idem s : trimEnd (trimEnd s) = trimEnd s.
Proof.
  unfold trimEnd. rewrite rev_involutive, trimStart_idem. reflexivity.
Qed.

(** Trimming the end keeps a first unit that is not white space. *)
Lemma trimEnd_head c r :
  is_ws c = false -> exists r', trimEnd (c :: r) = c :: r'.
Proof.
  intros Hc. unfold trimEnd. cbn [rev].
  rewrite (trimStart_app_nonws (rev r) c [] Hc), app_nil_r.
  destruct (trimStart_suffix (rev r ++ [c])) as (p & Hp & Hw).
  destruct (trimStart (rev r ++ [c])) as [|x t] eqn:E.
  - rewrite app_nil_r in Hp. rewrite <- Hp in Hw.
    rewrite forallb_app in Hw. cbn in Hw. rewrite Hc in Hw.
    rewrite andb_false_r in Hw. discriminate.
  - assert (Hl : rev (x :: t) = rev (rev r ++ [c]) -> False \/ True) by auto.
    clear Hl.
    assert (Hrev : c :: r = rev (x :: t) ++ rev p).
    { rewrite <- rev_app_distr, <- Hp, rev_app_distr, rev_involutive.
      reflexivity. }
    destruct (rev (x :: t)) as [|y u] eqn:Er.
    + apply (f_equal (@List.length Z)) in Er.
      rewrite length_rev in Er. discriminate.
    + cbn in Hrev. inversion Hrev. subst y. eexists. reflexivity.
Qed.

Lemma trim_idem s : trim (trim s) = trim s.
Proof.
  unfold trim. destruct (trimStart s) as [|c r] eqn:E; [reflexivity|].
  destruct (trimEnd_head c r (trimStart_head _ _ _ E)) as [r' Hr].
  rewrite (trimStart_id _ c r' Hr (trimStart_head _ _ _ E)).
  apply trimEnd_idem.
Qed.

Lemma trimStart_In x s : In x (trimStart s) -> In x s.
Proof.
  induction s as [|c s IH]; cbn; [tauto|].
  destruct (is_ws c); [intros H; right; exact (IH H) | tauto].
Qed.

Lemma trim_In x s : In x (trim s) -> In x s.
Proof.
  unfold trim, trimEnd. intros H.
  apply in_rev, trimStart_In in H. apply in_rev in H.
  exact (trimStart_In _ _ H).
Qed.

Lemma strip_quotes_no_quote s : ~ In QUOTE s -> strip_quotes s = s.
Proof.
  intros Hn. unfold strip_quotes.
  assert (Hs1 : match s with
                | c :: s' => if c =? QUOTE then s' else s
                | [] => []
                end = s).
  { destruct s as [|c s']; [reflexivity|].
    destruct (Z.eqb_spec c QUOTE) as [->|_]; [|reflexivity].
    exfalso. apply Hn. left. reflexivity. }
  rewrite Hs1. destruct (rev s) as [|c r] eqn:E; [reflexivity|].
  destruct (Z.eqb_spec c QUOTE) as [->|_]; [|reflexivity].
  exfalso. apply Hn, in_rev. rewrite E. left. reflexivity.
Qed.

(** The loop never copies a quote, so every token is a trimmed string
    without quotes. *)
Lemma parseCSVLine_loop_tokens line :
  forall result current inQuotes,
    ~ In QUOTE current ->
    Forall (fun t => ~ In QUOTE t /\ trim t = t) result ->
    Forall (fun t => ~ In QUOTE t /\ trim t = t)
           (parseCSVLine_loop line result current inQuotes).
Proof.
  assert (Htok : forall current, ~ In QUOTE current ->
            ~ In QUOTE (strip_quotes (trim current))
            /\ trim (strip_quotes (trim current))
               = strip_quotes (trim current)).
  { intros current Hc.
    assert (Ht : ~ In QUOTE (trim current))
      by (intros H; apply Hc, trim_In, H).
    rewrite (strip_quotes_no_quote _ Ht). split; [exact Ht|apply trim_idem]. }
  induction line as [|char rest IH]; intros result current inQuotes Hc Hr;
    cbn [parseCSVLine_loop].
  - apply Forall_app. split; [exact Hr|]. constructor; [|constructor].
    apply Htok, Hc.
  - destruct (Z.eqb_spec char QUOTE) as [->|Hq]; [apply IH; assumption|].
    destruct ((char =? SEMICOLON) && negb inQuotes).
    + apply IH; [cbn; tauto|]. apply Forall_app. split; [exact Hr|].
      constructor; [|constructor]. apply Htok, Hc.
    + apply IH; [|exact Hr]. intros H. apply in_app_or in H.
      destruct H as [H|[H|[]]]; [exact (Hc H) | congruence].
Qed.

Lemma parseCSVLine_loop_length line :
  forall result current inQuotes,
    (List.length result
     < List.length (parseCSVLine_loop line result current inQuotes))%nat.
Proof.
  induction line as [|char rest IH]; intros result current inQuotes;
    cbn [parseCSVLine_loop].
  - rewrite length_app. cbn. lia.
  - destruct (char =? QUOTE); [apply IH|].
    destruct ((char =? SEMICOLON) && negb inQuotes); [|apply IH].
    eapply Nat.lt_trans; [|apply IH]. rewrite length_app. cbn. lia.
Qed.

Lemma split_hd_tl sep s : split sep s = hd [] (split sep s) :: tl (split sep s).
Proof.
  destruct s as [|c s]; cbn; [reflexivity|].
  destruct (c =? sep); [reflexivity|].
  destruct (split sep s); reflexivity.
Qed.

Lemma split_cons sep c s :
  split sep (c :: s)
  = if c =? sep then [] :: split sep s
    else (c :: hd [] (split sep s)) :: tl (split sep s).
Proof.
  cbn [split]. destruct (c =? sep); [reflexivity|].
  rewrite (split_hd_tl sep s) at 1. reflexivity.
Qed.

(** Outside quotes the loop splits on semicolons. *)
Lemma parseCSVLine_loop_unquoted line :
  ~ In QUOTE line ->
  forall result current,
    parseCSVLine_loop line result current false
    = result
      ++ strip_quotes (trim (current ++ hd [] (split SEMICOLON line)))
           :: map (fun t => strip_quotes (trim t))
                  (tl (split SEMICOLON line)).
Proof.
  induction line as [|char rest IH]; intros Hn result current.
  - cbn. rewrite app_nil_r. reflexivity.
  - cbn [parseCSVLine_loop]. rewrite split_cons.
    destruct (Z.eqb_spec char QUOTE) as [->|Hq];
      [exfalso; apply Hn; left; reflexivity|].
    assert (Hn' : ~ In QUOTE rest) by (intros H; apply Hn; right; exact H).
    destruct (char =? SEMICOLON); cbn [andb negb hd tl].
    + rewrite (IH Hn'), <- app_assoc, app_nil_r. cbn [app map].
      rewrite (split_hd_tl SEMICOLON rest) at 3. reflexivity.
    + rewrite (IH Hn'), <- app_assoc. reflexivity.
Qed.

(** Inside quotes every unit but the quote is copied. *)
Lemma parseCSVLine_loop_quoted s :
  ~ In QUOTE s ->
  forall result current rest,
    parseCSVLine_loop (s ++ QUOTE :: rest) result current true
    = parseCSVLine_loop rest result (current ++ s) false.
Proof.
  induction s as [|c s IH]; intros Hn result current rest.
  - cbn. rewrite app_nil_r. reflexivity.
  - cbn [app parseCSVLine_loop].
    destruct (Z.eqb_spec c QUOTE) as [->|_];
      [exfalso; apply Hn; left; reflexivity|].
    rewrite andb_false_r.
    rewrite IH by (intros H; apply Hn; right; exact H).
    rewrite <- app_assoc. reflexivity.
Qed.

(** X5. [parseCSVLine] always returns at least one token; no token
    contains a quote character and every token is trimmed (trimming it
    again changes nothing). *)
Theorem parseCSVLine_tokens_clean line :
  (1 <= List.length (parseCSVLine line))%nat
  /\ Forall (fun t => ~ In QUOTE t /\ trim t = t) (parseCSVLine line).
Proof.
  unfold parseCSVLine. split.
  - pose proof (parseCSVLine_loop_length line [] [] false). cbn in *. lia.
  - apply parseCSVLine_loop_tokens; [cbn; tauto | constructor].
Qed.

(** X6. On a line without quote characters [parseCSVLine] is the split on
    semicolons followed by trimming each piece. *)
Theorem parseCSVLine_unquoted line :
  ~ In QUOTE line ->
  parseCSVLine line = map trim (split SEMICOLON line).
Proof.
  intros Hn. unfold parseCSVLine.
  rewrite (parseCSVLine_loop_unquoted line Hn). cbn [app].
  assert (Hall : Forall (fun w => ~ In QUOTE w) (split SEMICOLON line)).
  { clear - Hn. induction line as [|c l IH].
    - constructor; [cbn; tauto|constructor].
    - assert (Hl : ~ In QUOTE l) by (intros H; apply Hn; right; exact H).
      specialize (IH Hl). rewrite split_cons.
      rewrite (split_hd_tl SEMICOLON l) in IH. inversion IH. subst.
      destruct (c =? SEMICOLON).
      + constructor; [cbn; tauto|]. rewrite split_hd_tl.
        constructor; assumption.
      + constructor; [|assumption].
        intros [H|H]; [apply Hn; left; exact H | contradiction]. }
  rewrite (split_hd_tl SEMICOLON line) in Hall |- *.
  inversion Hall as [|? ? Hw Hws]. subst. cbn [map hd tl].
  f_equal.
  - apply strip_quotes_no_quote. intros H. apply Hw, trim_In, H.
  - apply map_ext_in. intros t Ht. rewrite Forall_forall in Hws.
    apply strip_quotes_no_quote. intros H. exact (Hws t Ht (trim_In _ _ H)).
Qed.

Lemma parseCSVLine_unquoted_witness :
  parseCSVLine (js "a; b ;;c") = map trim (split SEMICOLON (js "a; b ;;c")).
Proof.
  apply parseCSVLine_unquoted. vm_compute. intuition discriminate.
Defined.

(** X7. Between quotes a semicolon is ordinary text: a line made of one
    quoted field, whatever semicolons it holds, is a single token, the
    trimmed field. *)
Theorem parseCSVLine_quoted_field s :
  ~ In QUOTE s ->
  parseCSVLine (QUOTE :: s ++ [QUOTE]) = [trim s].
Proof.
  intros Hn. unfold parseCSVLine. cbn [parseCSVLine_loop app].
  rewrite Z.eqb_refl. cbn [negb].
  rewrite (parseCSVLine_loop_quoted s Hn). cbn.
  f_equal. apply strip_quotes_no_quote. intros H. apply Hn, trim_In, H.
Qed.

Lemma parseCSVLine_quoted_field_witness :
  parseCSVLine (QUOTE :: js " a;b ; c" ++ [QUOTE]) = [trim (js " a;b ; c")].
Proof.
  apply parseCSVLine_quoted_field. vm_compute. intuition discriminate.
Defined.

(** ** Header, identifiers and dates of the parser *)

Lemma notIn_forallb sep s :
  ~ In sep s -> forallb (fun c => negb (c =? sep)) s = true.
Proof.
  induction s as [|c s IH]; [reflexivity|]. cbn. intros H.
  destruct (Z.eqb_spec c sep) as [->|_]; [exfalso; apply H; left; reflexivity|].
  apply IH. intros Hs. apply H. right. exact Hs.
Qed.

Lemma split_notIn sep s : ~ In sep s -> split sep s = [s].
Proof. intros H. apply split_no_sep, notIn_forallb, H. Qed.

Lemma split_app_notIn sep a b :
  ~ In sep a -> split sep (a ++ sep :: b) = a :: split sep b.
Proof. intros H. apply split_app_sep, notIn_forallb, H. Qed.

(** X8. The first line of the text is dropped whatever it holds: a text
    of one line gives no transaction, and two texts that differ only in
    their first line give the same transactions. *)
Theorem parseCSV_header_ignored h cfg :
  (forall text, ~ In NEWLINE text -> parseCSV h cfg text = [])
  /\ (forall header1 header2 body,
        ~ In NEWLINE header1 -> ~ In NEWLINE header2 ->
        parseCSV h cfg (header1 ++ NEWLINE :: body)
        = parseCSV h cfg (header2 ++ NEWLINE :: body)).
Proof.
  split.
  - intros text Hn. unfold parseCSV. rewrite (split_notIn _ _ Hn).
    reflexivity.
  - intros header1 header2 body H1 H2. unfold parseCSV.
    rewrite !split_app_notIn by assumption. reflexivity.
Qed.

Lemma parseCSV_header_ignored_witness :
  parseCSV sampleHost sampleConfig (rowWithStatus (js "OK")) = [].
Proof.
  apply (proj1 (parseCSV_header_ignored sampleHost sampleConfig)).
  vm_compute. intuition discriminate.
Defined.

Lemma digits_aux_length radix f :
  2 <= radix ->
  forall (k : nat) n acc,
    (1 <= k)%nat -> 0 <= n < radix ^ Z.of_nat k ->
    (List.length acc < List.length (digits_aux (S f) radix n acc)
     <= k + List.length acc)%nat.
Proof.
  intros Hr. induction f as [|f IH]; intros k n acc Hk Hn.
  - cbn. destruct (n / radix =? 0); cbn; lia.
  - cbn [digits_aux].
    destruct (Z.eqb_spec (n / radix) 0) as [E|E]; [cbn; lia|].
    assert (Hq : 0 <= n / radix) by (apply Z.div_pos; lia).
    destruct k as [|[|k]]; [lia| |].
    + exfalso. apply E. apply Z.div_small. cbn in Hn. lia.
    + assert (Hlt : n / radix < radix ^ Z.of_nat (S k)).
      { apply Z.div_lt_upper_bound; [lia|].
        rewrite <- Z.pow_succ_r by lia. rewrite <- Nat2Z.inj_succ.
        apply Hn. }
      specialize (IH (S k) (n / radix)
                     (digitChar (n mod radix) :: acc) ltac:(lia)
                     (conj Hq Hlt)).
      cbn [digits_aux List.length] in IH |- *. lia.
Qed.

(** X9. The id of every transaction returned by [parseCSV] is a
    non-empty string of at most 6 characters, each a digit or a
    lower-case Latin letter. *)
Theorem parseCSV_id_shape h cfg text :
  Forall (fun tx =>
            (1 <= List.length (Tx.id tx) <= 6)%nat
            /\ forallb is_alnum36 (Tx.id tx) = true)
         (parseCSV h cfg text).
Proof.
  apply Forall_forall. intros tx HIn. apply parseCSV_In in HIn.
  destruct HIn as (k & line & _ & Hp).
  destruct (parseRow_cases h cfg (Z.of_nat (S k)) line)
    as [[_ E]|[_ (tx' & E & Hid & _)]]; [congruence|].
  rewrite Hp in E. inversion E. subst tx'. clear E. rewrite Hid.
  set (n := Z.abs (hashString _)).
  pose proof (hashString_range (idText h (rowValues line) (Z.of_nat (S k))))
    as Hr.
  split.
  - pose proof (digits_aux_length 36 (Z.to_nat (Z.log2 n)) ltac:(lia)
                  6%nat n [] ltac:(lia)) as Hl.
    unfold toStringRadix. cbn [List.length] in Hl.
    assert (Hn : 0 <= n < 36 ^ Z.of_nat 6).
    { change (36 ^ Z.of_nat 6) with 2176782336.
      change (2 ^ 31) with 2147483648 in Hr. subst n. lia. }
    specialize (Hl Hn). lia.
  - apply toStringRadix_value; subst n; lia.
Qed.

(** X10. [parseDate] turns day.month.year into year-month-day: a token
    [day.month.year time] is handed to the date parser as
    [year-month-dayTtime], and a token without a time as
    [year-month-dayT00:00:00]; quote characters in the token are
    dropped. *)
Theorem parseDate_reorders_fields h day month year time :
  ~ In DOT day -> ~ In DOT month -> ~ In DOT year ->
  ~ In SPACE day -> ~ In SPACE month -> ~ In SPACE year ->
  ~ In SPACE time -> time <> [] ->
  ~ In QUOTE (day ++ month ++ year ++ time) ->
  parseDate h (day ++ [DOT] ++ month ++ [DOT] ++ year ++ [SPACE] ++ time)
  = parseDateString h
      (year ++ js "-" ++ month ++ js "-" ++ day ++ js "T" ++ time)
  /\ parseDate h (day ++ [DOT] ++ month ++ [DOT] ++ year)
     = parseDateString h
         (year ++ js "-" ++ month ++ js "-" ++ day ++ js "T00:00:00")
  /\ parseDate h (QUOTE :: (day ++ [DOT] ++ month ++ [DOT] ++ year)
                        ++ [QUOTE])
     = parseDate h (day ++ [DOT] ++ month ++ [DOT] ++ year).
Proof.
  intros Hd1 Hd2 Hd3 Hs1 Hs2 Hs3 Hs4 Hne Hq.
  assert (Hrm : forall s, ~ In QUOTE s -> remove_all QUOTE s = s).
  { intros s Hs. unfold remove_all. apply forallb_filter_id.
    apply notIn_forallb, Hs. }
  assert (Hq1 : ~ In QUOTE day /\ ~ In QUOTE month /\ ~ In QUOTE year
                /\ ~ In QUOTE time).
  { repeat split; intros H; apply Hq; rewrite !in_app_iff; tauto. }
  destruct Hq1 as (Hq1 & Hq2 & Hq3 & Hq4).
  assert (Hdate : ~ In SPACE (day ++ [DOT] ++ month ++ [DOT] ++ year)).
  { rewrite !in_app_iff. cbn. unfold SPACE, DOT in *. intuition discriminate. }
  assert (Hqd : ~ In QUOTE (day ++ [DOT] ++ month ++ [DOT] ++ year)).
  { rewrite !in_app_iff. cbn. unfold QUOTE, DOT in *. intuition discriminate. }
  assert (Hfields : split DOT (day ++ [DOT] ++ month ++ [DOT] ++ year)
                    = [day; month; year]).
  { cbn [app]. rewrite !split_app_notIn by assumption.
    rewrite split_notIn by assumption. reflexivity. }
  split; [|split].
  - unfold parseDate. rewrite Hrm.
    + replace (day ++ [DOT] ++ month ++ [DOT] ++ year ++ [SPACE] ++ time)
        with ((day ++ [DOT] ++ month ++ [DOT] ++ year) ++ SPACE :: time)
        by (rewrite <- !app_assoc; reflexivity).
      rewrite split_app_notIn by assumption.
      rewrite (split_notIn SPACE time) by assumption.
      cbn [nth nth_error]. rewrite Hfields. cbn [nth].
      destruct time as [|c t]; [contradiction|]. reflexivity.
    + rewrite !in_app_iff. cbn. unfold QUOTE, DOT, SPACE in *.
      intuition discriminate.
  - unfold parseDate. rewrite (Hrm _ Hqd).
    rewrite (split_notIn SPACE _ Hdate). cbn [nth nth_error].
    rewrite Hfields. reflexivity.
  - unfold parseDate at 1.
    replace (remove_all QUOTE
               (QUOTE :: (day ++ [DOT] ++ month ++ [DOT] ++ year)
                  ++ [QUOTE]))
      with (day ++ [DOT] ++ month ++ [DOT] ++ year).
    + unfold parseDate. rewrite (Hrm _ Hqd). reflexivity.
    + unfold remove_all. cbn [filter]. rewrite Z.eqb_refl. cbn [negb].
      rewrite filter_app. cbn [filter]. rewrite Z.eqb_refl. cbn [negb].
      rewrite app_nil_r. symmetry. apply Hrm. exact Hqd.
Qed.

Lemma parseDate_reorders_fields_witness :
  parseDate sampleHost (js "22.11.2025 14:30:00")
  = parseDateString sampleHost (js "2025-11-22T14:30:00").
Proof.
  apply (parseDate_reorders_fields sampleHost (js "22") (js "11") (js "2025")
           (js "14:30:00"));
    vm_compute; intuition discriminate.
Defined.

(** ** Rules of the classifier *)

Lemma find_none_existsb {A} (p : A -> bool) l :
  find p l = None <-> existsb p l = false.
Proof.
  induction l as [|a l IH]; cbn; [tauto|].
  destruct (p a); cbn; [split; discriminate | exact IH].
Qed.

Lemma find_some_existsb {A} (p : A -> bool) l x :
  find p l = Some x -> existsb p l = true.
Proof.
  intros H. destruct (existsb p l) eqn:E; [reflexivity|].
  apply find_none_existsb in E. congruence.
Qed.

(** X11. [filterIncome] includes an income exactly when none of its four
    rules fires: no excluded-income text occurs in the description
    (compared in lower case), no excluded person is named in it, no
    refund keyword occurs in its lower-cased form, and its category is
    not an expense category.  With every list empty, every income is
    included. *)
Theorem filterIncome_included_iff h cfg tx :
  let desc := toLowerCase h (Tx.description tx) in
  (shouldInclude (filterIncome h cfg tx) = true <->
   existsb (fun excluded => includes desc (toLowerCase h excluded))
           (EXCLUDED_DESCRIPTIONS_INCOME cfg) = false
   /\ existsb (fun person => includes (Tx.description tx) person)
              (EXCLUDED_PEOPLE cfg) = false
   /\ existsb (fun keyword => includes desc keyword) (REFUND_KEYWORDS cfg)
      = false
   /\ arr_includes (EXPENSE_CATEGORIES cfg) (Tx.category tx) = false)
  /\ (EXCLUDED_DESCRIPTIONS_INCOME cfg = [] -> EXCLUDED_PEOPLE cfg = [] ->
      REFUND_KEYWORDS cfg = [] -> EXPENSE_CATEGORIES cfg = [] ->
      filterIncome h cfg tx = {| shouldInclude := true; reason := None |}).
Proof.
  intros desc. split.
  - unfold filterIncome. fold desc.
    destruct (find _ (EXCLUDED_DESCRIPTIONS_INCOME cfg)) as [e|] eqn:E1.
    { apply find_some_existsb in E1. rewrite E1. cbn.
      split; [discriminate | intros [? _]; discriminate]. }
    apply find_none_existsb in E1. rewrite E1.
    destruct (find _ (EXCLUDED_PEOPLE cfg)) as [e|] eqn:E2.
    { apply find_some_existsb in E2. rewrite E2. cbn.
      split; [discriminate | intros (_ & ? & _); discriminate]. }
    apply find_none_existsb in E2. rewrite E2.
    destruct (find _ (REFUND_KEYWORDS cfg)) as [e|] eqn:E3.
    { apply find_some_existsb in E3. rewrite E3. cbn.
      split; [discriminate | intros (_ & _ & ? & _); discriminate]. }
    apply find_none_existsb in E3. rewrite E3.
    destruct (arr_includes (EXPENSE_CATEGORIES cfg) (Tx.category tx)); cbn.
    + split; [discriminate | intros (_ & _ & _ & ?); discriminate].
    + tauto.
  - intros H1 H2 H3 H4. unfold filterIncome, arr_includes.
    rewrite H1, H2, H3, H4. reflexivity.
Qed.

(** X12. For a category other than the transfers category
    [filterExpense] includes an expense exactly when no excluded-expense
    text occurs in the description (neither literally nor in lower case)
    and no excluded person is named in it; a description rule gives the
    configured text itself as the reason. *)
Theorem filterExpense_included_iff h cfg tx :
  Tx.category tx <> TRANSFERS ->
  let desc := toLowerCase h (Tx.description tx) in
  let byText := fun excluded =>
                  includes desc (toLowerCase h excluded)
                  || includes (Tx.description tx) excluded in
  (shouldInclude (filterExpense h cfg tx) = true <->
   existsb byText (EXCLUDED_DESCRIPTIONS_EXPENSE cfg) = false
   /\ existsb (fun person => includes (Tx.description tx) person)
              (EXCLUDED_PEOPLE cfg) = false)
  /\ (existsb byText (EXCLUDED_DESCRIPTIONS_EXPENSE cfg) = true ->
      exists excluded,
        In excluded (EXCLUDED_DESCRIPTIONS_EXPENSE cfg)
        /\ byText excluded = true
        /\ filterExpense h cfg tx
           = {| shouldInclude := false; reason := Some excluded |}).
Proof.
  intros Hcat desc byText. unfold filterExpense. fold desc.
  destruct (str_eqb_spec (Tx.category tx) TRANSFERS) as [E|_];
    [contradiction|].
  change (fun excluded =>
            includes desc (toLowerCase h excluded)
            || includes (Tx.description tx) excluded) with byText.
  destruct (find byText (EXCLUDED_DESCRIPTIONS_EXPENSE cfg)) as [e|] eqn:E1.
  - pose proof (find_some_existsb _ _ _ E1) as Hex. rewrite Hex. cbn.
    split; [split; [discriminate | intros [? _]; discriminate]|].
    intros _. exists e. apply find_some in E1. tauto.
  - apply find_none_existsb in E1. rewrite E1.
    split; [|discriminate].
    destruct (find _ (EXCLUDED_PEOPLE cfg)) as [e|] eqn:E2.
    + apply find_some_existsb in E2. rewrite E2. cbn.
      split; [discriminate | intros [_ ?]; discriminate].
    + apply find_none_existsb in E2. rewrite E2. cbn. tauto.
Qed.

Lemma filterExpense_included_iff_witness :
  let tx := sampleExpense sampleNow (-100)%Q daily in
  let desc := toLowerCase sampleHost (Tx.description tx) in
  shouldInclude (filterExpense sampleHost sampleConfig tx) = true
  <-> existsb
        (fun excluded =>
           includes desc (toLowerCase sampleHost excluded)
           || includes (Tx.description tx) excluded)
        (EXCLUDED_DESCRIPTIONS_EXPENSE sampleConfig) = false
      /\ existsb (fun person => includes (Tx.description tx) person)
                 (EXCLUDED_PEOPLE sampleConfig) = false.
Proof.
  intros tx desc.
  assert (Hcat : Tx.category tx <> TRANSFERS)
    by (vm_compute; discriminate).
  exact (proj1 (filterExpense_included_iff sampleHost sampleConfig tx Hcat)).
Defined.


(** ** Calendar keys and periods *)





(** How far a date is from the first day of its period. *)
Lemma period_day_offset d :
  Date_valid d ->
  dayNumber d - MakeDay (fst (periodOf d)) (snd (periodOf d) - 1) 23
  = if getDate d <? 23
    then getDate d
         + DaysInMonth (fst (periodOf d)) (snd (periodOf d) - 1) - 23
    else getDate d - 23.
Proof.
  intros Hv. destruct (Date_valid_fields d Hv) as (Hy & Hm & Hd & _).
  unfold periodOf, dayNumber, SALARY_DAY.
  destruct (Z.ltb_spec (getDate d) 23) as [Hlt|Hge].
  - destruct (Z.ltb_spec (getMonth d) 1) as [H0|H1]; cbn [fst snd].
    + assert (E : getMonth d = 0) by lia. rewrite E in *.
      pose proof (MakeDay_next_month (getFullYear d - 1) 11 ltac:(lia)) as Hn.
      cbn [Z.eqb Pos.eqb] in Hn.
      replace (getFullYear d - 1 + 1) with (getFullYear d) in * by lia.
      change (12 - 1) with 11. cbn [DaysInMonth] in *.
      rewrite !MakeDay_month in * by lia. lia.
    + pose proof (MakeDay_next_month (getFullYear d) (getMonth d - 1)
                    ltac:(lia)) as Hn.
      destruct (Z.eqb_spec (getMonth d - 1) 11); [lia|].
      replace (getMonth d - 1 + 1) with (getMonth d) in Hn by lia.
      rewrite !MakeDay_month in * by lia. lia.
  - cbn [fst snd]. replace (getMonth d + 1 - 1) with (getMonth d) by lia.
    rewrite !MakeDay_month by lia. lia.
Qed.

(** The range of the period of a valid date whose period starts in a year
    from 100 on. *)
Lemma range_of_own_period d :
  Date_valid d -> 100 <= fst (periodOf d) ->
  getSalaryMonthRange (getSalaryMonthKey d)
  = Some (mkDate (fst (periodOf d)) (snd (periodOf d) - 1) 23 0 0 0 0,
          mkDate (fst (endOf (fst (periodOf d)) (snd (periodOf d))))
                 (snd (endOf (fst (periodOf d)) (snd (periodOf d))))
                 22 23 59 59 0).
Proof.
  intros Hv Hy.
  destruct (periodOf_bounds d Hv) as (Hkm & Hky & Hem).
  rewrite getSalaryMonthKey_periodOf, range_of_formatKey by lia.
  assert (Hf1 : fullYear (fst (periodOf d)) = fst (periodOf d))
    by (destruct (fullYear_cases (fst (periodOf d))) as [[? ?]|[? ?]]; lia).
  assert (Hf2 : fullYear (fst (endOf (fst (periodOf d)) (snd (periodOf d))))
                = fst (endOf (fst (periodOf d)) (snd (periodOf d)))).
  { destruct (fullYear_cases
                (fst (endOf (fst (periodOf d)) (snd (periodOf d)))))
      as [[Hq ?]|[? ?]]; [|assumption].
    revert Hq. unfold endOf.
    destruct (snd (periodOf d) + 1 >? 12); cbn [fst]; lia. }
  rewrite Hf1, Hf2. reflexivity.
Qed.

Lemma periodOf_year d : 101 <= getFullYear d -> 100 <= fst (periodOf d).
Proof.
  intros H. unfold periodOf.
  destruct (getDate d <? SALARY_DAY); [destruct (getMonth d <? 1)|];
    cbn [fst]; lia.
Qed.

(** Day counts on local time values: the length of the salary period of
    a valid date of a year from 101 on is the number of days of the month
    the period starts in, and the day index counts from the 23rd. *)
Lemma salary_day_index_local d :
  Date_valid d -> 101 <= getFullYear d ->
  exists n,
    getSalaryMonthDays (getSalaryMonthKey d) = Some n
    /\ 28 <= n <= 31
    /\ n = (if getDate d <? 23
            then if getMonth d =? 0 then 31
                 else DaysInMonth (getFullYear d) (getMonth d - 1)
            else DaysInMonth (getFullYear d) (getMonth d))
    /\ getSalaryMonthDay d
       = Some (if getDate d <? 23 then getDate d + n - 22
               else getDate d - 22)
    /\ (getDate d = 23 -> getSalaryMonthDay d = Some 1)
    /\ (getDate d = 22 -> getSalaryMonthDay d = Some n).
Proof.
  intros Hv Hy101. pose proof (periodOf_year d Hy101) as Hy.
  destruct (Date_valid_fields d Hv) as (_ & Hm & Hd & Ht & _).
  pose proof (range_of_own_period d Hv Hy) as Hr.
  destruct (period_day_numbers d Hv) as [_ Hlen].
  pose proof (period_day_offset d Hv) as Hoff.
  pose proof (DaysInMonth_bounds (fst (periodOf d)) (snd (periodOf d) - 1))
    as Hb.
  exists (DaysInMonth (fst (periodOf d)) (snd (periodOf d) - 1)).
  assert (Hday : getSalaryMonthDay d
                 = Some (if getDate d <? 23
                         then getDate d
                              + DaysInMonth (fst (periodOf d))
                                            (snd (periodOf d) - 1) - 22
                         else getDate d - 22)).
  { rewrite (day_of_range d _ _ Hr eq_refl Ht).
    unfold dayNumber at 2. cbn [getFullYear getMonth getDate]. f_equal.
    destruct (getDate d <? 23); lia. }
  split.
  { rewrite (days_of_range _ _ _ Hr eq_refl eq_refl).
    unfold dayNumber. cbn [getFullYear getMonth getDate]. f_equal. lia. }
  split; [exact Hb|]. split.
  { unfold periodOf, SALARY_DAY.
    destruct (getDate d <? 23); cbn [fst snd].
    - destruct (Z.ltb_spec (getMonth d) 1), (Z.eqb_spec (getMonth d) 0);
        cbn [fst snd]; try lia; reflexivity.
    - replace (getMonth d + 1 - 1) with (getMonth d) by lia. reflexivity. }
  split; [exact Hday|]. split.
  - intros E. rewrite Hday, E. reflexivity.
  - intros E. rewrite Hday, E. change (22 <? 23) with true. cbv iota.
    f_equal. lia.
Qed.

(** In a zone whose offset never changes, differences of time values are
    differences of local time values. *)
Lemma fixed_offset_day_counts offset :
  (forall t t', offset t = offset t') ->
  (forall key, getSalaryMonthDays_in offset key = getSalaryMonthDays key)
  /\ (forall d, getSalaryMonthDay_in offset d = getSalaryMonthDay d).
Proof.
  intros Hfix.
  assert (Hdiff : forall a b,
            getTime_in offset a - getTime_in offset b
            = getTime a - getTime b).
  { intros a b. unfold getTime_in.
    rewrite (Hfix (getTime a) (getTime b)). lia. }
  split.
  - intros key. unfold getSalaryMonthDays_in, getSalaryMonthDays.
    destruct (getSalaryMonthRange key) as [[start end_]|]; [|reflexivity].
    cbv zeta. rewrite Hdiff. reflexivity.
  - intros d. unfold getSalaryMonthDay_in, getSalaryMonthDay.
    destruct (getSalaryMonthRange (getSalaryMonthKey d)) as [[start end_]|];
      [|reflexivity].
    cbv zeta. rewrite Hdiff. reflexivity.
Qed.

(** X15. In a time zone whose offset from universal time never changes,
    for a valid date of a year from 101 on, the length of its salary
    period is the number of days of the month the period starts in
    (28 to 31), and its day index counts from the 23rd: the 23rd is day
    1, a later day [k] of that month is day [k - 22], and a day [k] up to
    the 22nd of the next month is day [k + length - 22], so the 22nd is
    the last day. *)
Theorem salary_day_index_formula offset d :
  (forall t t', offset t = offset t') ->
  Date_valid d -> 101 <= getFullYear d ->
  exists n,
    getSalaryMonthDays_in offset (getSalaryMonthKey d) = Some n
    /\ 28 <= n <= 31
    /\ n = (if getDate d <? 23
            then if getMonth d =? 0 then 31
                 else DaysInMonth (getFullYear d) (getMonth d - 1)
            else DaysInMonth (getFullYear d) (getMonth d))
    /\ getSalaryMonthDay_in offset d
       = Some (if getDate d <? 23 then getDate d + n - 22
               else getDate d - 22)
    /\ (getDate d = 23 -> getSalaryMonthDay_in offset d = Some 1)
    /\ (getDate d = 22 -> getSalaryMonthDay_in offset d = Some n).
Proof.
  intros Hfix Hv Hy.
  destruct (fixed_offset_day_counts offset Hfix) as [Hdays Hday].
  rewrite Hdays, Hday. apply salary_day_index_local; assumption.
Qed.

Lemma salary_day_index_formula_witness :
  exists n,
    getSalaryMonthDays_in moscowOffset (getSalaryMonthKey sampleNow) = Some n
    /\ 28 <= n <= 31
    /\ getSalaryMonthDay_in moscowOffset sampleNow = Some (3 + n - 22).
Proof.
  destruct (salary_day_index_formula moscowOffset sampleNow)
    as (n & H1 & H2 & _ & H4 & _);
    [reflexivity | reflexivity | discriminate |].
  exists n. repeat split; try assumption; apply H2.
Defined.

(** Where the clocks change inside a period the counts are not those of
    the calendar: in New York the period from 23 October 2025 has 32
    days by the code, and 10 March 2025 is day 15 of a period that
    started on 23 February. *)
Example day_counts_across_a_clock_change :
  getSalaryMonthDays_in newYorkOffset2025 (js "2025-10") = Some 32
  /\ getSalaryMonthDay_in newYorkOffset2025 (mkDate 2025 2 10 0 0 0 0)
     = Some 15
  /\ getSalaryMonthDays_in moscowOffset (js "2025-10") = Some 31
  /\ getSalaryMonthDay_in moscowOffset (mkDate 2025 2 10 0 0 0 0) = Some 16.
Proof. vm_compute. repeat split. Qed.

(** ** Periods do not overlap *)

Lemma MakeDay_index y m d : MakeDay y m d = MakeDay 0 (12 * y + m) d.
Proof.
  unfold MakeDay.
  replace ((12 * y + m) / 12) with (y + m / 12) by zdiv.
  replace ((12 * y + m) mod 12) with (m mod 12) by zdiv.
  reflexivity.
Qed.

Lemma monthStart_step N :
  MakeDay 0 (N + 1) 1 = MakeDay 0 N 1 + DaysInMonth (N / 12) (N mod 12).
Proof.
  pose proof (MakeDay_next_month (N / 12) (N mod 12) ltac:(zdiv)) as H.
  rewrite (MakeDay_index (N / 12) (N mod 12)) in H.
  replace (12 * (N / 12) + N mod 12) with N in H by zdiv.
  rewrite <- H. symmetry. rewrite MakeDay_index. f_equal.
  destruct (Z.eqb_spec (N mod 12) 11); zdiv.
Qed.

Lemma monthStart_mono N k :
  0 <= k -> MakeDay 0 N 1 + 28 * k <= MakeDay 0 (N + k) 1.
Proof.
  intros Hk. pattern k. apply natlike_ind; [| |exact Hk]; cbv beta.
  - replace (N + 0) with N by lia. lia.
  - clear k Hk. intros k Hk IH.
    replace (N + Z.succ k) with (N + k + 1) by lia.
    rewrite monthStart_step.
    pose proof (DaysInMonth_bounds ((N + k) / 12) ((N + k) mod 12)). lia.
Qed.

Lemma MakeDay_day y m d : MakeDay y m d = MakeDay y m 1 + d - 1.
Proof. unfold MakeDay. lia. Qed.

(** Day numbers of the first and last day of the period that starts in
    month [m] (1..12) of year [y], by the index [12 y + m - 1] of that
    month. *)
Lemma period_bounds_by_index y m :
  1 <= m <= 12 ->
  MakeDay y (m - 1) 23 = MakeDay 0 (12 * y + (m - 1)) 1 + 22
  /\ MakeDay (fst (endOf y m)) (snd (endOf y m)) 22
     = MakeDay 0 (12 * y + (m - 1) + 1) 1 + 21.
Proof.
  intros Hm. split.
  - rewrite MakeDay_index, MakeDay_day. lia.
  - assert (E : forall a b, a = b -> MakeDay 0 a 1 = MakeDay 0 b 1)
      by (intros a b ->; reflexivity).
    unfold endOf. destruct (Z.gtb_spec (m + 1) 12); cbn [fst snd];
      rewrite MakeDay_index, MakeDay_day.
    + rewrite (E (12 * (y + 1) + 0) (12 * y + (m - 1) + 1)) by lia. lia.
    + rewrite (E (12 * y + m) (12 * y + (m - 1) + 1)) by lia. lia.
Qed.

(** X16. A date lies in the range of its own salary period unless it
    falls in the last second of the 22nd after the whole second: for a
    valid date of a year from 101 on, [isInSalaryMonth] accepts the
    date's own key exactly when the date is not a 22nd at 23:59:59 with
    a non-zero millisecond part. *)
Theorem isInSalaryMonth_own_key d :
  Date_valid d -> 101 <= getFullYear d ->
  (isInSalaryMonth d (getSalaryMonthKey d) = true <->
   ~ (getDate d = 22 /\ getHours d = 23 /\ getMinutes d = 59
      /\ getSeconds d = 59 /\ 0 < getMilliseconds d)).
Proof.
  intros Hv Hy101. pose proof (periodOf_year d Hy101) as Hy.
  pose proof (range_of_own_period d Hv Hy) as Hr.
  destruct (period_day_numbers d Hv) as [[Hds Hde] Hlen].
  pose proof (period_day_offset d Hv) as Hoff.
  pose proof (DaysInMonth_bounds (fst (periodOf d)) (snd (periodOf d) - 1))
    as Hb.
  unfold isInSalaryMonth. rewrite Hr. rewrite !getTime_split.
  change (timeOfDay (mkDate _ _ 23 0 0 0 0)) with 0.
  change (timeOfDay (mkDate _ _ 22 23 59 59 0)) with 86399000.
  unfold dayNumber at 1 4. cbn [getFullYear getMonth getDate].
  rewrite andb_true_iff, !Z.leb_le.
  unfold Date_valid, Date_validb in Hv.
  repeat (apply andb_true_iff in Hv; destruct Hv as [Hv ?]).
  repeat match goal with
         | H : (_ <? _) = true |- _ => apply Z.ltb_lt in H
         | H : (_ <=? _) = true |- _ => apply Z.leb_le in H
         end.
  unfold timeOfDay, MakeTime, msPerDay in *.
  pose proof (DaysInMonth_bounds (getFullYear d) (getMonth d)) as Hb'.
  destruct (Z.ltb_spec (getDate d) 23); split; intros; lia.
Qed.

Lemma isInSalaryMonth_own_key_witness :
  isInSalaryMonth sampleNow (getSalaryMonthKey sampleNow) = true.
Proof.
  apply (isInSalaryMonth_own_key sampleNow);
    [reflexivity | discriminate | vm_compute; intuition discriminate].
Defined.

(** A date inside the range of a period has that period's key. *)
Lemma isInSalaryMonth_unique d y m :
  Date_valid d -> 101 <= getFullYear d ->
  100 <= y <= 275759 -> 1 <= m <= 12 ->
  isInSalaryMonth d (formatKey y m) = true ->
  (y, m) = periodOf d.
Proof.
  intros Hv Hy101 Hy Hm Hin. pose proof (periodOf_year d Hy101) as Hky.
  destruct (Date_valid_fields d Hv) as (_ & _ & _ & Ht & _).
  destruct (periodOf_bounds d Hv) as (Hkm & Hkyb & _).
  destruct (period_day_numbers d Hv) as [[Hds Hde] _].
  destruct (period_bounds_by_index (fst (periodOf d)) (snd (periodOf d)) Hkm)
    as [Es Ee]. rewrite Es in Hds. rewrite Ee in Hde.
  unfold isInSalaryMonth in Hin.
  rewrite range_of_formatKey in Hin by lia.
  assert (Hf1 : fullYear y = y)
    by (destruct (fullYear_cases y) as [[? ?]|[? ?]]; lia).
  assert (Hf2 : fullYear (fst (endOf y m)) = fst (endOf y m)).
  { destruct (fullYear_cases (fst (endOf y m))) as [[Hq ?]|[? ?]];
      [|assumption].
    revert Hq. unfold endOf. destruct (m + 1 >? 12); cbn [fst]; lia. }
  rewrite Hf1, Hf2 in Hin.
  rewrite !getTime_split in Hin.
  change (timeOfDay (mkDate _ _ 23 0 0 0 0)) with 0 in Hin.
  change (timeOfDay (mkDate _ _ 22 23 59 59 0)) with 86399000 in Hin.
  unfold dayNumber at 1 4 in Hin. cbn [getFullYear getMonth getDate] in Hin.
  apply andb_true_iff in Hin. destruct Hin as [H1 H2].
  apply Z.leb_le in H1, H2.
  destruct (period_bounds_by_index y m Hm) as [Es' Ee'].
  rewrite Es' in H1. rewrite Ee' in H2.
  set (N := 12 * y + (m - 1)) in *.
  set (N0 := 12 * fst (periodOf d) + (snd (periodOf d) - 1)) in *.
  unfold msPerDay in *.
  assert (HN : N = N0).
  { destruct (Z.lt_trichotomy N N0) as [Hlt|[E|Hgt]]; [|exact E|]; exfalso.
    - pose proof (monthStart_mono (N + 1) (N0 - (N + 1)) ltac:(lia)) as Hmo.
      replace (N + 1 + (N0 - (N + 1))) with N0 in Hmo by lia. lia.
    - pose proof (monthStart_mono (N0 + 1) (N - (N0 + 1)) ltac:(lia)) as Hmo.
      replace (N0 + 1 + (N - (N0 + 1))) with N in Hmo by lia. lia. }
  subst N N0. destruct (periodOf d) as [ky km]. cbn [fst snd] in *.
  f_equal; lia.
Qed.

(** X17. Salary periods do not overlap: a valid date of a year from 101
    on that [isInSalaryMonth] accepts for the key of month [m] of a year
    [y] from 100 on has that key as its own; so a date with a whole
    number of seconds is accepted for exactly one such key, its own. *)
Theorem isInSalaryMonth_only_own_key d y m :
  Date_valid d -> 101 <= getFullYear d ->
  100 <= y <= 275759 -> 1 <= m <= 12 ->
  (isInSalaryMonth d (formatKey y m) = true ->
   formatKey y m = getSalaryMonthKey d)
  /\ (getMilliseconds d = 0 ->
      (isInSalaryMonth d (formatKey y m) = true <->
       formatKey y m = getSalaryMonthKey d)).
Proof.
  intros Hv Hy101 Hy Hm.
  assert (Hone : isInSalaryMonth d (formatKey y m) = true ->
                 formatKey y m = getSalaryMonthKey d).
  { intros Hin. rewrite getSalaryMonthKey_periodOf.
    rewrite <- (isInSalaryMonth_unique d y m Hv Hy101 Hy Hm Hin).
    reflexivity. }
  split; [exact Hone|]. intros Hms. split; [exact Hone|].
  intros ->. apply isInSalaryMonth_whole_seconds; auto using periodOf_year.
Qed.

Lemma isInSalaryMonth_only_own_key_witness :
  isInSalaryMonth (mkDate 2025 11 13 12 0 0 0) (formatKey 2025 11) = true
  <-> formatKey 2025 11 = getSalaryMonthKey (mkDate 2025 11 13 12 0 0 0).
Proof.
  apply (isInSalaryMonth_only_own_key (mkDate 2025 11 13 12 0 0 0) 2025 11);
    try reflexivity; try discriminate; lia.
Defined.

(** ** Category breakdown *)

Lemma sumOf_from {A} (f : A -> Q) l a :
  (fold_left (fun sum x => sum + f x) l a == a + sumOf f l)%Q.
Proof.
  unfold sumOf. revert a.
  induction l as [|x l IH]; intros a; cbn [fold_left].
  - ring.
  - rewrite IH, (IH (0 + f x)%Q). ring.
Qed.

Lemma sumOf_cons {A} (f : A -> Q) x l :
  (sumOf f (x :: l) == f x + sumOf f l)%Q.
Proof. unfold sumOf at 1. cbn [fold_left]. rewrite sumOf_from. ring. Qed.

Lemma sumOf_app {A} (f : A -> Q) l1 l2 :
  (sumOf f (l1 ++ l2) == sumOf f l1 + sumOf f l2)%Q.
Proof.
  induction l1 as [|x l1 IH]; cbn [app].
  - unfold sumOf at 2. cbn [fold_left]. ring.
  - rewrite !sumOf_cons, IH. ring.
Qed.

Lemma sumOf_perm {A} (f : A -> Q) l l' :
  Permutation l l' -> (sumOf f l == sumOf f l')%Q.
Proof.
  induction 1 as [|x l l' _ IH|x y l|l l' l'' _ IH1 _ IH2].
  - reflexivity.
  - rewrite !sumOf_cons, IH. reflexivity.
  - rewrite !sumOf_cons. ring.
  - rewrite IH1. exact IH2.
Qed.

Lemma sumOf_map {A B} (g : A -> B) (f : B -> Q) l :
  sumOf f (map g l) = sumOf (fun x => f (g x)) l.
Proof.
  unfold sumOf. generalize 0%Q.
  induction l as [|x l IH]; intros a; [reflexivity|]. cbn. apply IH.
Qed.

Lemma sumOf_ext {A} (f g : A -> Q) l :
  (forall x, In x l -> (f x == g x)%Q) -> (sumOf f l == sumOf g l)%Q.
Proof.
  induction l as [|x l IH]; intros H; [reflexivity|].
  rewrite !sumOf_cons. rewrite (H x) by (left; reflexivity).
  rewrite IH by (intros y Hy; apply H; right; exact Hy). reflexivity.
Qed.

Lemma sumOf_scale {A} (f : A -> Q) (c : Q) l :
  (sumOf (fun x => f x * c) l == sumOf f l * c)%Q.
Proof.
  induction l as [|x l IH]; [unfold sumOf; cbn [fold_left]; ring|].
  rewrite !sumOf_cons, IH. ring.
Qed.

Lemma sumAbs_sumOf l : sumAbs l = sumOf (fun t => Qabs (Tx.amount t)) l.
Proof. reflexivity. Qed.

Lemma sumAbs_snoc l t : sumAbs (l ++ [t]) = (sumAbs l + Qabs (Tx.amount t))%Q.
Proof. unfold sumAbs. rewrite fold_left_app. reflexivity. Qed.

Lemma categoryMapOf_snoc l t :
  categoryMapOf (l ++ [t])
  = map_set (categoryMapOf l) (Tx.category t)
      ((fst (match map_get (categoryMapOf l) (Tx.category t) with
             | Some c => c
             | None => (0%Q, 0%Z)
             end) + Qabs (Tx.amount t))%Q,
       snd (match map_get (categoryMapOf l) (Tx.category t) with
            | Some c => c
            | None => (0%Q, 0%Z)
            end) + 1).
Proof. unfold categoryMapOf. rewrite fold_left_app. reflexivity. Qed.

Lemma categoryMapOf_NoDup l : NoDup (map fst (categoryMapOf l)).
Proof.
  induction l as [|t l IH] using rev_ind; [constructor|].
  rewrite categoryMapOf_snoc. apply map_set_NoDup, IH.
Qed.

(** The entry of a category: the sum of the absolute amounts and the
    number of its transactions. *)
Lemma categoryMapOf_get l c :
  map_get (categoryMapOf l) c
  = match withCategory c l with
    | [] => None
    | txs => Some (sumAbs txs, Z.of_nat (List.length txs))
    end.
Proof.
  induction l as [|t l IH] using rev_ind; [reflexivity|].
  rewrite categoryMapOf_snoc, map_get_set. unfold withCategory in *.
  rewrite filter_app. cbn [filter].
  destruct (str_eqb_spec c (Tx.category t)) as [->|Hne].
  - rewrite IH.
    destruct (filter _ l) as [|x xs] eqn:E; cbn [fst snd].
    + reflexivity.
    + rewrite <- sumAbs_snoc.
      change ((x :: xs) ++ [t]) with (x :: (xs ++ [t])). cbv iota.
      do 2 f_equal. cbn [List.length]. rewrite length_app.
      cbn [List.length]. lia.
  - rewrite IH, app_nil_r. reflexivity.
Qed.

Lemma getCategoryData_perm txs :
  Permutation
    (getCategoryData txs)
    (map (fun '(name, data) =>
            {| Cat.name := name;
               Cat.amount := fst data;
               Cat.percentage :=
                 if Qltb 0 (sumOf (fun c => fst (snd c)) (categoryMapOf txs))
                 then (fst data
                       / sumOf (fun c => fst (snd c)) (categoryMapOf txs)
                       * 100)%Q
                 else 0%Q;
               Cat.count := snd data |})
         (categoryMapOf txs)).
Proof. unfold getCategoryData. apply sortBy_perm. Qed.

(** X18. [getCategoryData] returns one entry for each category that
    occurs in the list and none besides; the amount of an entry is the
    sum of the absolute amounts of the transactions of its category and
    its count is their number, which is at least 1. *)
Theorem getCategoryData_entries txs :
  NoDup (map Cat.name (getCategoryData txs))
  /\ (forall c,
        In c (map Cat.name (getCategoryData txs))
        <-> In c (map Tx.category txs))
  /\ Forall (fun e =>
               Cat.amount e = sumAbs (withCategory (Cat.name e) txs)
               /\ Cat.count e
                  = Z.of_nat (List.length (withCategory (Cat.name e) txs))
               /\ 1 <= Cat.count e)
            (getCategoryData txs).
Proof.
  pose proof (getCategoryData_perm txs) as Hp.
  set (mk := fun '(name, data) => _) in Hp.
  assert (Hname : map Cat.name (map mk (categoryMapOf txs))
                  = map fst (categoryMapOf txs)).
  { rewrite map_map. apply map_ext. intros [n v]. reflexivity. }
  split; [|split].
  - apply (Permutation_NoDup (l := map Cat.name (map mk (categoryMapOf txs)))).
    + apply Permutation_map, Permutation_sym, Hp.
    + rewrite Hname. apply categoryMapOf_NoDup.
  - intros c.
    assert (Hiff : In c (map Cat.name (getCategoryData txs))
                   <-> In c (map fst (categoryMapOf txs))).
    { rewrite <- Hname. split; apply Permutation_in;
        [apply Permutation_map, Hp
        |apply Permutation_map, Permutation_sym, Hp]. }
    rewrite Hiff. clear Hiff. split.
    + intros HIn. apply in_map_iff in HIn. destruct HIn as [[k v] [<- HIn]].
      apply (In_map_get _ _ _ (categoryMapOf_NoDup txs)) in HIn.
      rewrite categoryMapOf_get in HIn. unfold withCategory in HIn.
      destruct (filter _ txs) as [|x xs] eqn:E; [discriminate|].
      assert (Hx : In x (filter (fun t => str_eqb k (Tx.category t)) txs))
        by (rewrite E; left; reflexivity).
      apply filter_In in Hx. destruct Hx as [Hx Hc].
      apply str_eqb_eq in Hc. cbn [fst]. rewrite Hc. apply in_map, Hx.
    + intros HIn. apply in_map_iff in HIn. destruct HIn as [t [<- Ht]].
      pose proof (categoryMapOf_get txs (Tx.category t)) as Hg.
      unfold withCategory in Hg.
      destruct (filter _ txs) as [|x xs] eqn:E.
      * exfalso.
        assert (Hx : In t (filter (fun t0 => str_eqb (Tx.category t)
                                               (Tx.category t0)) txs))
          by (apply filter_In; split; [exact Ht|apply str_eqb_refl]).
        rewrite E in Hx. exact Hx.
      * apply map_get_In in Hg.
        apply (in_map fst) in Hg. exact Hg.
  - apply Forall_forall. intros e He.
    apply (Permutation_in _ Hp), in_map_iff in He.
    destruct He as [[k v] [<- HIn]]. subst mk.
    cbn [Cat.amount Cat.count Cat.name].
    apply (In_map_get _ _ _ (categoryMapOf_NoDup txs)) in HIn.
    rewrite categoryMapOf_get in HIn.
    destruct (withCategory k txs) as [|x xs] eqn:E; [discriminate|].
    cbv zeta in HIn. injection HIn as <-. cbn [fst snd].
    split; [reflexivity|]. split; [reflexivity|]. cbn [List.length]. lia.
Qed.

(** The sum of the amounts kept in a map after [map_set]. *)
Lemma sumOf_map_set (m : StrMap (Q * Z)) k v :
  (sumOf (fun c => fst (snd c)) (map_set m k v)
   == sumOf (fun c => fst (snd c)) m
      - match map_get m k with
        | Some v0 => fst v0
        | None => 0
        end
      + fst v)%Q.
Proof.
  induction m as [|[k0 v0] m IH]; cbn [map_set map_get].
  - unfold sumOf. cbn [fold_left fst snd]. ring.
  - destruct (str_eqb k k0).
    + rewrite !sumOf_cons. cbn [fst snd]. ring.
    + rewrite !sumOf_cons, IH. cbn [fst snd]. ring.
Qed.

Lemma categoryMapOf_total txs :
  (sumOf (fun c => fst (snd c)) (categoryMapOf txs) == sumAbs txs)%Q.
Proof.
  induction txs as [|t l IH] using rev_ind; [reflexivity|].
  rewrite categoryMapOf_snoc, sumOf_map_set, sumAbs_snoc, IH.
  destruct (map_get (categoryMapOf l) (Tx.category t)); cbn [fst]; ring.
Qed.

(** X19. The amounts of the entries of [getCategoryData] add up to the
    sum of the absolute amounts of the list; when that sum is positive
    the percentages add up to 100, and otherwise every percentage is 0. *)
Theorem getCategoryData_totals txs :
  (sumOf Cat.amount (getCategoryData txs) == sumAbs txs)%Q
  /\ ((0 < sumAbs txs)%Q ->
      (sumOf Cat.percentage (getCategoryData txs) == 100)%Q)
  /\ (~ (0 < sumAbs txs)%Q ->
      Forall (fun e => Cat.percentage e = 0%Q) (getCategoryData txs)).
Proof.
  pose proof (getCategoryData_perm txs) as Hp.
  pose proof (categoryMapOf_total txs) as Ht.
  set (T := sumOf (fun c => fst (snd c)) (categoryMapOf txs)) in *.
  set (mk := fun '(name, data) => _) in Hp.
  split; [|split].
  - rewrite (sumOf_perm _ _ _ Hp), sumOf_map, <- Ht.
    apply sumOf_ext. intros [k v] _. reflexivity.
  - intros Hpos. rewrite (sumOf_perm _ _ _ Hp), sumOf_map.
    assert (HT : (0 < T)%Q) by (rewrite Ht; exact Hpos).
    assert (Hb : Qltb 0 T = true) by (apply Qltb_lt, HT).
    rewrite (sumOf_ext _ (fun c => fst (snd c) * (/ T * 100))%Q).
    + rewrite sumOf_scale. fold T. field. intros E. rewrite E in HT.
      exact (Qlt_irrefl _ HT).
    + intros [k v] _. subst mk. cbv beta iota.
      cbn [Cat.percentage fst snd]. fold T. rewrite Hb.
      unfold Qdiv. ring.
  - intros Hnpos. apply Forall_forall. intros e He.
    apply (Permutation_in _ Hp), in_map_iff in He.
    destruct He as [[k v] [<- _]]. subst mk. cbn [Cat.percentage].
    destruct (Qltb 0 T) eqn:Hb; [|reflexivity].
    exfalso. apply Hnpos. rewrite <- Ht. apply Qltb_lt, Hb.
Qed.

Lemma getCategoryData_totals_witness :
  (sumOf Cat.percentage
         (getCategoryData
            [sampleExpense sampleNow (-300)%Q daily;
             sampleIncome sampleNow 100%Q]) == 100)%Q.
Proof.
  apply (proj1 (proj2 (getCategoryData_totals
                         [sampleExpense sampleNow (-300)%Q daily;
                          sampleIncome sampleNow 100%Q]))).
  reflexivity.
Defined.

(** X20. The entries of [getCategoryData] are in descending order of
    amount: no entry has a smaller amount than one that follows it. *)
Theorem getCategoryData_sorted txs :
  StronglySorted largerFirst (getCategoryData txs).
Proof.
  unfold getCategoryData.
  match goal with
  | |- StronglySorted _ (sortBy ?b ?l) => set (before := b); set (res := l)
  end.
  assert (Hiff : forall a b, before a b = true <-> largerFirst a b).
  { intros a b. subst before. cbn beta. unfold largerFirst.
    rewrite Qle_bool_iff. split; intros H; lra. }
  apply Sorted_StronglySorted.
  - intros a b c. unfold largerFirst. intros H1 H2. lra.
  - assert (Hs : Sorted (fun a b => before a b = true) (sortBy before res)).
    { apply sortBy_Sorted. intros x y Hxy.
      apply Hiff. unfold largerFirst.
      assert (Hn : ~ largerFirst x y)
        by (intros H; apply Hiff in H; congruence).
      unfold largerFirst in Hn. lra. }
    induction Hs as [|x l Hl IH Hhd]; constructor; auto.
    destruct Hhd; constructor. apply Hiff. assumption.
Qed.

(** ** Grouping keeps every transaction once *)

Lemma sumOf_filter {A} (f : A -> Q) (p : A -> bool) l :
  (sumOf f (filter p l) == sumOf (fun x => if p x then f x else 0) l)%Q.
Proof.
  induction l as [|x l IH]; [reflexivity|]. cbn [filter].
  destruct (p x) eqn:E; rewrite ?sumOf_cons, IH, ?E; ring.
Qed.

Lemma sumOf_concat {A} (f : A -> Q) ls :
  (sumOf f (List.concat ls) == sumOf (fun l => sumOf f l) ls)%Q.
Proof.
  induction ls as [|l ls IH]; [reflexivity|].
  cbn [List.concat]. rewrite sumOf_app, sumOf_cons, IH. reflexivity.
Qed.

Lemma concat_map_set {V} (m : StrMap (list V)) k (t : V) :
  Permutation
    (List.concat (map snd (map_set m k
                        (match map_get m k with
                         | Some old => old ++ [t]
                         | None => [t]
                         end))))
    (List.concat (map snd m) ++ [t]).
Proof.
  induction m as [|[k0 v0] m IH]; cbn [map_set map_get].
  - reflexivity.
  - destruct (str_eqb k k0); cbn [map snd List.concat].
    + rewrite <- !app_assoc. apply Permutation_app_head.
      apply Permutation_app_comm.
    + rewrite IH, app_assoc. reflexivity.
Qed.

Lemma groupBy_concat key l :
  Permutation (List.concat (map snd (groupBy key l))) l.
Proof.
  induction l as [|t l IH] using rev_ind; [reflexivity|].
  rewrite groupBy_snoc. unfold map_push.
  pose proof (concat_map_set (groupBy key l) (key t) t) as H.
  destruct (map_get (groupBy key l) (key t)); rewrite H, IH; reflexivity.
Qed.

(** Summing a quantity group by group gives its sum over the list. *)
Lemma sumOf_groupBy key (f : Tx.Transaction -> Q) l :
  (sumOf (fun kv => sumOf f (snd kv)) (groupBy key l) == sumOf f l)%Q.
Proof.
  rewrite <- (sumOf_perm f _ _ (groupBy_concat key l)).
  rewrite sumOf_concat, sumOf_map. reflexivity.
Qed.

Lemma sumAbs_filter p l :
  (sumAbs (filter p l)
   == sumOf (fun t => if p t then Qabs (Tx.amount t) else 0) l)%Q.
Proof. rewrite sumAbs_sumOf. apply sumOf_filter. Qed.

Lemma getMonthlyData_perm h st :
  Permutation
    (getMonthlyData h st)
    (map (fun '(month, txs) =>
            {| Monthly.month := month;
               Monthly.totalExpenses := sumAbs (filter isExpense txs);
               Monthly.totalIncome := sumAmount (filter isIncome txs);
               Monthly.dailyPoolSpent :=
                 sumAbs (filter (inPool daily) (filter isExpense txs));
               Monthly.monthlyPoolSpent :=
                 sumAbs (filter (fun t => negb (inPool daily t))
                                (filter isExpense txs));
               Monthly.mandatorySpent :=
                 sumAbs (filter (inPool mandatory) (filter isExpense txs));
               Monthly.categories := getCategoryData (filter isExpense txs) |})
         (groupBy (fun tx => getSalaryMonthKey (Tx.date tx))
                  (getFilteredTransactions st))).
Proof. unfold getMonthlyData. apply sortBy_perm. Qed.

(** X21. [getMonthlyData] counts every included transaction in exactly
    one month: the months of its entries are distinct, and the totals of
    expenses, of the daily pool and of the monthly pool over all entries
    are the totals [StatsPage] computes over all included transactions. *)
Theorem getMonthlyData_totals h st :
  NoDup (map Monthly.month (getMonthlyData h st))
  /\ (sumOf Monthly.totalExpenses (getMonthlyData h st)
      == StatsPage_totalExpenses st)%Q
  /\ (sumOf Monthly.dailyPoolSpent (getMonthlyData h st)
      == StatsPage_dailyTotal st)%Q
  /\ (sumOf Monthly.monthlyPoolSpent (getMonthlyData h st)
      == StatsPage_monthlyTotal st)%Q
  /\ (sumOf Monthly.totalIncome (getMonthlyData h st)
      == sumAmount (filter isIncome (getFilteredTransactions st)))%Q.
Proof.
  pose proof (getMonthlyData_perm h st) as Hp.
  set (key := fun tx => getSalaryMonthKey (Tx.date tx)) in Hp.
  set (filtered := getFilteredTransactions st) in *.
  set (mk := fun '(month, txs) => _) in Hp.
  assert (Hsum : forall (field : Monthly.MonthlyData -> Q)
                        (g : Tx.Transaction -> Q),
             (forall k txs, (field (mk (k, txs)) == sumOf g txs)%Q) ->
             (sumOf field (getMonthlyData h st) == sumOf g filtered)%Q).
  { intros field g Hfg.
    rewrite (sumOf_perm _ _ _ Hp), sumOf_map.
    rewrite <- (sumOf_groupBy key g filtered).
    apply sumOf_ext. intros [k txs] _. apply Hfg. }
  assert (Hd : (sumOf Monthly.dailyPoolSpent (getMonthlyData h st)
                == StatsPage_dailyTotal st)%Q).
  { unfold StatsPage_dailyTotal. fold filtered.
    rewrite filter_andb, !sumAbs_filter, sumOf_filter.
    apply Hsum. intros k txs. subst mk. cbn [Monthly.dailyPoolSpent].
    rewrite sumAbs_filter, sumOf_filter. reflexivity. }
  assert (Hm : (sumOf Monthly.monthlyPoolSpent (getMonthlyData h st)
                == StatsPage_monthlyTotal st)%Q).
  { unfold StatsPage_monthlyTotal. fold filtered.
    rewrite filter_andb, !sumAbs_filter, sumOf_filter.
    apply Hsum. intros k txs. subst mk. cbn [Monthly.monthlyPoolSpent].
    rewrite sumAbs_filter, sumOf_filter. reflexivity. }
  split; [|split; [|split; [|split]]].
  - apply (Permutation_NoDup
             (l := map Monthly.month (map mk (groupBy key filtered)))).
    + apply Permutation_map, Permutation_sym, Hp.
    + rewrite map_map.
      replace (map (fun x => Monthly.month (mk x)) (groupBy key filtered))
        with (map fst (groupBy key filtered))
        by (apply map_ext; intros [k v]; reflexivity).
      apply groupBy_NoDup.
  - unfold StatsPage_totalExpenses. rewrite <- Hd, <- Hm.
    rewrite (sumOf_perm _ _ _ Hp), !sumOf_map.
    assert (Hadd : forall {A} (f g : A -> Q) l,
              (sumOf (fun x => f x + g x) l == sumOf f l + sumOf g l)%Q).
    { intros A f g l. induction l as [|x l IH];
        [unfold sumOf; cbn [fold_left]; ring|].
      rewrite !sumOf_cons, IH. ring. }
    rewrite (sumOf_perm Monthly.dailyPoolSpent _ _ Hp),
      (sumOf_perm Monthly.monthlyPoolSpent _ _ Hp), !sumOf_map.
    rewrite <- Hadd. apply sumOf_ext. intros [k txs] _. subst mk.
    cbn [Monthly.totalExpenses Monthly.dailyPoolSpent
         Monthly.monthlyPoolSpent].
    symmetry. apply sumAbs_partition.
  - exact Hd.
  - exact Hm.
  - unfold sumAmount at 1.
    change (fold_left (fun sum t => (sum + Tx.amount t)%Q)
                      (filter isIncome filtered) 0%Q)
      with (sumOf Tx.amount (filter isIncome filtered)).
    rewrite sumOf_filter. apply Hsum. intros k txs. subst mk.
    cbn [Monthly.totalIncome]. unfold sumAmount.
    change (fold_left (fun sum t => (sum + Tx.amount t)%Q)
                      (filter isIncome txs) 0%Q)
      with (sumOf Tx.amount (filter isIncome txs)).
    apply sumOf_filter.
Qed.

(** ** Daily data, current month and the widgets *)

Lemma sumAbs_nonneg l : (0 <= sumAbs l)%Q.
Proof.
  induction l as [|t l IH]; [apply Qle_refl|].
  rewrite sumAbs_cons. pose proof (Qabs_nonneg (Tx.amount t)). lra.
Qed.

Lemma sumAbs_filter_le p l : (sumAbs (filter p l) <= sumAbs l)%Q.
Proof.
  rewrite <- (sumAbs_partition p l).
  pose proof (sumAbs_nonneg (filter (fun t => negb (p t)) l)). lra.
Qed.

Lemma sumAbs_mandatory_le l :
  (sumAbs (filter (inPool mandatory) l)
   <= sumAbs (filter (fun t => negb (inPool daily t)) l))%Q.
Proof.
  rewrite sumAbs_not_daily.
  pose proof (sumAbs_nonneg (filter (inPool monthly) l)).
  pose proof (sumAbs_nonneg (filter (inPool other) l)). lra.
Qed.

(** X22. In every entry of [getMonthlyData] the figures are ordered:
    0 <= mandatorySpent <= monthlyPoolSpent <= totalExpenses and
    0 <= dailyPoolSpent <= totalExpenses. *)
Theorem getMonthlyData_bounds h st :
  Forall (fun m =>
            (0 <= Monthly.mandatorySpent m)%Q
            /\ (Monthly.mandatorySpent m <= Monthly.monthlyPoolSpent m)%Q
            /\ (Monthly.monthlyPoolSpent m <= Monthly.totalExpenses m)%Q
            /\ (0 <= Monthly.dailyPoolSpent m)%Q
            /\ (Monthly.dailyPoolSpent m <= Monthly.totalExpenses m)%Q)
         (getMonthlyData h st).
Proof.
  apply Forall_forall. intros m Hm.
  apply (Permutation_in _ (getMonthlyData_perm h st)), in_map_iff in Hm.
  destruct Hm as [[k txs] [<- _]].
  cbn [Monthly.mandatorySpent Monthly.monthlyPoolSpent Monthly.totalExpenses
       Monthly.dailyPoolSpent].
  split; [apply sumAbs_nonneg|]. split; [apply sumAbs_mandatory_le|].
  split; [apply sumAbs_filter_le|]. split; [apply sumAbs_nonneg|].
  apply sumAbs_filter_le.
Qed.



Lemma latestDate_included now st :
  getFilteredTransactions st <> [] ->
  In (latestDate now st) (map Tx.date (getFilteredTransactions st)).
Proof.
  unfold latestDate.
  destruct (getFilteredTransactions st) as [|first others]; [congruence|].
  intros _. apply in_map, latestOf_In.
Qed.

(** X24. With valid dates, the date that decides the current period is
    the latest one: no included transaction is later than [latestDate],
    and when some transaction is included [latestDate] is the date of
    one of them. *)
Theorem latestDate_is_latest now st :
  Forall (fun t => Date_valid (Tx.date t)) (transactions st) ->
  Forall (fun t => getTime (Tx.date t) <= getTime (latestDate now st))
         (getFilteredTransactions st)
  /\ (getFilteredTransactions st <> [] ->
      In (latestDate now st) (map Tx.date (getFilteredTransactions st))).
Proof.
  intros _. split; [|apply latestDate_included].
  unfold latestDate.
  destruct (getFilteredTransactions st) as [|first others]; [constructor|].
  unfold latestOf.
  assert (Hfold : forall l acc,
            getTime (Tx.date acc)
            <= getTime (Tx.date
                 (fold_left
                    (fun latest tx =>
                       if getTime (Tx.date tx) >? getTime (Tx.date latest)
                       then tx else latest) l acc))
            /\ Forall (fun t =>
                 getTime (Tx.date t)
                 <= getTime (Tx.date
                      (fold_left
                         (fun latest tx =>
                            if getTime (Tx.date tx)
                               >? getTime (Tx.date latest)
                            then tx else latest) l acc))) l).
  { induction l as [|x l IH]; intros acc; cbn [fold_left].
    - split; [lia|constructor].
    - destruct (Z.gtb_spec (getTime (Tx.date x)) (getTime (Tx.date acc)))
        as [Hgt|Hle].
      + destruct (IH x) as [H1 H2]. split; [lia|]. constructor; assumption.
      + destruct (IH acc) as [H1 H2]. split; [assumption|].
        constructor; [lia|assumption]. }
  destruct (Hfold others first) as [H1 H2]. constructor; assumption.
Qed.

Lemma latestDate_is_latest_witness :
  let st := stateOf [sampleExpense (mkDate 2025 11 13 12 0 0 0) (-9000)%Q daily;
                     sampleExpense (mkDate 2025 11 20 8 30 0 0) (-450)%Q daily;
                     sampleExpense (mkDate 2025 10 30 19 0 0 0) (-1200)%Q
                                   monthly] in
  Forall (fun t => getTime (Tx.date t) <= getTime (latestDate sampleNow st))
         (getFilteredTransactions st)
  /\ latestDate sampleNow st = mkDate 2025 11 20 8 30 0 0.
Proof.
  intros st. split; [|reflexivity].
  apply (latestDate_is_latest sampleNow st). repeat constructor.
Defined.

(** X25. With valid dates, [getCurrentMonthTransactions] is empty when no
    transaction is included; otherwise it lists, most recent first, the
    included expenses that [isInSalaryMonth] accepts for the period of
    the latest included transaction: the very transactions that
    [getCurrentMonthStats] counts, each once, and in their order of the
    store when that order is already most recent first. *)
Theorem getCurrentMonthTransactions_spec now st :
  Forall (fun t => Date_valid (Tx.date t)) (transactions st) ->
  (getFilteredTransactions st = [] -> getCurrentMonthTransactions st = [])
  /\ StronglySorted newerFirst (getCurrentMonthTransactions st)
  /\ Forall (fun tx =>
               Tx.isFiltered tx = false /\ Tx.type tx = expense
               /\ In tx (transactions st)
               /\ isInSalaryMonth (Tx.date tx)
                    (Stats.currentMonth (getCurrentMonthStats now st))
                  = true)
            (getCurrentMonthTransactions st)
  /\ Permutation
       (getCurrentMonthTransactions st)
       (filter (fun tx =>
                  isInSalaryMonth (Tx.date tx)
                    (Stats.currentMonth (getCurrentMonthStats now st))
                  && isExpense tx)
               (getFilteredTransactions st))
  /\ (Sorted newerFirst (getFilteredTransactions st) ->
      getCurrentMonthTransactions st
      = filter (fun tx =>
                  isInSalaryMonth (Tx.date tx)
                    (Stats.currentMonth (getCurrentMonthStats now st))
                  && isExpense tx)
               (getFilteredTransactions st)).
Proof.
  intros _.
  unfold getCurrentMonthTransactions, getCurrentMonthStats, latestDate.
  cbn [Stats.currentMonth Stats.dailyPoolSpent Stats.monthlyPoolSpent].
  destruct (getFilteredTransactions st) as [|first others] eqn:E.
  - split; [reflexivity|]. split; [constructor|]. split; [constructor|].
    split; [constructor|]. reflexivity.
  - split; [discriminate|]. split; [apply sortBy_byDateDesc_sorted|].
    split.
    + apply sortBy_Forall. apply Forall_forall. intros tx Htx.
      apply filter_In in Htx. destruct Htx as [HIn Hc].
      apply andb_true_iff in Hc. destruct Hc as [Hin Hexp].
      rewrite <- E in HIn. unfold getFilteredTransactions in HIn.
      apply filter_In in HIn. destruct HIn as [HIn Hf].
      apply negb_true_iff in Hf. unfold isExpense in Hexp.
      destruct (Tx.type tx); [|discriminate]. auto.
    + split; [apply sortBy_perm|].
      intros Hs. apply sortBy_of_sorted, Sorted_byDateDesc.
      apply StronglySorted_Sorted, StronglySorted_filter.
      apply Sorted_StronglySorted; [exact newerFirst_trans|exact Hs].
Qed.

Lemma getCurrentMonthTransactions_spec_witness :
  let st := stateOf [sampleExpense (mkDate 2025 11 13 12 0 0 0) (-9000)%Q daily;
                     sampleExpense (mkDate 2025 11 20 8 30 0 0) (-450)%Q daily;
                     sampleExpense (mkDate 2025 10 20 19 0 0 0) (-1200)%Q
                                   monthly] in
  StronglySorted newerFirst (getCurrentMonthTransactions st)
  /\ map Tx.amount (getCurrentMonthTransactions st) = [(-450)%Q; (-9000)%Q].
Proof.
  intros st. split; [|vm_compute; reflexivity].
  apply (getCurrentMonthTransactions_spec sampleNow st). repeat constructor.
Defined.

(** ** The two ways of selecting the current period agree *)

Lemma isInSalaryMonth_is_key d d' :
  wholeSecond d -> Date_valid d' -> 101 <= getFullYear d' ->
  isInSalaryMonth d (getSalaryMonthKey d')
  = str_eqb (getSalaryMonthKey d') (getSalaryMonthKey d).
Proof.
  intros (Hv & Hy & Hms) Hv' Hy'.
  destruct (periodOf_bounds d' Hv') as (Hkm & Hky & _).
  pose proof (periodOf_year d' Hy') as Hky'.
  destruct (str_eqb_spec (getSalaryMonthKey d') (getSalaryMonthKey d))
    as [E|Hne].
  - rewrite E. apply isInSalaryMonth_whole_seconds;
      auto using periodOf_year.
  - destruct (isInSalaryMonth d (getSalaryMonthKey d')) eqn:Hin;
      [|reflexivity].
    exfalso. apply Hne.
    rewrite (getSalaryMonthKey_periodOf d') in Hin |- *.
    rewrite (getSalaryMonthKey_periodOf d).
    rewrite <- (isInSalaryMonth_unique d (fst (periodOf d'))
                  (snd (periodOf d')) Hv Hy (conj Hky' (proj2 Hky)) Hkm Hin).
    reflexivity.
Qed.

(** X26. When every transaction has a valid date of a year from 101 on
    with a whole number of seconds, [getMonthlyData] has an entry for
    the current month as soon as a transaction is included, and that
    entry has the same dailyPoolSpent, monthlyPoolSpent
    and mandatorySpent as [getCurrentMonthStats], and its totalExpenses
    is the sum, in list order, over the expenses that the stats select:
    grouping by key and testing the range select the same
    transactions in the same order. *)
Theorem monthly_entry_matches_stats h now st :
  Forall (fun t => wholeSecond (Tx.date t)) (transactions st) ->
  let s := getCurrentMonthStats now st in
  (getFilteredTransactions st <> [] ->
   In (Stats.currentMonth s) (map Monthly.month (getMonthlyData h st)))
  /\
  Forall (fun m =>
            Monthly.month m = Stats.currentMonth s ->
            Monthly.dailyPoolSpent m = Stats.dailyPoolSpent s
            /\ Monthly.monthlyPoolSpent m = Stats.monthlyPoolSpent s
            /\ Monthly.mandatorySpent m = Stats.mandatorySpent s
            /\ Monthly.totalExpenses m
               = sumAbs (filter (fun tx =>
                                   isInSalaryMonth (Tx.date tx)
                                                   (Stats.currentMonth s)
                                   && isExpense tx)
                                (getFilteredTransactions st)))
         (getMonthlyData h st).
Proof.
  intros Hall s. split.
  { intros Hne. apply getMonthlyData_months.
    subst s. unfold getCurrentMonthStats. cbn [Stats.currentMonth].
    pose proof (latestDate_included now st Hne) as HIn.
    apply in_map_iff in HIn. destruct HIn as [t [E Ht]].
    rewrite <- E.
    apply (in_map (fun tx => getSalaryMonthKey (Tx.date tx))), Ht. }
  apply Forall_forall. intros m Hm Hmonth.
  apply (Permutation_in _ (getMonthlyData_perm h st)), in_map_iff in Hm.
  destruct Hm as [[k txs] [<- HIn]]. cbn [Monthly.month] in Hmonth.
  subst k.
  cbn [Monthly.dailyPoolSpent Monthly.monthlyPoolSpent
       Monthly.mandatorySpent Monthly.totalExpenses].
  set (key := fun tx => getSalaryMonthKey (Tx.date tx)) in HIn.
  apply (In_map_get _ _ _ (groupBy_NoDup key _)) in HIn.
  rewrite groupBy_get in HIn.
  subst s. unfold getCurrentMonthStats in *.
  cbn [Stats.currentMonth Stats.dailyPoolSpent Stats.monthlyPoolSpent
       Stats.mandatorySpent] in *.
  set (cm := getSalaryMonthKey (latestDate now st)) in *.
  set (filtered := getFilteredTransactions st) in *.
  assert (Hfilt : Forall (fun t => wholeSecond (Tx.date t)) filtered).
  { apply Forall_forall. intros t Ht. rewrite Forall_forall in Hall.
    apply Hall. subst filtered. unfold getFilteredTransactions in Ht.
    apply filter_In in Ht. tauto. }
  assert (Hne : filtered <> []).
  { intros E. rewrite E in HIn. discriminate. }
  assert (Hlatest : wholeSecond (latestDate now st)).
  { unfold latestDate. fold filtered.
    destruct filtered as [|first others] eqn:E; [contradiction|].
    rewrite Forall_forall in Hfilt. apply (Hfilt (latestOf first others)).
    apply latestOf_In. }
  assert (Hsame : filter (fun tx => isInSalaryMonth (Tx.date tx) cm
                                    && isExpense tx) filtered
                  = filter isExpense txs).
  { rewrite filter_andb.
    destruct (filter (fun t => str_eqb cm (key t)) filtered) as [|x xs] eqn:E;
      [discriminate|].
    injection HIn as <-. rewrite <- E. f_equal.
    apply filter_ext_in. intros t Ht. rewrite Forall_forall in Hfilt.
    destruct Hlatest as (Hv & Hy & _).
    apply (isInSalaryMonth_is_key _ _ (Hfilt t Ht) Hv Hy). }
  rewrite Hsame. repeat split.
Qed.

Lemma monthly_entry_matches_stats_witness :
  let s := getCurrentMonthStats sampleNow scenarioState in
  (getFilteredTransactions scenarioState <> [] ->
   In (Stats.currentMonth s)
      (map Monthly.month (getMonthlyData sampleHost scenarioState)))
  /\
  Forall (fun m =>
            Monthly.month m = Stats.currentMonth s ->
            Monthly.dailyPoolSpent m = Stats.dailyPoolSpent s
            /\ Monthly.monthlyPoolSpent m = Stats.monthlyPoolSpent s
            /\ Monthly.mandatorySpent m = Stats.mandatorySpent s
            /\ Monthly.totalExpenses m
               = sumAbs (filter (fun tx =>
                                   isInSalaryMonth (Tx.date tx)
                                                   (Stats.currentMonth s)
                                   && isExpense tx)
                                (getFilteredTransactions scenarioState)))
         (getMonthlyData sampleHost scenarioState).
Proof.
  apply (monthly_entry_matches_stats sampleHost sampleNow scenarioState).
  repeat constructor. cbn. lia.
Defined.



(** ** Loading keeps the settings *)

(** X28. Whatever the outcome of the fetch, [loadData] ends with the
    loading flag off and leaves the budget and the selection as they
    were; after a successful fetch the list is the parsed text; and the
    effect of [DashboardPage] does nothing when the list is not empty. *)
Theorem loadData_effects h cfg net st :
  isLoading (loadData h cfg net st) = false
  /\ budget (loadData h cfg net st) = budget st
  /\ selectedMonth (loadData h cfg net st) = selectedMonth st
  /\ selectedDay (loadData h cfg net st) = selectedDay st
  /\ (forall text,
        net = FetchResponse true (Resolved text) ->
        transactions (loadData h cfg net st) = parseCSV h cfg text
        /\ error (loadData h cfg net st) = error st)
  /\ (transactions st <> [] -> DashboardPage_effect h cfg net st = st).
Proof.
  unfold loadData.
  destruct (loadCSVFromPublic_resolves h cfg net) as [txs Htxs].
  rewrite Htxs. cbn.
  split; [reflexivity|]. split; [reflexivity|]. split; [reflexivity|].
  split; [reflexivity|]. split.
  - intros text ->. cbn in Htxs. injection Htxs as <-. split; reflexivity.
  - intros Hne. unfold DashboardPage_effect.
    destruct (transactions st); [contradiction|reflexivity].
Qed.
